(** * project-quality-hub: knowledge graph, persistence and incremental update

    A shallow embedding of the core of [project_quality_hub]:
    - [core/project_mind.py]: the entity model and the knowledge-graph builder,
    - [core/project_memory.py]: the memory manager (relational store, snapshot
      store and in-process cache),
    - [core/multi_branch.py]: the branch layer over the memory manager,
    - [core/smart_incremental_update.py]: the incremental updater.

    Python dictionaries are finite maps ([gmap]), Python floats are binary64
    primitive floats, a Python string is the string of its UTF-8 bytes,
    timestamps are integers, and code that can raise runs in a small
    state-and-exception monad.  External collaborators (pathlib, the
    [ast] and [re] modules, git, the file-system watcher, the disk) are read
    from explicit environment records. *)

From Stdlib Require Import ZArith Floats Bool List Ascii String.
From stdpp Require Import base option list strings gmap.

Set Warnings "-inexact-float,-register-all,-clear-no-such-hyp".
Open Scope Z_scope.

(* ===================================================================== *)
(** * Part I: the program                                                  *)
(* ===================================================================== *)

(** ** Exceptions, outcomes and the execution monad *)

(** The exception classes the core can meet.  [KeyboardInterrupt] stands for
    the classes outside [Exception], which [except Exception] lets through. *)
Inductive exn : Type :=
  | TypeError | AttributeError | ValueError | KeyError
  | FileNotFoundError | PermissionError | OSError
  | CalledProcessError | TimeoutExpired
  | SyntaxError | RuntimeError | ModuleNotFoundError
  | SqliteError | PicklingError
  | KeyboardInterrupt.

Definition exn_eqb (a b : exn) : bool :=
  match a, b with
  | TypeError, TypeError | AttributeError, AttributeError
  | ValueError, ValueError | KeyError, KeyError
  | FileNotFoundError, FileNotFoundError | PermissionError, PermissionError
  | OSError, OSError | CalledProcessError, CalledProcessError
  | TimeoutExpired, TimeoutExpired | SyntaxError, SyntaxError
  | RuntimeError, RuntimeError | ModuleNotFoundError, ModuleNotFoundError
  | SqliteError, SqliteError | PicklingError, PicklingError
  | KeyboardInterrupt, KeyboardInterrupt => true
  | _, _ => false
  end.

(** [except Exception]. *)
Definition is_Exception (e : exn) : bool :=
  match e with KeyboardInterrupt => false | _ => true end.

(** [except (A, B, ...)] for a tuple of leaf classes. *)
Definition one_of (classes : list exn) (e : exn) : bool :=
  existsb (exn_eqb e) classes.

(** What running a piece of code ends in: a value, a raised exception, or no
    end at all (a subprocess that never finishes and is waited on). *)
Inductive outcome (A : Type) : Type :=
  | Ret (a : A)
  | Raise (e : exn)
  | Hang.
Arguments Ret {A} a.
Arguments Raise {A} e.
Arguments Hang {A}.

(** Code over a mutable state [S]: mutations made before an exception stay. *)
Definition M (S A : Type) : Type := S -> outcome A * S.

Definition ret {S A} (a : A) : M S A := fun s => (Ret a, s).
Definition raise {S A} (e : exn) : M S A := fun s => (Raise e, s).
Definition bind {S A B} (c : M S A) (k : A -> M S B) : M S B :=
  fun s =>
    match c s with
    | (Ret a, s') => k a s'
    | (Raise e, s') => (Raise e, s')
    | (Hang, s') => (Hang, s')
    end.
Definition get {S} : M S S := fun s => (Ret s, s).
Definition modify {S} (f : S -> S) : M S unit := fun s => (Ret tt, f s).
Definition lift_outcome {S A} (o : outcome A) : M S A := fun s => (o, s).

(** [try: c  except <classes>: h]. *)
Definition try_except {S A} (c : M S A) (catches : exn -> bool)
    (h : exn -> M S A) : M S A :=
  fun s =>
    match c s with
    | (Raise e, s') => if catches e then h e s' else (Raise e, s')
    | r => r
    end.

Notation "'let*' x ':=' c 'in' k" := (bind c (fun x => k))
  (at level 10, x pattern, c at level 100, k at level 200).
Notation "c ';;' k" := (bind c (fun _ => k))
  (at level 100, k at level 200, right associativity).

(** A [for] loop over a list whose body may raise. *)
Fixpoint for_each {S A} (l : list A) (body : A -> M S unit) : M S unit :=
  match l with
  | [] => ret tt
  | x :: l' => body x ;; for_each l' body
  end.

(** ** Entity model ([project_mind.py], the dataclasses) *)

Module CodeEntity.
Record t : Type := mk {
  name : string;
  entity_type : string;
  file_path : string;
  line_number : Z;
  signature : option string;
  docstring : option string;
  complexity_score : float;
  usage_count : Z;
  last_modified : Z;
  dependencies : list string;
  dependents : list string
}.
End CodeEntity.

Module FileNode.
Record t : Type := mk {
  file_path : string;
  language : string;
  size_bytes : Z;
  line_count : Z;
  last_modified : Z;
  file_hash : string;
  imports : list string;
  exports : list string;
  entities : list CodeEntity.t;
  risk_score : float;
  change_frequency : Z
}.

Definition set_risk_score (r : float) (f : t) : t :=
  mk (file_path f) (language f) (size_bytes f) (line_count f)
     (last_modified f) (file_hash f) (imports f) (exports f) (entities f)
     r (change_frequency f).
Definition set_last_modified (m : Z) (f : t) : t :=
  mk (file_path f) (language f) (size_bytes f) (line_count f)
     m (file_hash f) (imports f) (exports f) (entities f)
     (risk_score f) (change_frequency f).
Definition add_entity (e : CodeEntity.t) (f : t) : t :=
  mk (file_path f) (language f) (size_bytes f) (line_count f)
     (last_modified f) (file_hash f) (imports f) (exports f)
     (entities f ++ [e]) (risk_score f) (change_frequency f).
Definition add_import (i : string) (f : t) : t :=
  mk (file_path f) (language f) (size_bytes f) (line_count f)
     (last_modified f) (file_hash f) (imports f ++ [i]) (exports f)
     (entities f) (risk_score f) (change_frequency f).
End FileNode.

Module ProjectContext.
Record t : Type := mk {
  project_root : string;
  project_name : string;
  framework_type : string;
  main_language : string;
  architecture_pattern : string;
  build_system : string;
  package_manager : string;
  version : string;
  last_analysis : Z;
  total_files : Z;
  total_lines : Z;
  complexity_distribution : gmap string Z
}.

Definition set_version (v : string) (c : t) : t :=
  mk (project_root c) (project_name c) (framework_type c) (main_language c)
     (architecture_pattern c) (build_system c) (package_manager c) v
     (last_analysis c) (total_files c) (total_lines c)
     (complexity_distribution c).
Definition set_statistics (nf nl : Z) (d : gmap string Z) (c : t) : t :=
  mk (project_root c) (project_name c) (framework_type c) (main_language c)
     (architecture_pattern c) (build_system c) (package_manager c)
     (version c) (last_analysis c) nf nl d.
End ProjectContext.

(** ** The directed graph ([networkx.DiGraph], as far as the core uses it) *)

Module DiGraph.
(** The attribute dictionary of an edge; the core only ever sets these two
    keys, and reads them with [.get(key, default)]. *)
Record EdgeData : Type := mkEdge {
  relation_type : option string;
  strength : option float
}.

(** The attribute dictionary of a node.  [data] is a reference to the
    FileNode or CodeEntity object; it is recorded by the key of the object. *)
Record NodeData : Type := mkNode {
  node_type : option string;
  data : option string
}.

Record t : Type := mk {
  node : gmap string NodeData;
  adj : gmap string (gmap string EdgeData)
}.

Definition empty : t := mk ∅ ∅.

(** [attrs.update(new)]: keys present in [new] win. *)
Definition update_node (old new : NodeData) : NodeData :=
  mkNode (match node_type new with Some x => Some x | None => node_type old end)
         (match data new with Some x => Some x | None => data old end).
Definition update_edge (old new : EdgeData) : EdgeData :=
  mkEdge (match relation_type new with Some x => Some x | None => relation_type old end)
         (match strength new with Some x => Some x | None => strength old end).

(** [G.add_node(n, **attrs)]. *)
Definition add_node (n : string) (attrs : NodeData) (g : t) : t :=
  match node g !! n with
  | None => mk (<[n := attrs]> (node g)) (<[n := ∅]> (adj g))
  | Some old => mk (<[n := update_node old attrs]> (node g)) (adj g)
  end.

(** The implicit node creation of [add_edge]. *)
Definition touch_node (n : string) (g : t) : t :=
  match node g !! n with
  | None => mk (<[n := mkNode None None]> (node g)) (<[n := ∅]> (adj g))
  | Some _ => g
  end.

(** [G.add_edge(u, v, **attrs)]. *)
Definition add_edge (u v : string) (attrs : EdgeData) (g : t) : t :=
  let g1 := touch_node v (touch_node u g) in
  let nbrs := default ∅ (adj g1 !! u) in
  let old := default (mkEdge None None) (nbrs !! v) in
  mk (node g1) (<[u := <[v := update_edge old attrs]> nbrs]> (adj g1)).

(** [G.edges(data=True)]. *)
Definition edges (g : t) : list (string * string * EdgeData) :=
  flat_map (fun '(u, nbrs) => (fun '(v, d) => (u, v, d)) <$> map_to_list nbrs)
           (map_to_list (adj g)).

(** [G.number_of_edges()]. *)
Definition number_of_edges (g : t) : nat := length (edges g).

(** [n in G]. *)
Definition has_node (n : string) (g : t) : bool := bool_decide (is_Some (node g !! n)).

(** [G.successors(n)]. *)
Definition successors (n : string) (g : t) : list string :=
  (map_to_list (default ∅ (adj g !! n))).*1.
End DiGraph.

(** ** The knowledge graph object ([ProjectKnowledgeGraph]) *)

Module KG.
Record t : Type := mk {
  project_root : string;
  graph : DiGraph.t;
  files : gmap string FileNode.t;
  entities : gmap string CodeEntity.t;
  context : option ProjectContext.t;
  change_history : list string
}.

Definition set_graph (g : DiGraph.t) (k : t) : t :=
  mk (project_root k) g (files k) (entities k) (context k) (change_history k).
Definition set_files (f : gmap string FileNode.t) (k : t) : t :=
  mk (project_root k) (graph k) f (entities k) (context k) (change_history k).
Definition set_entities (e : gmap string CodeEntity.t) (k : t) : t :=
  mk (project_root k) (graph k) (files k) e (context k) (change_history k).
Definition set_context (c : option ProjectContext.t) (k : t) : t :=
  mk (project_root k) (graph k) (files k) (entities k) c (change_history k).
End KG.

(** ** The world outside the process *)

(** A syntax tree as [ast.parse] returns it, reduced to what the builder
    inspects: the class of each node, and for the four classes it tests with
    [isinstance] the attributes it reads. *)
Inductive ast_kind : Type :=
  | FunctionDef (name : string) (lineno : Z) (doc : option string)
  | ClassDef (name : string) (lineno : Z) (doc : option string)
  | Import (names : list string)
  | ImportFrom (module : option string)
  | OtherNode.

Inductive ast : Type :=
  | Node (kind : ast_kind) (children : list ast).

Definition ast_kind_of (t : ast) : ast_kind := match t with Node k _ => k end.
Definition iter_child_nodes (t : ast) : list ast := match t with Node _ c => c end.

Fixpoint ast_depth (t : ast) : nat :=
  match t with Node _ c => S (list_max (map ast_depth c)) end.

(** [ast.walk]: breadth first, which is level by level. *)
Fixpoint walk_levels (fuel : nat) (level : list ast) : list ast :=
  match fuel with
  | O => []
  | S n =>
      match level with
      | [] => []
      | _ => level ++ walk_levels n (flat_map iter_child_nodes level)
      end
  end.

Definition ast_walk (t : ast) : list ast := walk_levels (ast_depth t) [t].

(** One match of [re.finditer]: [match.start()], [match.group(0)] and
    [match.group(1)]. *)
Record ReMatch : Type := mkMatch {
  m_start : nat;
  group0 : string;
  group1 : string
}.

(** The regular expressions of [_analyze_js_file], by role:
    the four function patterns, the class pattern, the three import patterns. *)
Inductive js_pattern : Type :=
  | PatFunctionKeyword | PatConstParen | PatColonFunction | PatArrow
  | PatClass
  | PatImportFrom | PatImportBare | PatRequire.

Record Stat : Type := mkStat { st_size : Z; st_mtime : Z }.

(** Everything the core reads from outside: pathlib, the disk, the clock and
    the libraries it calls.  Each field is the library call of the same name. *)
Record World : Type := mkWorld {
  (* pathlib *)
  absolute : string -> string;
  parent : string -> string;
  joinpath : string -> string -> string;
  suffix : string -> string;
  with_suffix : string -> string -> outcome string;
  relative_to : string -> string -> outcome string;
  parts : string -> list string;
  (* the disk *)
  path_exists : string -> outcome bool;
  is_file : string -> bool;
  rglob : string -> list string;
  read_text : string -> outcome string;
  stat : string -> outcome Stat;
  (* the clock: datetime.now() *)
  now : Z;
  (* hashlib, ast, re *)
  md5 : string -> string;
  ast_parse : string -> outcome ast;
  re_finditer : js_pattern -> string -> list ReMatch;
  (* ProjectKnowledgeGraph._analyze_project_context: manifest heuristics *)
  detect_context : string -> outcome ProjectContext.t
}.

(** ** Strings, as Python slices and tests them *)

(** [len(l)]. *)
Definition len {A} (l : list A) : Z := Z.of_nat (length l).

Definition startswith (pre s : string) : bool := String.prefix pre s.

(** [s[n:]]. *)
Fixpoint str_from (n : nat) (s : string) : string :=
  match n, s with
  | O, _ => s
  | S n', String _ s' => str_from n' s'
  | S _, EmptyString => EmptyString
  end.

(** [s[:n]]. *)
Fixpoint str_upto (n : nat) (s : string) : string :=
  match n, s with
  | O, _ => EmptyString
  | S n', String c s' => String c (str_upto n' s')
  | S _, EmptyString => EmptyString
  end.

Definition newline : ascii := ascii_of_nat 10.

(** [s.split(sep)] for a one-character separator. *)
Fixpoint split_on (sep : ascii) (s : string) : list string :=
  match s with
  | EmptyString => [EmptyString]
  | String c s' =>
      if Ascii.eqb c sep then EmptyString :: split_on sep s'
      else match split_on sep s' with
           | [] => [String c EmptyString]
           | w :: ws => String c w :: ws
           end
  end.

(** [s.count(c)]. *)
Fixpoint count_char (c : ascii) (s : string) : Z :=
  match s with
  | EmptyString => 0
  | String d s' => (if Ascii.eqb c d then 1 else 0) + count_char c s'
  end.

(** White space, as [str.strip] and [str.isspace] know it.  In UTF-8 a
    white-space character takes one byte (U+0009 to U+000D, U+001C to
    U+0020), two bytes (U+0085, U+00A0) or three bytes (U+1680, U+2000 to
    U+200A, U+2028, U+2029, U+202F, U+205F, U+3000). *)
Definition is_space (c : ascii) : bool :=
  let n := nat_of_ascii c in
  ((9 <=? n) && (n <=? 13) || (28 <=? n) && (n <=? 32))%nat.

Definition is_space2 (c1 c2 : ascii) : bool :=
  let n1 := nat_of_ascii c1 in
  let n2 := nat_of_ascii c2 in
  ((n1 =? 194) && ((n2 =? 133) || (n2 =? 160)))%nat.

Definition is_space3 (c1 c2 c3 : ascii) : bool :=
  let n1 := nat_of_ascii c1 in
  let n2 := nat_of_ascii c2 in
  let n3 := nat_of_ascii c3 in
  ((n1 =? 225) && (n2 =? 154) && (n3 =? 128)
   || (n1 =? 226) && (n2 =? 128)
      && ((128 <=? n3) && (n3 <=? 138) || (n3 =? 168) || (n3 =? 169) || (n3 =? 175))
   || (n1 =? 226) && (n2 =? 129) && (n3 =? 159)
   || (n1 =? 227) && (n2 =? 128) && (n3 =? 128))%nat.

(** The string is made of white space only: [s.strip()] is empty. *)
Fixpoint blank (s : string) : bool :=
  match s with
  | EmptyString => true
  | String c1 r1 =>
      if is_space c1 then blank r1
      else match r1 with
           | String c2 r2 =>
               if is_space2 c1 c2 then blank r2
               else match r2 with
                    | String c3 r3 => is_space3 c1 c2 c3 && blank r3
                    | EmptyString => false
                    end
           | EmptyString => false
           end
  end.

(** [bool(line.strip())]: some character is not white space. *)
Definition strip_nonempty (s : string) : bool := negb (blank s).

(** ** The builder ([ProjectKnowledgeGraph]) *)

(** [self.supported_extensions], in insertion order. *)
Definition supported_extensions : list (string * string) :=
  [ (".py", "python"); (".js", "javascript"); (".jsx", "javascript");
    (".ts", "typescript"); (".tsx", "typescript"); (".java", "java");
    (".go", "go"); (".rs", "rust"); (".c", "c"); (".cpp", "cpp");
    (".h", "c"); (".hpp", "cpp") ].

Fixpoint assoc_get {V} (k : string) (l : list (string * V)) : option V :=
  match l with
  | [] => None
  | (k', v) :: l' => if String.eqb k k' then Some v else assoc_get k l'
  end.

Definition is_supported (sfx : string) : bool :=
  bool_decide (is_Some (assoc_get sfx supported_extensions)).

(** [ProjectKnowledgeGraph(project_root)]. *)
Definition KG_init (w : World) (project_root : string) : KG.t :=
  KG.mk (absolute w project_root) DiGraph.empty ∅ ∅ None [].

(** The key under which an entity is stored: the f-string [file_path:name]. *)
Definition entity_key (file_path name : string) : string :=
  file_path +:+ ":" +:+ name.

Definition new_entity (w : World) (name kind file_path : string) (line : Z)
    (sig : option string) (doc : option string) : CodeEntity.t :=
  CodeEntity.mk name kind file_path line sig doc 0%float 0 (now w) [] [].

(** The body of the [for node in ast.walk(tree)] loop. *)
Definition visit_python_node (w : World) (nd : ast)
    (acc : FileNode.t * gmap string CodeEntity.t) : FileNode.t * gmap string CodeEntity.t :=
  let '(fn, ents) := acc in
  match ast_kind_of nd with
  | FunctionDef name lineno doc =>
      let e := new_entity w name "function" (FileNode.file_path fn) lineno
                 (Some ("def " +:+ name +:+ "(...)")) doc in
      (FileNode.add_entity e fn, <[entity_key (FileNode.file_path fn) name := e]> ents)
  | ClassDef name lineno doc =>
      let e := new_entity w name "class" (FileNode.file_path fn) lineno
                 (Some ("class " +:+ name +:+ "(...)")) doc in
      (FileNode.add_entity e fn, <[entity_key (FileNode.file_path fn) name := e]> ents)
  | Import names =>
      (fold_left (fun f a => FileNode.add_import a f) names fn, ents)
  | ImportFrom module =>
      match module with
      | Some m => if bool_decide (m = "") then (fn, ents) else (FileNode.add_import m fn, ents)
      | None => (fn, ents)
      end
  | OtherNode => (fn, ents)
  end.

(** [_analyze_python_file]: a [SyntaxError] of [ast.parse] is logged and the
    node stays as it is; any other exception goes to the caller. *)
Definition _analyze_python_file (w : World) (fn : FileNode.t) (content : string)
    : M KG.t FileNode.t :=
  try_except
    (let* tree := lift_outcome (ast_parse w content) in
     let* k := get in
     let '(fn', ents') :=
       fold_left (fun acc nd => visit_python_node w nd acc) (ast_walk tree)
                 (fn, KG.entities k) in
     modify (KG.set_entities ents') ;;
     ret fn')
    (one_of [SyntaxError])
    (fun _ => ret fn).

Definition js_entity (w : World) (kind : string) (content : string) (m : ReMatch)
    (acc : FileNode.t * gmap string CodeEntity.t) : FileNode.t * gmap string CodeEntity.t :=
  let '(fn, ents) := acc in
  let line_num := count_char newline (str_upto (m_start m) content) + 1 in
  let e := new_entity w (group1 m) kind (FileNode.file_path fn) line_num
             (Some (group0 m)) None in
  (FileNode.add_entity e fn, <[entity_key (FileNode.file_path fn) (group1 m) := e]> ents).

(** [_analyze_js_file]. *)
Definition _analyze_js_file (w : World) (fn : FileNode.t) (content : string)
    : M KG.t FileNode.t :=
  let* k := get in
  let function_patterns := [PatFunctionKeyword; PatConstParen; PatColonFunction; PatArrow] in
  let acc1 :=
    fold_left (fun acc pat =>
                 fold_left (fun a m => js_entity w "function" content m a)
                           (re_finditer w pat content) acc)
              function_patterns (fn, KG.entities k) in
  let acc2 :=
    fold_left (fun a m => js_entity w "class" content m a)
              (re_finditer w PatClass content) acc1 in
  let import_patterns := [PatImportFrom; PatImportBare; PatRequire] in
  let fn3 :=
    fold_left (fun f pat =>
                 fold_left (fun f' m => FileNode.add_import (group1 m) f')
                           (re_finditer w pat content) f)
              import_patterns (fst acc2) in
  modify (KG.set_entities (snd acc2)) ;;
  ret fn3.

(** [_analyze_single_file(self, file_path)]: the new node is returned, not
    stored; the entities found are stored in [self.entities] on the way. *)
Definition _analyze_single_file (w : World) (file_path : string)
    : M KG.t (option FileNode.t) :=
  try_except
    (let* content := lift_outcome (read_text w file_path) in
     let* st := lift_outcome (stat w file_path) in
     let file_hash := md5 w content in
     let* language :=
       match assoc_get (suffix w file_path) supported_extensions with
       | Some l => ret l
       | None => raise KeyError
       end in
     let lines := split_on newline content in
     let line_count := len (filter (fun l => strip_nonempty l = true) lines) in
     let file_node :=
       FileNode.mk file_path language (st_size st) line_count (st_mtime st)
                   file_hash [] [] [] 0%float 0 in
     let* file_node' :=
       if String.eqb language "python" then _analyze_python_file w file_node content
       else if String.eqb language "javascript" || String.eqb language "typescript"
       then _analyze_js_file w file_node content
       else ret file_node in
     ret (Some file_node'))
    is_Exception
    (fun _ => ret None).

(** [_resolve_import]: only names that start with a dot are looked up. *)
Fixpoint try_extensions (w : World) (import_path : string) (exts : list string)
    : outcome (option string) :=
  match exts with
  | [] => Ret None
  | ext :: rest =>
      match with_suffix w import_path ext with
      | Ret potential_file =>
          match path_exists w potential_file with
          | Ret true => Ret (Some potential_file)
          | Ret false => try_extensions w import_path rest
          | Raise e => Raise e
          | Hang => Hang
          end
      | Raise e => Raise e
      | Hang => Hang
      end
  end.

Definition _resolve_import (w : World) (import_name from_file : string)
    : outcome (option string) :=
  if startswith "." import_name then
    let from_dir := parent w from_file in
    let import_path :=
      if startswith "./" import_name then joinpath w from_dir (str_from 2 import_name)
      else if startswith "../" import_name then joinpath w from_dir import_name
      else joinpath w from_dir (str_from 1 import_name) in
    try_extensions w import_path (supported_extensions.*1)
  else Ret None.

Definition imports_edge : DiGraph.EdgeData := DiGraph.mkEdge (Some "imports") (Some 0.8%float).
Definition contains_edge : DiGraph.EdgeData := DiGraph.mkEdge (Some "contains") (Some 1.0%float).

(** The loop over [file_node.imports] in [_build_dependency_graph]. *)
Definition add_import_edge (w : World) (file_path import_name : string)
    : M (KG.t * Z) unit :=
  fun '(k, dependency_count) =>
    match _resolve_import w import_name file_path with
    | Ret (Some target_file) =>
        if negb (String.eqb target_file "") && bool_decide (is_Some (KG.files k !! target_file))
        then (Ret tt, (KG.set_graph (DiGraph.add_edge file_path target_file imports_edge (KG.graph k)) k,
                       dependency_count + 1))
        else (Ret tt, (k, dependency_count))
    | Ret None => (Ret tt, (k, dependency_count))
    | Raise e => (Raise e, (k, dependency_count))
    | Hang => (Hang, (k, dependency_count))
    end.

(** The loop over [file_node.entities] in [_build_dependency_graph]. *)
Definition add_entity_node (file_path : string) (e : CodeEntity.t) (g : DiGraph.t) : DiGraph.t :=
  let key := entity_key file_path (CodeEntity.name e) in
  DiGraph.add_edge file_path key contains_edge
    (DiGraph.add_node key (DiGraph.mkNode (Some "entity") (Some key)) g).

Definition build_file (w : World) (entry : string * FileNode.t) : M (KG.t * Z) unit :=
  let '(file_path, file_node) := entry in
  modify (fun '(k, n) =>
            (KG.set_graph (DiGraph.add_node file_path
                             (DiGraph.mkNode (Some "file") (Some file_path)) (KG.graph k)) k, n)) ;;
  for_each (FileNode.imports file_node) (add_import_edge w file_path) ;;
  modify (fun '(k, n) =>
            (KG.set_graph (fold_left (fun g e => add_entity_node file_path e g)
                                     (FileNode.entities file_node) (KG.graph k)) k, n)).

(** [_build_dependency_graph]: returns the number of import edges added. *)
Definition _build_dependency_graph (w : World) : M KG.t Z :=
  fun k =>
    match for_each (map_to_list (KG.files k)) (build_file w) (k, 0) with
    | (Ret _, (k', n)) => (Ret n, k')
    | (Raise e, (k', _)) => (Raise e, k')
    | (Hang, (k', _)) => (Hang, k')
    end.

(** [_scan_and_analyze_files]. *)
Definition ignore_dirs : list string :=
  [ "node_modules"; ".git"; "__pycache__"; ".pytest_cache"; "dist"; "build";
    "target"; ".idea"; ".vscode"; "coverage" ].

Definition in_strings (x : string) (l : list string) : bool := existsb (String.eqb x) l.

Fixpoint scan_loop (w : World) (max_files : Z) (paths : list string)
    (files_processed : Z) : M KG.t Z :=
  match paths with
  | [] => ret files_processed
  | file_path :: rest =>
      if files_processed >=? max_files then ret files_processed
      else if existsb (fun d => in_strings d (parts w file_path)) ignore_dirs
      then scan_loop w max_files rest files_processed
      else if is_file w file_path && is_supported (suffix w file_path) then
        let* n :=
          try_except
            (let* file_node := _analyze_single_file w file_path in
             match file_node with
             | Some fn =>
                 modify (fun k => KG.set_files (<[file_path := fn]> (KG.files k)) k) ;;
                 ret (files_processed + 1)
             | None => ret files_processed
             end)
            is_Exception
            (fun _ => ret files_processed) in
        scan_loop w max_files rest n
      else scan_loop w max_files rest files_processed
  end.

Definition _scan_and_analyze_files (w : World) (max_files : Z) : M KG.t Z :=
  let* k := get in
  scan_loop w max_files (rglob w (KG.project_root k)) 0.

(** [_update_context_statistics]. *)
Definition bucket_of (risk : float) : string :=
  if PrimFloat.ltb risk 0.3 then "low"
  else if PrimFloat.ltb risk 0.6 then "medium"
  else if PrimFloat.ltb risk 0.8 then "high"
  else "extreme".

Definition complexity_levels (fs : list FileNode.t) : gmap string Z :=
  fold_left (fun d f => let b := bucket_of (FileNode.risk_score f) in
                        <[b := default 0 (d !! b) + 1]> d)
            fs
            (<["extreme" := 0]> (<["high" := 0]> (<["medium" := 0]> (<["low" := 0]> ∅)))).

Definition _update_context_statistics (k : KG.t) : KG.t :=
  match KG.context k with
  | Some c =>
      let fs := (map_to_list (KG.files k)).*2 in
      KG.set_context
        (Some (ProjectContext.set_statistics
                 (len fs) (fold_left Z.add (FileNode.line_count <$> fs) 0)
                 (complexity_levels fs) c)) k
  | None => k
  end.

(** ** Risk scoring ([ProjectKnowledgeGraph._calculate_risk_scores]) *)

(** Python's [sum] over a list of floats (it starts from 0) and the
    two-argument [min(a, b)], which returns [b] only when [b < a]. *)
Definition py_sum (l : list float) : float := fold_left PrimFloat.add l 0%float.
Definition py_min (a b : float) : float := if PrimFloat.ltb b a then b else a.

Definition risk_factors (f : FileNode.t) : list float :=
  let r0 := [] in
  let r1 := if FileNode.size_bytes f >? 10000 then r0 ++ [0.3%float] else r0 in
  let r2 := if FileNode.line_count f >? 500 then r1 ++ [0.4%float] else r1 in
  let r3 := if len (FileNode.entities f) >? 20 then r2 ++ [0.3%float] else r2 in
  let r4 := if len (FileNode.imports f) >? 15 then r3 ++ [0.2%float] else r3 in
  r4.

Definition file_risk_score (f : FileNode.t) : float :=
  py_min 1.0%float (py_sum (risk_factors f)).

Definition _calculate_risk_scores (k : KG.t) : KG.t :=
  KG.set_files ((fun f => FileNode.set_risk_score (file_risk_score f) f) <$> KG.files k) k.

(** The risk score as the specification words it: the sum of four
    independent contributions, each guarded by a strict comparison, clamped
    at 1.0. *)
Definition spec_contribution (exceeds : bool) (w : float) : float :=
  if exceeds then w else 0%float.

Definition spec_risk_score (size lines n_entities n_imports : Z) : float :=
  let s := (spec_contribution (size >? 10000) 0.3
            + spec_contribution (lines >? 500) 0.4
            + spec_contribution (n_entities >? 20) 0.3
            + spec_contribution (n_imports >? 15) 0.2)%float in
  py_min 1.0%float s.

(** [_analyze_entity_relationships]: the number of entities. *)
Definition _analyze_entity_relationships (k : KG.t) : Z := Z.of_nat (size (KG.entities k)).

(** [analyze_project(max_files)]. *)
Definition analyze_project (w : World) (max_files : Z) : M KG.t ProjectContext.t :=
  let* k := get in
  let* context := lift_outcome (detect_context w (KG.project_root k)) in
  modify (KG.set_context (Some context)) ;;
  let* files_analyzed := _scan_and_analyze_files w max_files in
  let* dependency_count := _build_dependency_graph w in
  let* k2 := get in
  let entities := _analyze_entity_relationships k2 in
  modify _calculate_risk_scores ;;
  modify _update_context_statistics ;;
  let* k' := get in
  ret (default context (KG.context k')).

(** ** A small world for the end-to-end scenarios *)

(** A POSIX reading of the pathlib calls, enough for absolute paths without
    dot components; the scenarios run the builder in a world made of it. *)
Definition slash : ascii := ascii_of_nat 47.
Definition dot : ascii := ascii_of_nat 46.

Definition components (p : string) : list string :=
  filter (fun c => c <> "") (split_on slash p).

Definition join_components (cs : list string) : string :=
  match cs with
  | [] => "/"
  | _ => fold_right (fun c acc => "/" +:+ c +:+ acc) "" cs
  end.

Fixpoint last_index (c : ascii) (s : string) (i : nat) (acc : option nat) : option nat :=
  match s with
  | EmptyString => acc
  | String d s' => last_index c s' (S i) (if Ascii.eqb c d then Some i else acc)
  end.

Definition posix_name (p : string) : string := List.last (components p) "".

Definition name_suffix (n : string) : string :=
  match last_index dot n O None with
  | Some (S i) => if (S (S i) <? String.length n)%nat then str_from (S i) n else ""
  | _ => ""
  end.

Definition name_stem (n : string) : string :=
  str_upto (String.length n - String.length (name_suffix n)) n.

Definition posix_parent (p : string) : string :=
  join_components (removelast (components p)).

Definition posix_joinpath (d r : string) : string :=
  if startswith "/" r then r else join_components (components d ++ components r).

Definition posix_with_suffix (p ext : string) : outcome string :=
  if bool_decide (posix_name p = "") then Raise ValueError
  else Ret (join_components (removelast (components p) ++ [name_stem (posix_name p) +:+ ext])).

Fixpoint strip_prefix (base l : list string) : option (list string) :=
  match base, l with
  | [], _ => Some l
  | b :: base', x :: l' => if String.eqb b x then strip_prefix base' l' else None
  | _ :: _, [] => None
  end.

Definition posix_relative_to (p base : string) : outcome string :=
  match strip_prefix (components base) (components p) with
  | Some rest => Ret (String.concat "/" rest)
  | None => Raise ValueError
  end.

(** The disk of a scenario: regular files with their text, size and
    modification time, all below one project root. *)
Record DiskFile : Type := mkDiskFile {
  df_path : string;
  df_text : string;
  df_mtime : Z
}.

Definition find_file (disk : list DiskFile) (p : string) : option DiskFile :=
  List.find (fun f => String.eqb (df_path f) p) disk.

Definition scenario_world (root : string) (disk : list DiskFile)
    (parse : string -> outcome ast) (clock : Z) : World :=
  mkWorld
    (fun p => p) posix_parent posix_joinpath
    (fun p => name_suffix (posix_name p)) posix_with_suffix posix_relative_to
    (fun p => "/" :: components p)
    (fun p => Ret (bool_decide (is_Some (find_file disk p)) || String.eqb p root))
    (fun p => bool_decide (is_Some (find_file disk p)))
    (fun r => filter (fun p => startswith (r +:+ "/") p) (df_path <$> disk))
    (fun p => match find_file disk p with
              | Some f => Ret (df_text f)
              | None => Raise FileNotFoundError
              end)
    (fun p => match find_file disk p with
              | Some f => Ret (mkStat (Z.of_nat (String.length (df_text f))) (df_mtime f))
              | None => Raise FileNotFoundError
              end)
    clock
    (fun content => "md5:" +:+ content)
    parse
    (fun _ _ => [])
    (fun r => Ret (ProjectContext.mk r (posix_name r) "unknown" "python" "unknown"
                     "unknown" "unknown" "0.0.0" clock 0 0 ∅)).

(** Scenario A: [a.py] holds [def foo(): pass], [b.py] holds
    [from a import foo].  The two trees are what [ast.parse] builds for these
    texts: a Module with one FunctionDef (whose children are its arguments
    node and a Pass statement), and a Module with one ImportFrom of module
    [a] (whose child is the alias [foo]). *)
Definition a_py_text : string := "def foo(): pass".
Definition b_py_text : string := "from a import foo".

Definition scenarioA_parse (content : string) : outcome ast :=
  if String.eqb content a_py_text then
    Ret (Node OtherNode [Node (FunctionDef "foo" 1 None) [Node OtherNode []; Node OtherNode []]])
  else if String.eqb content b_py_text then
    Ret (Node OtherNode [Node (ImportFrom (Some "a")) [Node OtherNode []]])
  else Raise SyntaxError.

Definition scenarioA_world : World :=
  scenario_world "/proj"
    [ mkDiskFile "/proj/a.py" a_py_text 1000; mkDiskFile "/proj/b.py" b_py_text 1000 ]
    scenarioA_parse 2000.

Definition scenarioA_run : outcome ProjectContext.t * KG.t :=
  analyze_project scenarioA_world 1000 (KG_init scenarioA_world "/proj").

(** The edges of a graph that carry a given relation type. *)
Definition edges_of_type (rel : string) (g : DiGraph.t) : list (string * string * DiGraph.EdgeData) :=
  filter (fun e => DiGraph.relation_type e.2 = Some rel) (DiGraph.edges g).

(** ** The memory manager ([ProjectMemoryManager]) *)

(** *** The relational store *)

(** Rows of the four tables [save_project] writes.  Row ids are the
    AUTOINCREMENT keys: positive, never reused. *)
Record ProjectRow : Type := mkProjectRow {
  p_id : string;
  p_project_root : string;
  p_project_name : string;
  p_framework_type : string;
  p_main_language : string;
  p_architecture_pattern : string;
  p_build_system : string;
  p_package_manager : string;
  p_version : string;
  p_total_files : Z;
  p_total_lines : Z;
  p_complexity_distribution : gmap string Z;
  p_updated_at : Z;
  p_last_accessed : Z;
  p_is_active : bool
}.

Record FileRow : Type := mkFileRow {
  f_id : nat;
  f_project_id : string;
  f_file_path : string;
  f_relative_path : string;
  f_language : string;
  f_size_bytes : Z;
  f_line_count : Z;
  f_file_hash : string;
  f_risk_score : float;
  f_change_frequency : Z;
  f_last_modified : Z
}.

Record EntityRow : Type := mkEntityRow {
  e_id : nat;
  e_project_id : string;
  e_file_id : nat;
  e_name : string;
  e_entity_type : string;
  e_signature : option string;
  e_docstring : option string;
  e_line_number : Z;
  e_complexity_score : float;
  e_usage_count : Z;
  e_last_modified : Z
}.

Record DependencyRow : Type := mkDependencyRow {
  d_id : nat;
  d_project_id : string;
  d_from_file_id : nat;
  d_to_file_id : nat;
  d_relation_type : string;
  d_strength : float
}.

Module DB.
Record t : Type := mk {
  projects : list ProjectRow;
  files : list FileRow;
  entities : list EntityRow;
  dependencies : list DependencyRow;
  seq_files : nat;
  seq_entities : nat;
  seq_dependencies : nat
}.

Definition empty : t := mk [] [] [] [] 0 0 0.

Definition set_projects (x : list ProjectRow) (d : t) : t :=
  mk x (files d) (entities d) (dependencies d) (seq_files d) (seq_entities d) (seq_dependencies d).
Definition set_files (x : list FileRow) (n : nat) (d : t) : t :=
  mk (projects d) x (entities d) (dependencies d) n (seq_entities d) (seq_dependencies d).
Definition set_entities (x : list EntityRow) (n : nat) (d : t) : t :=
  mk (projects d) (files d) x (dependencies d) (seq_files d) n (seq_dependencies d).
Definition set_dependencies (x : list DependencyRow) (n : nat) (d : t) : t :=
  mk (projects d) (files d) (entities d) x (seq_files d) (seq_entities d) n.
End DB.

(** What the snapshot file of a project identity holds: a pickled graph, or
    bytes [pickle.load] rejects (a truncated or damaged file). *)
Inductive Blob : Type :=
  | Pickled (k : KG.t)
  | Corrupt.

(** What [self.get_project_id] is bound to: the method of the class, or the
    lambda the branch layer puts in its place, which ignores its argument and
    answers with the identity of one branch of one project. *)
Inductive IdBinding : Type :=
  | BoundMethod
  | BranchLambda (project_root branch_name : string).

(** [BranchContext] ([multi_branch.py]); the branch layer keeps one per
    branch in [branch_contexts.json], in the manager's storage directory. *)
Module BranchContext.
Record t : Type := mk {
  branch_name : string;
  commit_hash : string;
  last_commit_time : Z;
  author : string;
  branch_type : string;
  parent_branch : option string;
  merge_status : string
}.
End BranchContext.

Module Manager.
Record t : Type := mk {
  db : DB.t;                          (* the committed database *)
  txn : option DB.t;                  (* the open transaction's view, if any *)
  snapshots : gmap string Blob;       (* cache_dir / <project_id>.pkl *)
  branch_contexts : option (gmap string (gmap string BranchContext.t));
                                      (* storage_dir / branch_contexts.json *)
  _cache : gmap string KG.t;
  _cache_timestamps : gmap string Z;
  max_cache_size : Z;
  cache_ttl : Z;
  get_project_id : IdBinding
}.

Definition set_db (x : DB.t) (m : t) : t :=
  mk x (txn m) (snapshots m) (branch_contexts m) (_cache m) (_cache_timestamps m)
     (max_cache_size m) (cache_ttl m) (get_project_id m).
Definition set_txn (x : option DB.t) (m : t) : t :=
  mk (db m) x (snapshots m) (branch_contexts m) (_cache m) (_cache_timestamps m)
     (max_cache_size m) (cache_ttl m) (get_project_id m).
Definition set_snapshots (x : gmap string Blob) (m : t) : t :=
  mk (db m) (txn m) x (branch_contexts m) (_cache m) (_cache_timestamps m)
     (max_cache_size m) (cache_ttl m) (get_project_id m).
Definition set_branch_contexts (x : option (gmap string (gmap string BranchContext.t))) (m : t) : t :=
  mk (db m) (txn m) (snapshots m) x (_cache m) (_cache_timestamps m)
     (max_cache_size m) (cache_ttl m) (get_project_id m).
Definition set_cache (c : gmap string KG.t) (ts : gmap string Z) (m : t) : t :=
  mk (db m) (txn m) (snapshots m) (branch_contexts m) c ts
     (max_cache_size m) (cache_ttl m) (get_project_id m).
Definition set_get_project_id (b : IdBinding) (m : t) : t :=
  mk (db m) (txn m) (snapshots m) (branch_contexts m) (_cache m) (_cache_timestamps m)
     (max_cache_size m) (cache_ttl m) b.
End Manager.

(** [ProjectMemoryManager.__init__] over a given storage directory: the cache
    starts empty, at most 5 projects are meant to be cached, for 2 hours
    (timestamps count seconds). *)
Definition ProjectMemoryManager_init (stored : DB.t) (blobs : gmap string Blob) : Manager.t :=
  Manager.mk stored None blobs None ∅ ∅ 5 (2 * 3600) BoundMethod.

(** The places where the storage can fail under the manager: each is one
    call into sqlite3, the file system or the import system. *)
Inductive io_step : Type :=
  | StepConnect            (* sqlite3.connect *)
  | StepBegin              (* BEGIN TRANSACTION *)
  | StepSaveContext        (* the statement of _save_project_context *)
  | StepSaveFiles          (* the statements of _save_files *)
  | StepSaveEntities       (* the statements of _save_entities *)
  | StepSaveDependencies   (* the statements of _save_dependencies *)
  | StepOpenSnapshot       (* open(cache_file, wb) *)
  | StepPickleDump         (* pickle.dump *)
  | StepCommit             (* COMMIT *)
  | StepRollback           (* ROLLBACK *)
  | StepSnapshotExists     (* cache_file.exists() *)
  | StepSelect             (* the queries of _load_from_database *)
  | StepImportProjectMind  (* from project_mind import ProjectContext *)
  | StepWriteBranchContexts. (* open(branch_contexts.json, w) and json.dump *)

(** Which of these fail in a given run, and with what. *)
Definition Faults : Type := io_step -> option exn.
Definition no_faults : Faults := fun _ => None.

Definition step (fx : Faults) (s : io_step) : M Manager.t unit :=
  fun m => match fx s with Some e => (Raise e, m) | None => (Ret tt, m) end.

(** The rows as the open connection sees them. *)
Definition working (m : Manager.t) : DB.t := default (Manager.db m) (Manager.txn m).

(** A statement that writes: it runs inside the open transaction (sqlite3
    opens one if none is open). *)
Definition db_write (f : DB.t -> DB.t) : M Manager.t unit :=
  modify (fun m => Manager.set_txn (Some (f (working m))) m).

Definition commit (m : Manager.t) : Manager.t :=
  Manager.set_txn None (Manager.set_db (working m) m).
Definition rollback (m : Manager.t) : Manager.t := Manager.set_txn None m.

(** [with sqlite3.connect(...) as conn: body]: a new connection has no open
    transaction; leaving the block commits, leaving it by an exception rolls
    back. *)
Definition with_connection {A} (fx : Faults) (body : M Manager.t A) : M Manager.t A :=
  step fx StepConnect ;;
  fun m =>
    match body (Manager.set_txn None m) with
    | (Ret a, m') => (Ret a, commit m')
    | (o, m') => (o, rollback m')
    end.

(** [self.get_project_id(project_root)], through whatever it is bound to. *)
Definition branch_project_id (w : World) (project_root branch_name : string) : string :=
  md5 w (project_root +:+ "#" +:+ branch_name).

Definition get_project_id (w : World) (m : Manager.t) (project_root : string) : string :=
  match Manager.get_project_id m with
  | BoundMethod => md5 w (absolute w project_root)
  | BranchLambda root branch => branch_project_id w root branch
  end.

(** *** Saving *)

(** INSERT OR REPLACE INTO projects: the rows that clash on the primary key
    [id] or on the unique [project_root] go, the new row comes. *)
Definition replace_project (w : World) (project_id : string) (c : ProjectContext.t)
    (d : DB.t) : DB.t :=
  DB.set_projects
    (filter (fun r => p_id r <> project_id /\ p_project_root r <> ProjectContext.project_root c)
            (DB.projects d)
     ++ [mkProjectRow project_id (ProjectContext.project_root c)
           (ProjectContext.project_name c) (ProjectContext.framework_type c)
           (ProjectContext.main_language c) (ProjectContext.architecture_pattern c)
           (ProjectContext.build_system c) (ProjectContext.package_manager c)
           (ProjectContext.version c) (ProjectContext.total_files c)
           (ProjectContext.total_lines c) (ProjectContext.complexity_distribution c)
           (now w) (now w) true]) d.

(** [_save_project_context]. *)
Definition _save_project_context (w : World) (fx : Faults) (project_id : string)
    (context : option ProjectContext.t) : M Manager.t unit :=
  match context with
  | None => raise AttributeError
  | Some c =>
      step fx StepSaveContext ;;
      db_write (replace_project w project_id c)
  end.

(** The rows [_save_files] inserts, with ids counted on from [seq]. *)
Fixpoint file_rows (w : World) (project_id : string) (seq : nat)
    (items : list (string * FileNode.t)) : outcome (list FileRow) :=
  match items with
  | [] => Ret []
  | (file_path, fn) :: rest =>
      match relative_to w file_path (parent w (parent w (FileNode.file_path fn))) with
      | Ret relative_path =>
          match file_rows w project_id (S seq) rest with
          | Ret rows =>
              Ret (mkFileRow (S seq) project_id file_path relative_path
                     (FileNode.language fn) (FileNode.size_bytes fn) (FileNode.line_count fn)
                     (FileNode.file_hash fn) (FileNode.risk_score fn)
                     (FileNode.change_frequency fn) (FileNode.last_modified fn) :: rows)
          | o => o
          end
      | Raise e => Raise e
      | Hang => Hang
      end
  end.

(** DELETE FROM files WHERE project_id = ?, and the INSERTs that follow. *)
Definition delete_files (project_id : string) (d : DB.t) : DB.t :=
  DB.set_files (filter (fun r => f_project_id r <> project_id) (DB.files d)) (DB.seq_files d) d.

Definition insert_files (rows : list FileRow) (d : DB.t) : DB.t :=
  DB.set_files (DB.files d ++ rows) (DB.seq_files d + length rows)%nat d.

(** [_save_files]. *)
Definition _save_files (w : World) (fx : Faults) (project_id : string)
    (files : gmap string FileNode.t) : M Manager.t unit :=
  step fx StepSaveFiles ;;
  db_write (delete_files project_id) ;;
  let* m := get in
  let* rows := lift_outcome (file_rows w project_id (DB.seq_files (working m)) (map_to_list files)) in
  db_write (insert_files rows).

(** [file_id_map]: SELECT file_path, id FROM files WHERE project_id = ?. *)
Definition file_id_map (project_id : string) (d : DB.t) : gmap string nat :=
  fold_left (fun acc r => <[f_file_path r := f_id r]> acc)
            (filter (fun r => f_project_id r = project_id) (DB.files d)) ∅.

(** A row id used as a condition: [if file_id]. *)
Definition truthy_id (i : option nat) : option nat :=
  match i with
  | Some (S n) => Some (S n)
  | _ => None
  end.

Fixpoint entity_rows (project_id : string) (ids : gmap string nat) (seq : nat)
    (items : list (string * CodeEntity.t)) : list EntityRow :=
  match items with
  | [] => []
  | (_, e) :: rest =>
      match truthy_id (ids !! CodeEntity.file_path e) with
      | Some file_id =>
          mkEntityRow (S seq) project_id file_id (CodeEntity.name e)
            (CodeEntity.entity_type e) (CodeEntity.signature e) (CodeEntity.docstring e)
            (CodeEntity.line_number e) (CodeEntity.complexity_score e)
            (CodeEntity.usage_count e) (CodeEntity.last_modified e)
          :: entity_rows project_id ids (S seq) rest
      | None => entity_rows project_id ids seq rest
      end
  end.

Definition delete_entities (project_id : string) (d : DB.t) : DB.t :=
  DB.set_entities (filter (fun r => e_project_id r <> project_id) (DB.entities d))
                  (DB.seq_entities d) d.

Definition insert_entities (project_id : string) (entities : gmap string CodeEntity.t)
    (d : DB.t) : DB.t :=
  let rows := entity_rows project_id (file_id_map project_id d) (DB.seq_entities d)
                          (map_to_list entities) in
  DB.set_entities (DB.entities d ++ rows) (DB.seq_entities d + length rows)%nat d.

(** [_save_entities]. *)
Definition _save_entities (fx : Faults) (project_id : string)
    (entities : gmap string CodeEntity.t) : M Manager.t unit :=
  step fx StepSaveEntities ;;
  db_write (delete_entities project_id) ;;
  db_write (insert_entities project_id entities).

Fixpoint dependency_rows (project_id : string) (ids : gmap string nat) (seq : nat)
    (edges : list (string * string * DiGraph.EdgeData)) : list DependencyRow :=
  match edges with
  | [] => []
  | (from_node, to_node, edge_data) :: rest =>
      match truthy_id (ids !! from_node), truthy_id (ids !! to_node) with
      | Some from_file_id, Some to_file_id =>
          mkDependencyRow (S seq) project_id from_file_id to_file_id
            (default "unknown" (DiGraph.relation_type edge_data))
            (default 1.0%float (DiGraph.strength edge_data))
          :: dependency_rows project_id ids (S seq) rest
      | _, _ => dependency_rows project_id ids seq rest
      end
  end.

Definition delete_dependencies (project_id : string) (d : DB.t) : DB.t :=
  DB.set_dependencies (filter (fun r => d_project_id r <> project_id) (DB.dependencies d))
                      (DB.seq_dependencies d) d.

Definition insert_dependencies (project_id : string) (graph : DiGraph.t) (d : DB.t) : DB.t :=
  let rows := dependency_rows project_id (file_id_map project_id d) (DB.seq_dependencies d)
                              (DiGraph.edges graph) in
  DB.set_dependencies (DB.dependencies d ++ rows) (DB.seq_dependencies d + length rows)%nat d.

(** [_save_dependencies]. *)
Definition _save_dependencies (fx : Faults) (project_id : string) (graph : DiGraph.t)
    : M Manager.t unit :=
  step fx StepSaveDependencies ;;
  db_write (delete_dependencies project_id) ;;
  db_write (insert_dependencies project_id graph).

(** The snapshot write: opening the file for writing truncates it, so a
    failing [pickle.dump] leaves bytes that no longer load. *)
Definition write_snapshot (fx : Faults) (project_id : string) (k : KG.t) : M Manager.t unit :=
  step fx StepOpenSnapshot ;;
  modify (fun m => Manager.set_snapshots (<[project_id := Corrupt]> (Manager.snapshots m)) m) ;;
  step fx StepPickleDump ;;
  modify (fun m => Manager.set_snapshots (<[project_id := Pickled k]> (Manager.snapshots m)) m).

(** The four relational steps of [save_project], in order. *)
Definition relational_writes (w : World) (fx : Faults) (project_id : string)
    (knowledge_graph : KG.t) : M Manager.t unit :=
  _save_project_context w fx project_id (KG.context knowledge_graph) ;;
  _save_files w fx project_id (KG.files knowledge_graph) ;;
  _save_entities fx project_id (KG.entities knowledge_graph) ;;
  _save_dependencies fx project_id (KG.graph knowledge_graph).

(** The body of the inner [try] of [save_project]: the relational steps,
    the snapshot, COMMIT, then the in-process cache. *)
Definition save_transaction (w : World) (fx : Faults) (project_id : string)
    (knowledge_graph : KG.t) : M Manager.t bool :=
  relational_writes w fx project_id knowledge_graph ;;
  write_snapshot fx project_id knowledge_graph ;;
  step fx StepCommit ;;
  modify commit ;;
  modify (fun m =>
    Manager.set_cache (<[project_id := knowledge_graph]> (Manager._cache m))
                      (<[project_id := now w]> (Manager._cache_timestamps m)) m) ;;
  ret true.

(** [save_project]. *)
Definition save_project (w : World) (fx : Faults) (knowledge_graph : KG.t) : M Manager.t bool :=
  try_except
    (let* m := get in
     let project_id := get_project_id w m (KG.project_root knowledge_graph) in
     with_connection fx
       (step fx StepBegin ;;
        modify (fun m => Manager.set_txn (Some (working m)) m) ;;
        try_except
          (save_transaction w fx project_id knowledge_graph)
          is_Exception
          (fun _ =>
             step fx StepRollback ;;
             modify rollback ;;
             ret false)))
    is_Exception
    (fun _ => ret false).

(** *** Loading *)

(** [_is_cache_valid]: no recorded file is newer on disk than recorded. *)
Fixpoint cache_valid_loop (w : World) (items : list (string * FileNode.t)) : outcome bool :=
  match items with
  | [] => Ret true
  | (file_path, file_node) :: rest =>
      match path_exists w file_path with
      | Ret true =>
          match stat w file_path with
          | Ret st =>
              if st_mtime st >? FileNode.last_modified file_node then Ret false
              else cache_valid_loop w rest
          | Raise e => Raise e
          | Hang => Hang
          end
      | Ret false => cache_valid_loop w rest
      | Raise e => Raise e
      | Hang => Hang
      end
  end.

Definition _is_cache_valid (w : World) (k : KG.t) : outcome bool :=
  cache_valid_loop w (map_to_list (KG.files k)).

(** [_rebuild_project_context]; [last_analysis] takes its default. *)
Definition _rebuild_project_context (w : World) (fx : Faults) (r : ProjectRow)
    : M Manager.t ProjectContext.t :=
  step fx StepImportProjectMind ;;
  ret (ProjectContext.mk (p_project_root r) (p_project_name r) (p_framework_type r)
         (p_main_language r) (p_architecture_pattern r) (p_build_system r)
         (p_package_manager r) (p_version r) (now w) (p_total_files r) (p_total_lines r)
         (p_complexity_distribution r)).

(** [file_id_map] of the rebuild: id to path. *)
Definition file_path_map (rows : list FileRow) : gmap nat string :=
  fold_left (fun acc r => <[f_id r := f_file_path r]> acc) rows ∅.

(** A path used as a condition: [if file_path]. *)
Definition truthy_path (p : option string) : option string :=
  match p with
  | Some s => if bool_decide (s = "") then None else Some s
  | None => None
  end.

Definition rebuild_file (acc : gmap string FileNode.t) (r : FileRow) : gmap string FileNode.t :=
  <[f_file_path r :=
      FileNode.mk (f_file_path r) (f_language r) (f_size_bytes r) (f_line_count r)
        (f_last_modified r) (f_file_hash r) [] [] [] (f_risk_score r) (f_change_frequency r)]> acc.

Definition rebuild_entity (paths : gmap nat string)
    (acc : gmap string FileNode.t * gmap string CodeEntity.t) (r : EntityRow)
    : gmap string FileNode.t * gmap string CodeEntity.t :=
  match truthy_path (paths !! e_file_id r) with
  | Some file_path =>
      let entity :=
        CodeEntity.mk (e_name r) (e_entity_type r) file_path (e_line_number r)
          (e_signature r) (e_docstring r) (e_complexity_score r) (e_usage_count r)
          (e_last_modified r) [] [] in
      (alter (FileNode.add_entity entity) file_path acc.1,
       <[entity_key file_path (e_name r) := entity]> acc.2)
  | None => acc
  end.

(** [_rebuild_files_and_entities]. *)
Definition _rebuild_files_and_entities (project_id : string) (d : DB.t) (k : KG.t) : KG.t :=
  let rows := filter (fun r => f_project_id r = project_id) (DB.files d) in
  let files := fold_left rebuild_file rows (KG.files k) in
  let erows := filter (fun r => e_project_id r = project_id) (DB.entities d) in
  let '(files', entities') :=
    fold_left (rebuild_entity (file_path_map rows)) erows (files, KG.entities k) in
  KG.set_entities entities' (KG.set_files files' k).

Definition rebuild_edge (paths : gmap nat string) (g : DiGraph.t) (r : DependencyRow) : DiGraph.t :=
  match truthy_path (paths !! d_from_file_id r), truthy_path (paths !! d_to_file_id r) with
  | Some from_path, Some to_path =>
      DiGraph.add_edge from_path to_path
        (DiGraph.mkEdge (Some (d_relation_type r)) (Some (d_strength r))) g
  | _, _ => g
  end.

(** [_rebuild_dependencies]. *)
Definition _rebuild_dependencies (project_id : string) (d : DB.t) (k : KG.t) : KG.t :=
  let paths := file_path_map (filter (fun r => f_project_id r = project_id) (DB.files d)) in
  let g1 := fold_left (fun g p => DiGraph.add_node p (DiGraph.mkNode (Some "file") None) g)
                      (map_to_list (KG.files k)).*1 (KG.graph k) in
  let g2 := fold_left (fun g p => DiGraph.add_node p (DiGraph.mkNode (Some "entity") None) g)
                      (map_to_list (KG.entities k)).*1 g1 in
  let rows := filter (fun r => d_project_id r = project_id) (DB.dependencies d) in
  KG.set_graph (fold_left (rebuild_edge paths) rows g2) k.

Definition touch_last_accessed (w : World) (project_id : string) (d : DB.t) : DB.t :=
  DB.set_projects
    ((fun r => if bool_decide (p_id r = project_id)
               then mkProjectRow (p_id r) (p_project_root r) (p_project_name r)
                      (p_framework_type r) (p_main_language r) (p_architecture_pattern r)
                      (p_build_system r) (p_package_manager r) (p_version r)
                      (p_total_files r) (p_total_lines r) (p_complexity_distribution r)
                      (p_updated_at r) (now w) (p_is_active r)
               else r) <$> DB.projects d) d.

(** [_load_from_database]. *)
Definition _load_from_database (w : World) (fx : Faults) (project_id project_root : string)
    : M Manager.t (option KG.t) :=
  try_except
    (with_connection fx
       (step fx StepSelect ;;
        let* m := get in
        match List.find (fun r => bool_decide (p_id r = project_id)) (DB.projects (working m)) with
        | None => ret None
        | Some project_row =>
            let knowledge_graph := KG_init w project_root in
            let* context := _rebuild_project_context w fx project_row in
            let k1 := KG.set_context (Some context) knowledge_graph in
            let k2 := _rebuild_files_and_entities project_id (working m) k1 in
            let k3 := _rebuild_dependencies project_id (working m) k2 in
            db_write (touch_last_accessed w project_id) ;;
            ret (Some k3)
        end))
    is_Exception
    (fun _ => ret None).

(** The in-process cache lookup of [load_project]: present and younger than
    the time to live. *)
Definition cache_lookup (w : World) (m : Manager.t) (project_id : string) : option KG.t :=
  match Manager._cache m !! project_id with
  | Some cached =>
      match Manager._cache_timestamps m !! project_id with
      | Some cache_time =>
          if now w - cache_time <? Manager.cache_ttl m then Some cached else None
      | None => None
      end
  | None => None
  end.

(** The snapshot branch of [load_project]. *)
Definition load_snapshot (w : World) (project_id : string) : M Manager.t (option KG.t) :=
  let* m := get in
  match Manager.snapshots m !! project_id with
  | Some blob =>
      try_except
        (let* knowledge_graph :=
           match blob with
           | Pickled k => ret k
           | Corrupt => raise PicklingError
           end in
         let* valid := lift_outcome (_is_cache_valid w knowledge_graph) in
         if valid : bool then
           modify (fun m =>
             Manager.set_cache (<[project_id := knowledge_graph]> (Manager._cache m))
                               (<[project_id := now w]> (Manager._cache_timestamps m)) m) ;;
           ret (Some knowledge_graph)
         else ret None)
        is_Exception
        (fun _ => ret None)
  | None => ret None
  end.

(** [load_project(project_root, use_cache)]. *)
Definition load_project (w : World) (fx : Faults) (project_root : string) (use_cache : bool)
    : M Manager.t (option KG.t) :=
  let* m := get in
  let project_id := get_project_id w m project_root in
  match (if use_cache then cache_lookup w m project_id else None) with
  | Some cached => ret (Some cached)
  | None =>
      step fx StepSnapshotExists ;;
      let* from_snapshot := load_snapshot w project_id in
      match from_snapshot with
      | Some knowledge_graph => ret (Some knowledge_graph)
      | None => _load_from_database w fx project_id project_root
      end
  end.

(** ** The branch layer ([MultiBranchProjectMind]) *)

(** [_save_branch_context]: read-modify-write of [branch_contexts.json]; an
    unreadable file counts as empty. *)
Definition _save_branch_context (fx : Faults) (project_root branch_name : string)
    (branch_context : BranchContext.t) : M Manager.t unit :=
  let* m := get in
  let contexts := default ∅ (Manager.branch_contexts m) in
  let project_key := project_root in
  let per_project := default ∅ (contexts !! project_key) in
  step fx StepWriteBranchContexts ;;
  modify (Manager.set_branch_contexts
            (Some (<[project_key := <[branch_name := branch_context]> per_project]> contexts))).

(** [_load_branch_project]: the identity method of the shared manager is
    replaced for the duration of the load and put back after it. *)
Definition _load_branch_project (w : World) (fx : Faults) (project_root branch_name : string)
    : M Manager.t (option KG.t) :=
  try_except
    (let* m := get in
     let original_get_project_id := Manager.get_project_id m in
     modify (Manager.set_get_project_id (BranchLambda project_root branch_name)) ;;
     let* knowledge_graph := load_project w fx project_root true in
     modify (Manager.set_get_project_id original_get_project_id) ;;
     ret knowledge_graph)
    is_Exception
    (fun _ => ret None).

(** [_save_branch_project]. *)
Definition _save_branch_project (w : World) (fx : Faults) (project_root branch_name : string)
    (knowledge_graph : KG.t) (branch_context : BranchContext.t) : M Manager.t bool :=
  try_except
    (let* m := get in
     let original_get_project_id := Manager.get_project_id m in
     modify (Manager.set_get_project_id (BranchLambda project_root branch_name)) ;;
     let* success := save_project w fx knowledge_graph in
     (if success : bool then _save_branch_context fx project_root branch_name branch_context
      else ret tt) ;;
     modify (Manager.set_get_project_id original_get_project_id) ;;
     ret success)
    is_Exception
    (fun _ => ret false).

(** ** External version-control calls ([subprocess.run] on git) *)

(** What the git executable does for one command line. *)
Inductive ProcessBehaviour : Type :=
  | ToolAbsent                                        (* no such executable *)
  | Exits (returncode : Z) (stdout : string) (seconds : Z)
  | NeverExits.

Definition Git : Type := list string -> ProcessBehaviour.

Record CompletedProcess : Type := mkCompleted { returncode : Z; stdout : string }.

(** [subprocess.run(args, cwd=..., capture_output=True, text=True,
    check=check, timeout=timeout)]: without a timeout the call waits for the
    process, however long it takes. *)
Definition subprocess_run (git : Git) (args : list string) (check : bool)
    (timeout : option Z) : outcome CompletedProcess :=
  match git args with
  | ToolAbsent => Raise FileNotFoundError
  | NeverExits =>
      match timeout with
      | Some _ => Raise TimeoutExpired
      | None => Hang
      end
  | Exits rc out seconds =>
      match timeout with
      | Some t => if seconds >? t then Raise TimeoutExpired
                  else if check && negb (rc =? 0) then Raise CalledProcessError
                  else Ret (mkCompleted rc out)
      | None => if check && negb (rc =? 0) then Raise CalledProcessError
                else Ret (mkCompleted rc out)
      end
  end.

(** [str.strip()]: the white-space characters at both ends go, whether
    they take one, two or three bytes. *)
Fixpoint lstrip (s : string) : string :=
  match s with
  | EmptyString => EmptyString
  | String c1 r1 =>
      if is_space c1 then lstrip r1
      else match r1 with
           | String c2 r2 =>
               if is_space2 c1 c2 then lstrip r2
               else match r2 with
                    | String c3 r3 => if is_space3 c1 c2 c3 then lstrip r3 else s
                    | EmptyString => s
                    end
           | EmptyString => s
           end
  end.

Fixpoint rstrip (s : string) : string :=
  match s with
  | EmptyString => EmptyString
  | String c s' => if blank s then EmptyString else String c (rstrip s')
  end.

Definition strip (s : string) : string := lstrip (rstrip s).

(** [int(s)] for a decimal literal with an optional sign. *)
Fixpoint digits_value (s : string) (acc : Z) : option Z :=
  match s with
  | EmptyString => Some acc
  | String c s' =>
      let n := nat_of_ascii c in
      if ((48 <=? n) && (n <=? 57))%nat
      then digits_value s' (10 * acc + Z.of_nat (n - 48))
      else None
  end.

Definition py_int (s : string) : outcome Z :=
  let unsigned (t : string) : option Z :=
    match t with
    | EmptyString => None
    | _ => digits_value t 0
    end in
  let r :=
    match strip s with
    | String c t =>
        if Ascii.eqb c (ascii_of_nat 45) then Z.opp <$> unsigned t
        else if Ascii.eqb c (ascii_of_nat 43) then unsigned t
        else unsigned (String c t)
    | EmptyString => None
    end in
  match r with
  | Some z => Ret z
  | None => Raise ValueError
  end.

Definition pipe : ascii := ascii_of_nat 124.
Definition tab : ascii := ascii_of_nat 9.

(** [MultiBranchProjectMind._get_current_branch]. *)
Definition _get_current_branch {S} (git : Git) : M S string :=
  try_except
    (let* result := lift_outcome
        (subprocess_run git ["git"; "rev-parse"; "--abbrev-ref"; "HEAD"] true None) in
     ret (strip (stdout result)))
    (one_of [CalledProcessError; FileNotFoundError])
    (fun _ => ret "unknown").

(** [MultiBranchProjectMind._get_commit_info]: hash, commit time, author. *)
Definition _get_commit_info {S} (w : World) (git : Git) : M S (string * Z * string) :=
  try_except
    (let* hash_result := lift_outcome
        (subprocess_run git ["git"; "rev-parse"; "HEAD"] true None) in
     let commit_hash := strip (stdout hash_result) in
     let* info_result := lift_outcome
        (subprocess_run git ["git"; "log"; "-1"; "--format=%ct|%an"] true None) in
     match split_on pipe (strip (stdout info_result)) with
     | [timestamp; author] =>
         let* commit_time := lift_outcome (py_int timestamp) in
         ret (commit_hash, commit_time, author)
     | _ => raise ValueError
     end)
    (one_of [CalledProcessError; FileNotFoundError])
    (fun _ => ret ("unknown", now w, "unknown")).

(** [SmartIncrementalUpdater._get_git_file_info]: [None] is the empty dict. *)
Definition _get_git_file_info {S} (git : Git) (file_path : string)
    : M S (option (string * Z * string)) :=
  try_except
    (let* result := lift_outcome
        (subprocess_run git ["git"; "log"; "-1"; "--format=%H|%ct|%an"; "--"; file_path]
                        true None) in
     if bool_decide (strip (stdout result) = "") then ret None
     else
       match split_on pipe (strip (stdout result)) with
       | [hash_str; timestamp; author] =>
           let* t := lift_outcome (py_int timestamp) in
           ret (Some (hash_str, t, author))
       | _ => raise ValueError
       end)
    (one_of [CalledProcessError; FileNotFoundError; ValueError])
    (fun _ => ret None).

(** ** The incremental updater ([SmartIncrementalUpdater]) *)

Record FileChangeInfo : Type := mkChange {
  change_file_path : string;
  change_type : string;          (* created, modified, deleted, moved *)
  old_hash : option string;
  new_hash : option string;
  timestamp : Z
}.

Record ChangeSummary : Type := mkSummary {
  content_changed : bool;
  lines_changed : Z;
  risk_level : option string
}.

Definition numstat_field (s : string) : outcome Z :=
  if bool_decide (s = "-") then Ret 0 else py_int s.

(** [_analyze_content_changes]. *)
Definition _analyze_content_changes {S} (git : Git) (file_path old_h new_h : string)
    : M S ChangeSummary :=
  if bool_decide (old_h = new_h) then ret (mkSummary false 0 None)
  else
    try_except
      (let* result := lift_outcome
          (subprocess_run git ["git"; "diff"; "--numstat"; "HEAD~1"; "HEAD"; "--"; file_path]
                          false None) in
       if bool_decide (strip (stdout result) = "") then ret (mkSummary true 0 (Some "low"))
       else
         match split_on tab (strip (stdout result)) with
         | a :: d :: _ =>
             let* added := lift_outcome (numstat_field a) in
             let* deleted := lift_outcome (numstat_field d) in
             let n := added + deleted in
             ret (mkSummary true n
                    (Some (if n >? 100 then "high" else if n >? 20 then "medium" else "low")))
         | _ => ret (mkSummary true 0 (Some "low"))
         end)
      (one_of [CalledProcessError; ValueError])
      (fun _ => ret (mkSummary true 0 (Some "low"))).

(** The methods [ProjectKnowledgeGraph] defines, each with the number of
    positional parameters it takes after [self]. *)
Definition ProjectKnowledgeGraph_methods : list (string * nat) :=
  [ ("analyze_project", 1%nat); ("analyze_changed_files", 1%nat);
    ("_analyze_project_context", 0%nat); ("_detect_framework_type", 0%nat);
    ("_detect_main_language", 0%nat); ("_detect_architecture_pattern", 0%nat);
    ("_detect_build_system", 0%nat); ("_detect_package_manager", 0%nat);
    ("_get_project_version", 0%nat); ("_scan_and_analyze_files", 1%nat);
    ("_analyze_single_file", 1%nat); ("_analyze_python_file", 2%nat);
    ("_analyze_js_file", 2%nat); ("_build_dependency_graph", 0%nat);
    ("_resolve_import", 2%nat); ("_analyze_entity_relationships", 0%nat);
    ("_calculate_risk_scores", 0%nat); ("_update_context_statistics", 0%nat);
    ("get_entity_by_name", 1%nat); ("get_file_dependencies", 1%nat);
    ("get_file_dependents", 1%nat); ("predict_change_impact", 1%nat);
    ("_get_change_recommendations", 2%nat); ("export_project_summary", 0%nat) ].

(** A call [knowledge_graph.method(args)]: an attribute the class does not have
    raises [AttributeError]; a call with the wrong number of positional
    arguments raises [TypeError] before the body runs. *)
Definition call_method {S A} (method : string) (args : list string)
    (body : list string -> M S A) : M S A :=
  match assoc_get method ProjectKnowledgeGraph_methods with
  | None => raise AttributeError
  | Some arity => if (length args =? arity)%nat then body args else raise TypeError
  end.

(** [_process_single_file_change]. *)
Definition _process_single_file_change (w : World) (git : Git) (project_root : string)
    (change_info : FileChangeInfo) : M KG.t unit :=
  let file_path := change_file_path change_info in
  if String.eqb (change_type change_info) "deleted" then
    modify (fun k => KG.set_files (delete file_path (KG.files k)) k) ;;
    modify (fun k =>
      KG.set_entities (filter (fun kv => CodeEntity.file_path kv.2 <> file_path) (KG.entities k)) k)
  else if in_strings (change_type change_info) ["created"; "modified"] then
    let* on_disk := lift_outcome (path_exists w file_path) in
    if on_disk : bool then
      let* git_info := _get_git_file_info git file_path in
      let* k := get in
      let old_h := default "" (FileNode.file_hash <$> (KG.files k !! file_path)) in
      let* change_summary :=
        _analyze_content_changes git file_path old_h (default "" (new_hash change_info)) in
      let* relative_path := lift_outcome (relative_to w file_path project_root) in
      let* _ := call_method "_analyze_single_file" [file_path; relative_path]
                  (fun args => _analyze_single_file w (List.hd "" args)) in
      modify (fun k =>
        match git_info with
        | Some (_, last_commit_time, _) =>
            KG.set_files (alter (FileNode.set_last_modified last_commit_time) file_path
                                (KG.files k)) k
        | None => k
        end)
    else ret tt
  else ret tt.

(** [_update_dependencies]. *)
Definition _update_dependencies (updated_files : list string) : M KG.t unit :=
  for_each updated_files (fun file_path =>
    let* k := get in
    match KG.files k !! file_path with
    | Some file_node =>
        call_method "_analyze_imports_exports" [file_path; file_path] (fun _ => ret tt)
    | None => ret tt
    end).

(** The loop of [_process_file_changes] over the batch: an exception of one
    change is logged and the loop goes on; the paths that went through are
    collected in [updated_files]. *)
Fixpoint process_changes (w : World) (git : Git) (project_root : string)
    (changes : list (string * FileChangeInfo)) (updated_files : list string)
    : M KG.t (list string) :=
  match changes with
  | [] => ret updated_files
  | (file_path, change_info) :: rest =>
      let* updated' :=
        try_except
          (_process_single_file_change w git project_root change_info ;;
           ret (updated_files ++ [file_path]))
          is_Exception
          (fun _ => ret updated_files) in
      process_changes w git project_root rest updated'
  end.

(** The part of [_process_file_changes] that works on the loaded graph. *)
Definition apply_changes (w : World) (git : Git) (project_root : string)
    (changes : list (string * FileChangeInfo)) : M KG.t unit :=
  let* updated_files := process_changes w git project_root changes [] in
  match updated_files with
  | [] => ret tt
  | _ => _update_dependencies updated_files
  end.

(** The file-system watcher ([watchdog]): per observer class, whether its
    constructor, [schedule], [start] and [stop] raise.  A [start] that raises
    has started no watcher thread; [join] on a stopped observer returns. *)
Inductive ObserverClass : Type := Observer | PollingObserver.

Record Watchdog : Type := mkWatchdog {
  wd_construct : ObserverClass -> option exn;
  wd_schedule : ObserverClass -> option exn;
  wd_start : ObserverClass -> option exn;
  wd_stop : ObserverClass -> option exn;
  WATCHDOG_FORCE_POLLING : string
}.

Module Updater.
Record t : Type := mk {
  project_root : string;
  memory_manager : Manager.t;
  observer : option ObserverClass;
  monitoring : bool;
  _observer_class : option ObserverClass;
  running : list ObserverClass          (* the watcher threads that are alive *)
}.

Definition set_memory_manager (m : Manager.t) (u : t) : t :=
  mk (project_root u) m (observer u) (monitoring u) (_observer_class u) (running u).
Definition set_observer (o : option ObserverClass) (u : t) : t :=
  mk (project_root u) (memory_manager u) o (monitoring u) (_observer_class u) (running u).
Definition set_monitoring (b : bool) (u : t) : t :=
  mk (project_root u) (memory_manager u) (observer u) b (_observer_class u) (running u).
Definition set_observer_class (c : option ObserverClass) (u : t) : t :=
  mk (project_root u) (memory_manager u) (observer u) (monitoring u) c (running u).
Definition set_running (r : list ObserverClass) (u : t) : t :=
  mk (project_root u) (memory_manager u) (observer u) (monitoring u) (_observer_class u) r.
End Updater.

(** [SmartIncrementalUpdater.__init__]. *)
Definition SmartIncrementalUpdater_init (w : World) (project_root : string)
    (stored : DB.t) (blobs : gmap string Blob) : Updater.t :=
  Updater.mk (absolute w project_root) (ProjectMemoryManager_init stored blobs)
             None false None [].

Definition lift_manager {A} (c : M Manager.t A) : M Updater.t A :=
  fun u =>
    match c (Updater.memory_manager u) with
    | (o, m') => (o, Updater.set_memory_manager m' u)
    end.

Definition observer_cls_eqb (a b : ObserverClass) : bool :=
  match a, b with
  | Observer, Observer | PollingObserver, PollingObserver => true
  | _, _ => false
  end.

Definition ascii_lower (c : ascii) : ascii :=
  let n := nat_of_ascii c in
  if ((65 <=? n) && (n <=? 90))%nat then ascii_of_nat (n + 32) else c.

(** The Kelvin sign (U+212A) in UTF-8: the one character outside ASCII
    whose lower case is an ASCII letter. *)
Definition is_kelvin_sign (c1 c2 c3 : ascii) : bool :=
  ((nat_of_ascii c1 =? 226) && (nat_of_ascii c2 =? 132) && (nat_of_ascii c3 =? 170))%nat.

(** [str.lower()], as far as a comparison with ASCII words can tell: the
    ASCII capitals and the Kelvin sign are lowered; the other characters
    outside ASCII, whose lower case is outside ASCII too, are left as they
    are.  The core only tests the result for membership in sets of ASCII
    words. *)
Fixpoint lower (s : string) : string :=
  match s with
  | EmptyString => EmptyString
  | String c1 r1 =>
      match r1 with
      | String c2 (String c3 r3) =>
          if is_kelvin_sign c1 c2 c3 then String (ascii_of_nat 107) (lower r3)
          else String (ascii_lower c1) (lower r1)
      | _ => String (ascii_lower c1) (lower r1)
      end
  end.

(** [_should_force_polling]. *)
Definition _should_force_polling (wd : Watchdog) : bool :=
  let flag := WATCHDOG_FORCE_POLLING wd in
  if bool_decide (flag = "") then false
  else negb (in_strings (lower flag) ["0"; "false"; "no"]).

(** [_candidate_observers]. *)
Definition _candidate_observers (wd : Watchdog) : list ObserverClass :=
  if _should_force_polling wd then [PollingObserver] else [Observer; PollingObserver].

Definition wd_step {S} (r : option exn) : M S unit :=
  match r with Some e => raise e | None => ret tt end.

(** One turn of the loop of [start_monitoring] over the candidates: [Some]
    is the observer that started ([break]), [None] goes on to the next
    candidate with the error remembered. *)
Definition try_candidate (wd : Watchdog) (observer_cls : ObserverClass)
    : M Updater.t (option ObserverClass + exn) :=
  fun u =>
    match wd_construct wd observer_cls with
    | Some e =>
        (* candidate is still None: nothing to stop *)
        if is_Exception e then (Ret (inr e), u) else (Raise e, u)
    | None =>
        match (wd_step (wd_schedule wd observer_cls) ;;
               wd_step (wd_start wd observer_cls) ;;
               modify (fun u => Updater.set_running (Updater.running u ++ [observer_cls]) u)) u with
        | (Ret _, u') => (Ret (inl (Some observer_cls)), Updater.set_observer_class (Some observer_cls) u')
        | (Raise e, u') =>
            if is_Exception e then
              match wd_stop wd observer_cls with
              | Some e' => if is_Exception e' then (Ret (inr e), u') else (Raise e', u')
              | None => (Ret (inr e), u')
              end
            else (Raise e, u')
        | (Hang, u') => (Hang, u')
        end
    end.

Fixpoint start_candidates (wd : Watchdog) (candidates : list ObserverClass)
    (last_error : option exn) : M Updater.t (option ObserverClass * option exn) :=
  match candidates with
  | [] => ret (None, last_error)
  | observer_cls :: rest =>
      let* r := try_candidate wd observer_cls in
      match r with
      | inl started => ret (started, last_error)
      | inr exc => start_candidates wd rest (Some exc)
      end
  end.

(** [start_monitoring]. *)
Definition start_monitoring (wd : Watchdog) : M Updater.t unit :=
  let* u := get in
  if Updater.monitoring u then ret tt
  else
    let* (observer, last_error) := start_candidates wd (_candidate_observers wd) None in
    match observer with
    | None => raise RuntimeError
    | Some o =>
        modify (Updater.set_observer (Some o)) ;;
        modify (Updater.set_monitoring true)
    end.

(** [stop_monitoring]. *)
Definition stop_monitoring (wd : Watchdog) : M Updater.t unit :=
  let* u := get in
  match Updater.monitoring u, Updater.observer u with
  | true, Some o =>
      wd_step (wd_stop wd o) ;;
      modify (fun u => Updater.set_running
                         (filter (fun c => observer_cls_eqb c o = false) (Updater.running u)) u) ;;
      modify (Updater.set_monitoring false)
  | _, _ => ret tt
  end.

(** [full_reanalysis]. *)
Definition full_reanalysis (w : World) (fx : Faults) : M Updater.t bool :=
  let* u := get in
  match analyze_project w 1000 (KG_init w (Updater.project_root u)) with
  | (Ret _, knowledge_graph) => lift_manager (save_project w fx knowledge_graph)
  | (Raise e, _) => raise e
  | (Hang, _) => lift_outcome Hang
  end.

(** [force_update]: the status and whether monitoring was restarted. *)
Definition force_update (w : World) (fx : Faults) (wd : Watchdog) : M Updater.t (bool * bool) :=
  let* u := get in
  let was_monitoring := Updater.monitoring u in
  (if was_monitoring then stop_monitoring wd else ret tt) ;;
  let* success := full_reanalysis w fx in
  (if was_monitoring then start_monitoring wd else ret tt) ;;
  ret (success, was_monitoring).

(** [_process_file_changes]: besides the updater, the result carries the
    graph object the batch worked on, as it is when the call ends ([None]
    when nothing could be loaded and a full reanalysis ran instead). *)
Definition _process_file_changes (w : World) (git : Git) (fx : Faults)
    (changes : list (string * FileChangeInfo)) (u : Updater.t)
    : outcome unit * Updater.t * option KG.t :=
  match lift_manager (load_project w fx (Updater.project_root u) true) u with
  | (Ret None, u1) =>
      match full_reanalysis w fx u1 with
      | (Ret _, u2) => (Ret tt, u2, None)
      | (Raise e, u2) => (Raise e, u2, None)
      | (Hang, u2) => (Hang, u2, None)
      end
  | (Ret (Some knowledge_graph), u1) =>
      match apply_changes w git (Updater.project_root u1) changes knowledge_graph with
      | (Ret _, k') =>
          match lift_manager (save_project w fx k') u1 with
          | (Ret _, u2) => (Ret tt, u2, Some k')
          | (Raise e, u2) => (Raise e, u2, Some k')
          | (Hang, u2) => (Hang, u2, Some k')
          end
      | (Raise e, k') => (Raise e, u1, Some k')
      | (Hang, k') => (Hang, u1, Some k')
      end
  | (Raise e, u1) => (Raise e, u1, None)
  | (Hang, u1) => (Hang, u1, None)
  end.

(** ** Predicates the properties are stated with *)

(** The graph has exactly one edge of type imports, from [src] to [dst],
    with the given strength. *)
Definition one_imports_edge (g : DiGraph.t) (src dst : string) (s : float) : Prop :=
  edges_of_type "imports" g = [(src, dst, DiGraph.mkEdge (Some "imports") (Some s))].

(** An observer class can be started: neither its constructor, nor
    [schedule], nor [start] raises. *)
Definition can_start (wd : Watchdog) (c : ObserverClass) : bool :=
  match wd_construct wd c, wd_schedule wd c, wd_start wd c with
  | None, None, None => true
  | _, _, _ => false
  end.

(** The updater's flag agrees with its observer: monitoring implies that an
    observer is held. *)
Definition flag_consistent (u : Updater.t) : Prop :=
  Updater.monitoring u = true -> is_Some (Updater.observer u).

(** A git call that fails outright: the tool is absent, or it exits with a
    non-zero status (as it does outside a repository). *)
Definition git_fails (b : ProcessBehaviour) : bool :=
  match b with
  | ToolAbsent => true
  | Exits rc _ _ => negb (rc =? 0)
  | NeverExits => false
  end.

(** A git that never answers. *)
Definition git_never_exits : Git := fun _ => NeverExits.

(** The steps of a save that come before the snapshot file is opened. *)
Definition before_snapshot_step (s : io_step) : bool :=
  match s with
  | StepConnect | StepBegin | StepSaveContext | StepSaveFiles
  | StepSaveEntities | StepSaveDependencies => true
  | _ => false
  end.

(** The four relational write steps. *)
Definition relational_write_step (s : io_step) : bool :=
  match s with
  | StepSaveContext | StepSaveFiles | StepSaveEntities | StepSaveDependencies => true
  | _ => false
  end.

(** A call that did not succeed: it returned [bad], or was left by an
    exception outside [Exception], or never ended. *)
Definition failed {A} (o : outcome A) (bad : A) : Prop :=
  o = Ret bad \/ o = Hang \/ exists e, o = Raise e /\ is_Exception e = false.

(** The rows of the database after the four relational steps of a save. *)
Definition saved_db (w : World) (project_id : string) (c : ProjectContext.t)
    (rows : list FileRow) (k : KG.t) (d : DB.t) : DB.t :=
  insert_dependencies project_id (KG.graph k)
    (delete_dependencies project_id
      (insert_entities project_id (KG.entities k)
        (delete_entities project_id
          (insert_files rows (delete_files project_id (replace_project w project_id c d)))))).

(** The manager after a successful save of [k] under [project_id]. *)
Definition saved_manager (w : World) (project_id : string) (c : ProjectContext.t)
    (rows : list FileRow) (k : KG.t) (m : Manager.t) : Manager.t :=
  Manager.set_cache (<[project_id := k]> (Manager._cache m))
    (<[project_id := now w]> (Manager._cache_timestamps m))
    (Manager.set_snapshots (<[project_id := Pickled k]> (Manager.snapshots m))
       (Manager.set_txn None
          (Manager.set_db (saved_db w project_id c rows k (Manager.db m)) m))).

(** Storage on which COMMIT fails. *)
Definition commit_fails : Faults :=
  fun s => match s with StepCommit => Some SqliteError | _ => None end.

(** Storage on which the statements of [_save_entities] fail. *)
Definition entities_write_fails : Faults :=
  fun s => match s with StepSaveEntities => Some SqliteError | _ => None end.

(** The attributes of the edge from [u] to [v], if the graph has it. *)
Definition edge_lookup (g : DiGraph.t) (u v : string) : option DiGraph.EdgeData :=
  DiGraph.adj g !! u ≫= (fun nbrs => nbrs !! v).

(** Every node that has an adjacency entry is a node of the graph, as
    networkx keeps it. *)
Definition graph_wf (g : DiGraph.t) : Prop :=
  forall n, DiGraph.node g !! n = None -> DiGraph.adj g !! n = None.

(** The edges of a graph, as a set of pairs. *)
Definition edge_set (g : DiGraph.t) : gset (string * string) :=
  list_to_set (DiGraph.edges g).*1.

(** Row ids and paths of the files of one project name each other. *)
Record id_correspondence (files : gmap string FileNode.t) (ids : gmap string nat)
    (paths : gmap nat string) : Prop := mk_corr {
  corr_some : forall p, is_Some (files !! p) ->
                exists i, ids !! p = Some (S i) /\ paths !! (S i) = Some p;
  corr_none : forall p, files !! p = None -> ids !! p = None
}.

(** The id of each path, read from a list of file rows. *)
Definition path_id_map (rows : list FileRow) : gmap string nat :=
  fold_left (fun acc r => <[f_file_path r := f_id r]> acc) rows ∅.

(** The entity key a row of the entities table is rebuilt under. *)
Definition row_key (paths : gmap nat string) (r : EntityRow) : option string :=
  (fun p => entity_key p (e_name r)) <$> truthy_path (paths !! e_file_id r).

(** The edge a row of the dependencies table is rebuilt as. *)
Definition row_pair (paths : gmap nat string) (r : DependencyRow) : option (string * string) :=
  match truthy_path (paths !! d_from_file_id r), truthy_path (paths !! d_to_file_id r) with
  | Some u, Some v => Some (u, v)
  | _, _ => None
  end.

(** The edges of a graph object that join two of its file nodes. *)
Definition file_edges (k : KG.t) : list (string * string * DiGraph.EdgeData) :=
  filter (fun e => is_Some (KG.files k !! e.1.1) /\ is_Some (KG.files k !! e.1.2))
         (DiGraph.edges (KG.graph k)).

(** The entities of an analysed graph: each is stored under the key made
    of its file path and name, and its file is one of the graph. *)
Definition entities_keyed (k : KG.t) : Prop :=
  map_Forall (fun key e =>
                key = entity_key (CodeEntity.file_path e) (CodeEntity.name e)
                /\ is_Some (KG.files k !! CodeEntity.file_path e))
             (KG.entities k).

(** The snapshot is not accepted: some recorded file is newer on disk, or
    the check itself raised. *)
Definition snapshot_stale (w : World) (k : KG.t) : Prop :=
  _is_cache_valid w k = Ret false
  \/ exists e, _is_cache_valid w k = Raise e /\ is_Exception e = true.

(** What [_load_from_database] builds from the rows of [d]. *)
Definition rebuilt (w : World) (pid root : string) (ctx : ProjectContext.t) (d : DB.t) : KG.t :=
  _rebuild_dependencies pid d
    (_rebuild_files_and_entities pid d (KG.set_context (Some ctx) (KG_init w root))).

(** The entities are keyed by file path and name, and each belongs to a file
    of [files] or to the file under [p], which is being analysed. *)
Definition keyed_or (p : string) (files : gmap string FileNode.t)
    (ents : gmap string CodeEntity.t) : Prop :=
  map_Forall (fun key e =>
                key = entity_key (CodeEntity.file_path e) (CodeEntity.name e)
                /\ (is_Some (files !! CodeEntity.file_path e) \/ CodeEntity.file_path e = p))
             ents.

(** What the analysis of the file under [p] does to the graph object: the
    files stay, and the entities stay keyed, those of [p] included. *)
Definition keeps_keyed (p : string) (k k' : KG.t) : Prop :=
  KG.files k' = KG.files k
  /\ (keyed_or p (KG.files k) (KG.entities k) -> keyed_or p (KG.files k') (KG.entities k')).

(** Code that only works on the [graph] of the graph object. *)
Definition same_files_entities (k k' : KG.t) : Prop :=
  KG.files k' = KG.files k /\ KG.entities k' = KG.entities k.

(** Between two states of the manager nothing was evicted from the
    in-process cache, and the configured bound and the binding of
    [get_project_id] are the same. *)
Record manager_kept (m m' : Manager.t) : Prop := mk_kept {
  kept_cache : dom (Manager._cache m) ⊆ dom (Manager._cache m');
  kept_max : Manager.max_cache_size m' = Manager.max_cache_size m;
  kept_binding : Manager.get_project_id m' = Manager.get_project_id m
}.

(** A call on the manager: a save or a load. *)
Inductive manager_call : Type :=
  | CallSave (w : World) (fx : Faults) (k : KG.t)
  | CallLoad (w : World) (fx : Faults) (project_root : string) (use_cache : bool).

(** The manager after one call, and after a sequence of calls. *)
Definition run_call (c : manager_call) (m : Manager.t) : Manager.t :=
  match c with
  | CallSave w fx k => (save_project w fx k m).2
  | CallLoad w fx root use_cache => (load_project w fx root use_cache m).2
  end.

Definition run_calls (cs : list manager_call) (m : Manager.t) : Manager.t :=
  fold_left (fun m c => run_call c m) cs m.

(** A computation that leaves the state as it found it, however it ends. *)
Definition state_preserving {S A} (c : M S A) : Prop :=
  forall s o s', c s = (o, s') -> s' = s.

(** ** Concrete inputs *)

(** The project of scenario A with [a.py] touched on disk after the
    analysis (same text, later modification time). *)
Definition scenarioA_world_touched : World :=
  scenario_world "/proj"
    [ mkDiskFile "/proj/a.py" a_py_text 5000; mkDiskFile "/proj/b.py" b_py_text 1000 ]
    scenarioA_parse 6000.

(** Storage under the package as it is installed: no top-level module named
    [project_mind] can be imported. *)
Definition packaged_storage : Faults :=
  fun s => match s with StepImportProjectMind => Some ModuleNotFoundError | _ => None end.

(** A deployment where neither the native nor the polling observer starts. *)
Definition broken_watchdog : Watchdog :=
  mkWatchdog (fun _ => None) (fun _ => None) (fun _ => Some OSError) (fun _ => None) "".

(** A fresh updater on the project of scenario A, over empty storage. *)
Definition idle_updater : Updater.t :=
  SmartIncrementalUpdater_init scenarioA_world "/proj" DB.empty ∅.

(** A machine without git. *)
Definition git_absent : Git := fun _ => ToolAbsent.

(** A git that answers every command with status 0 and no output. *)
Definition git_silent : Git := fun _ => Exits 0 "" 0.

(** A Python file of four lines, two of which hold nothing but white space
    outside ASCII: an ideographic space (U+3000) and a no-break space
    (U+00A0), here in UTF-8. *)
Definition ideographic_space : string :=
  String (ascii_of_nat 227) (String (ascii_of_nat 128) (String (ascii_of_nat 128) "")).

Definition no_break_space : string :=
  String (ascii_of_nat 194) (String (ascii_of_nat 160) "").

Definition wide_blank_text : string :=
  "x = 1" +:+ String newline ideographic_space
  +:+ String newline no_break_space +:+ String newline "y = 2".

Definition wide_blank_world : World :=
  scenario_world "/proj" [ mkDiskFile "/proj/u.py" wide_blank_text 1000 ]
    (fun _ => Raise SyntaxError) 2000.

(** The project of scenario A after [b.py] was rewritten on disk to
    [import os] (whose tree is a Module with one Import of [os]). *)
Definition b_py_new_text : string := "import os".

Definition scenarioA_parse' (content : string) : outcome ast :=
  if String.eqb content b_py_new_text then
    Ret (Node OtherNode [Node (Import ["os"]) [Node OtherNode []]])
  else scenarioA_parse content.

Definition scenarioA_world_b_modified : World :=
  scenario_world "/proj"
    [ mkDiskFile "/proj/a.py" a_py_text 1000; mkDiskFile "/proj/b.py" b_py_new_text 3000 ]
    scenarioA_parse' 3001.

Definition change_b_modified : FileChangeInfo :=
  mkChange "/proj/b.py" "modified" None (Some (md5 scenarioA_world_b_modified b_py_new_text)) 3001.

(** The project of scenario A after [a.py] was deleted. *)
Definition change_a_deleted : FileChangeInfo :=
  mkChange "/proj/a.py" "deleted" None None 3001.

(** What a deletion does to the graph object: the file leaves [files], its
    entities leave [entities]. *)
Definition forget_file (file_path : string) (k : KG.t) : KG.t :=
  KG.set_entities
    (filter (fun kv => CodeEntity.file_path kv.2 <> file_path) (KG.entities k))
    (KG.set_files (delete file_path (KG.files k)) k).

(** A path is gone from the graph object: no file node under it, no entity
    that belongs to it. *)
Definition file_gone (file_path : string) (k : KG.t) : Prop :=
  KG.files k !! file_path = None
  /\ forall key e, KG.entities k !! key = Some e -> CodeEntity.file_path e <> file_path.

(** Six projects, each analysed as an empty directory, saved one after the
    other into a fresh manager. *)
Definition empty_world : World :=
  scenario_world "/" [] (fun _ => Raise SyntaxError) 2000.

Definition six_roots : list string := ["/p1"; "/p2"; "/p3"; "/p4"; "/p5"; "/p6"].

Definition analyzed (w : World) (root : string) : KG.t :=
  (analyze_project w 1000 (KG_init w root)).2.

Fixpoint save_each (w : World) (fx : Faults) (graphs : list KG.t) : M Manager.t (list bool) :=
  match graphs with
  | [] => ret []
  | k :: rest =>
      let* ok := save_project w fx k in
      let* oks := save_each w fx rest in
      ret (ok :: oks)
  end.

Definition fresh_manager : Manager.t := ProjectMemoryManager_init DB.empty ∅.

(** Storage whose snapshot directory cannot be searched: [exists()] on the
    snapshot file raises. *)
Definition snapshot_dir_unreadable : Faults :=
  fun s => match s with StepSnapshotExists => Some PermissionError | _ => None end.

(** Storage whose [branch_contexts.json] cannot be written. *)
Definition branch_contexts_unwritable : Faults :=
  fun s => match s with StepWriteBranchContexts => Some PermissionError | _ => None end.

Definition feature_x_context : BranchContext.t :=
  BranchContext.mk "feature/x" "0123456789abcdef" 1500 "dev" "feature" (Some "develop") "active".

(** ** The scan, the single-file analysis and the graph queries *)

(** A path the scan takes up: a regular file with a supported suffix, none
    of whose components is an ignored directory name. *)
Definition scanned (w : World) (file_path : string) : bool :=
  negb (existsb (fun d => in_strings d (parts w file_path)) ignore_dirs)
  && (is_file w file_path && is_supported (suffix w file_path)).

(** The fields of a file node that the language-specific analysis leaves
    alone: everything but [imports] and [entities]. *)
Definition header (f : FileNode.t) :=
  (FileNode.file_path f, FileNode.language f, FileNode.size_bytes f, FileNode.line_count f,
   FileNode.last_modified f, FileNode.file_hash f, FileNode.exports f,
   FileNode.risk_score f, FileNode.change_frequency f).

(** The node [_analyze_single_file] builds before the language-specific
    analysis runs. *)
Definition bare_node (w : World) (file_path language content : string) (st : Stat) : FileNode.t :=
  FileNode.mk file_path language (st_size st)
    (len (filter (fun l => strip_nonempty l = true) (split_on newline content)))
    (st_mtime st) (md5 w content) [] [] [] 0%float 0.

(** What stays of a graph object when only entities are added to it. *)
Definition entities_grow (k k' : KG.t) : Prop :=
  KG.project_root k' = KG.project_root k
  /\ KG.graph k' = KG.graph k
  /\ KG.files k' = KG.files k
  /\ KG.context k' = KG.context k
  /\ dom (KG.entities k) ⊆ dom (KG.entities k').

(** [G.predecessors(n)]: the nodes with an edge to [n], each once, in the
    order of the finite map (networkx gives them in insertion order). *)
Definition predecessors (n : string) (g : DiGraph.t) : list string :=
  (map_to_list (filter (fun un => is_Some (un.2 !! n)) (DiGraph.adj g))).*1.

(** [get_file_dependencies(file_path)]. *)
Definition get_file_dependencies (k : KG.t) (file_path : string) : list string :=
  if DiGraph.has_node file_path (KG.graph k)
  then DiGraph.successors file_path (KG.graph k) else [].

(** [get_file_dependents(file_path)]. *)
Definition get_file_dependents (k : KG.t) (file_path : string) : list string :=
  if DiGraph.has_node file_path (KG.graph k)
  then predecessors file_path (KG.graph k) else [].

(** A graph that only grew: still well formed, with every node and edge it
    had. *)
Record graph_grew (g g' : DiGraph.t) : Prop := mk_grew {
  grew_wf : graph_wf g';
  grew_nodes : dom (DiGraph.node g) ⊆ dom (DiGraph.node g');
  grew_edges : edge_set g ⊆ edge_set g'
}.

(** An edge the dependency graph builder may add for the files of [k]: it
    leaves a file, and ends in a file or in an entity of the file it leaves. *)
Definition built_edge (k : KG.t) (u v : string) : Prop :=
  exists fn, KG.files k !! u = Some fn
    /\ (is_Some (KG.files k !! v)
        \/ exists e, e ∈ FileNode.entities fn /\ v = entity_key u (CodeEntity.name e)).

(** The edges of the graph after an edge was added for the files of [k]. *)
Definition only_built (k : KG.t) (g g' : DiGraph.t) : Prop :=
  forall u v, (u, v) ∈ edge_set g' -> (u, v) ∈ edge_set g \/ built_edge k u v.

(** ** The context statistics *)

(** A complexity distribution: a count for each of the four levels, and
    nothing else. *)
Record distribution (d : gmap string Z) (low medium high extreme : Z) : Prop := mk_dist {
  dist_dom : dom d = {["low"; "medium"; "high"; "extreme"]};
  dist_low : d !! "low" = Some low;
  dist_medium : d !! "medium" = Some medium;
  dist_high : d !! "high" = Some high;
  dist_extreme : d !! "extreme" = Some extreme
}.

(** ** Loading and validity of what is stored *)

(** The faults of a run are all exceptions of class [Exception]. *)
Definition ordinary_faults (fx : Faults) : Prop :=
  forall s e, fx s = Some e -> is_Exception e = true.

(** The disk answers for a recorded path: [exists()] returns, and [stat()]
    returns for a path that exists. *)
Definition disk_answers (w : World) (file_path : string) : Prop :=
  exists b, path_exists w file_path = Ret b
            /\ (b = true -> exists st, stat w file_path = Ret st).

(** A recorded file is not newer on disk than recorded: it is gone, or its
    modification time is at most the recorded one. *)
Definition not_newer (w : World) (file_path : string) (file_node : FileNode.t) : Prop :=
  forall st, path_exists w file_path = Ret true -> stat w file_path = Ret st ->
             st_mtime st <= FileNode.last_modified file_node.

(** ** The command lines of the git calls *)

(** The command lines the core runs. *)
Definition git_file_log (file_path : string) : list string :=
  ["git"; "log"; "-1"; "--format=%H|%ct|%an"; "--"; file_path].

Definition git_abbrev_ref : list string := ["git"; "rev-parse"; "--abbrev-ref"; "HEAD"].

Definition git_head_hash : list string := ["git"; "rev-parse"; "HEAD"].

Definition git_head_info : list string := ["git"; "log"; "-1"; "--format=%ct|%an"].

Definition git_numstat (file_path : string) : list string :=
  ["git"; "diff"; "--numstat"; "HEAD~1"; "HEAD"; "--"; file_path].

(** A git whose two [rev-parse] calls answer and whose [log] calls exit
    with status 128. *)
Definition git_log_fails : Git :=
  fun args =>
    if bool_decide (args = git_head_hash) then Exits 0 "0123456789abcdef" 0
    else if bool_decide (args = git_abbrev_ref) then Exits 0 "main" 0
    else Exits 128 "" 0.

(** The risk level [_analyze_content_changes] gives to a number of changed
    lines. *)
Definition level_of_lines (n : Z) : string :=
  if n >? 100 then "high" else if n >? 20 then "medium" else "low".

(** ** The branch manager ([MultiBranchProjectMind]) *)

Module BranchMind.
Record t : Type := mk {
  project_root : string;
  memory_manager : Manager.t;
  current_branch : string;
  branch_contexts : gmap string BranchContext.t
}.

Definition set_memory_manager (m : Manager.t) (s : t) : t :=
  mk (project_root s) m (current_branch s) (branch_contexts s).
Definition set_current_branch (b : string) (s : t) : t :=
  mk (project_root s) (memory_manager s) b (branch_contexts s).
Definition set_branch_contexts (c : gmap string BranchContext.t) (s : t) : t :=
  mk (project_root s) (memory_manager s) (current_branch s) c.
End BranchMind.

Definition lift_memory {A} (c : M Manager.t A) : M BranchMind.t A :=
  fun s =>
    match c (BranchMind.memory_manager s) with
    | (o, m') => (o, BranchMind.set_memory_manager m' s)
    end.

(** [MultiBranchProjectMind.__init__] over a given storage directory. *)
Definition MultiBranchProjectMind_init (w : World) (git : Git) (project_root : string)
    (stored : DB.t) (blobs : gmap string Blob) : outcome BranchMind.t :=
  match _get_current_branch git tt with
  | (Ret branch, _) =>
      Ret (BranchMind.mk (absolute w project_root) (ProjectMemoryManager_init stored blobs)
                         branch ∅)
  | (Raise e, _) => Raise e
  | (Hang, _) => Hang
  end.

(** [_get_branch_type]. *)
Definition _get_branch_type (branch_name : string) : string :=
  if in_strings branch_name ["main"; "master"] then "main"
  else if in_strings branch_name ["develop"; "dev"] then "develop"
  else if startswith "feature/" branch_name then "feature"
  else if startswith "hotfix/" branch_name then "hotfix"
  else if startswith "release/" branch_name then "release"
  else "other".

(** [update_branch_context(branch_name)]; [None] is the default argument. *)
Definition update_branch_context (w : World) (git : Git) (branch_name : option string)
    : M BranchMind.t BranchContext.t :=
  let* s := get in
  let branch_name := default (BranchMind.current_branch s) branch_name in
  let* (commit_hash, commit_time, author) := _get_commit_info w git in
  let branch_type := _get_branch_type branch_name in
  let parent_branch :=
    if String.eqb branch_type "feature" then Some "develop"
    else if String.eqb branch_type "hotfix" then Some "main"
    else None in
  let branch_context :=
    BranchContext.mk branch_name commit_hash commit_time author branch_type parent_branch
                     "active" in
  modify (fun s => BranchMind.set_branch_contexts
                     (<[branch_name := branch_context]> (BranchMind.branch_contexts s)) s) ;;
  ret branch_context.

(** The version string of a branch at a commit: the branch name, a hash
    sign and the first eight characters of the commit hash. *)
Definition branch_version (branch_name commit_hash : string) : string :=
  branch_name +:+ "#" +:+ str_upto 8 commit_hash.

(** [_is_project_up_to_date]. *)
Definition _is_project_up_to_date (knowledge_graph : KG.t) (branch_context : BranchContext.t)
    : bool :=
  match KG.context knowledge_graph with
  | None => false
  | Some c =>
      String.eqb (ProjectContext.version c)
        (branch_version (BranchContext.branch_name branch_context)
                        (BranchContext.commit_hash branch_context))
  end.

(** The dictionaries the branch manager answers with, by their [status]. *)
Inductive BranchResult : Type :=
  | UpToDate (branch project_id : string) (last_analysis : Z)
  | Analyzed (branch project_id : string) (files_count entities_count analysis_time : Z)
             (commit_hash branch_type : string)
  | SaveFailed (branch : string)
  | BranchMissing (branch : string)
  | CheckoutFailed (branch : string).

(** The block of [analyze_branch_project] under [if not force_update]: the
    stored graph of the branch is loaded, and [Some] is the early return for
    one that is up to date. *)
Definition stored_if_up_to_date (w : World) (fx : Faults) (root branch_name project_id : string)
    (branch_context : BranchContext.t) : M BranchMind.t (option BranchResult) :=
  let* existing_project := lift_memory (_load_branch_project w fx root branch_name) in
  match existing_project with
  | Some k =>
      if _is_project_up_to_date k branch_context then
        match KG.context k with
        | Some c => ret (Some (UpToDate branch_name project_id (ProjectContext.last_analysis c)))
        | None => raise AttributeError
        end
      else ret None
  | None => ret None
  end.

(** The graph of a fresh analysis with the branch version written into its
    context. *)
Definition with_branch_version (version : string) (k : KG.t) : KG.t :=
  match KG.context k with
  | Some c => KG.set_context (Some (ProjectContext.set_version version c)) k
  | None => k
  end.

(** [analyze_branch_project(branch_name, force_update)]. *)
Definition analyze_branch_project (w : World) (git : Git) (fx : Faults)
    (branch_name : option string) (force_update : bool) : M BranchMind.t BranchResult :=
  let* s := get in
  let root := BranchMind.project_root s in
  let branch_name := default (BranchMind.current_branch s) branch_name in
  let* branch_context := update_branch_context w git (Some branch_name) in
  let project_id := branch_project_id w root branch_name in
  let* up_to_date :=
    if force_update then ret None
    else stored_if_up_to_date w fx root branch_name project_id branch_context in
  match up_to_date with
  | Some answer => ret answer
  | None =>
      match analyze_project w 1000 (KG_init w root) with
      | (Ret _, analyzed_graph) =>
          let knowledge_graph :=
            with_branch_version
              (branch_version branch_name (BranchContext.commit_hash branch_context))
              analyzed_graph in
          let* success :=
            lift_memory (_save_branch_project w fx root branch_name knowledge_graph
                                              branch_context) in
          if success : bool then
            ret (Analyzed branch_name project_id
                   (Z.of_nat (size (KG.files knowledge_graph)))
                   (Z.of_nat (size (KG.entities knowledge_graph)))
                   (now w)
                   (BranchContext.commit_hash branch_context)
                   (BranchContext.branch_type branch_context))
          else ret (SaveFailed branch_name)
      | (Raise e, _) => raise e
      | (Hang, _) => lift_outcome Hang
      end
  end.

(** [switch_to_branch_analysis(target_branch)].  The checkout changes the
    working tree and HEAD: [w] and [git'] are the world and the git as the
    checkout leaves them, [git] is the git before it. *)
Definition switch_to_branch_analysis (w : World) (git git' : Git) (fx : Faults)
    (target_branch : string) : M BranchMind.t BranchResult :=
  try_except
    (let* result := lift_outcome
        (subprocess_run git ["git"; "show-ref"; "refs/heads/" +:+ target_branch] false None) in
     if negb (returncode result =? 0) then ret (BranchMissing target_branch)
     else
       let* _ := lift_outcome
          (subprocess_run git ["git"; "checkout"; target_branch] true None) in
       modify (BranchMind.set_current_branch target_branch) ;;
       analyze_branch_project w git' fx (Some target_branch) true)
    (one_of [CalledProcessError])
    (fun _ => ret (CheckoutFailed target_branch)).

(** The answer of [compare_branches] with status success. *)
Record BranchComparison : Type := mkComparison {
  added_files : gset string;
  removed_files : gset string;
  modified : Z;
  total_files1 : Z;
  total_files2 : Z;
  added_entities : gset string;
  removed_entities : gset string;
  total_entities1 : Z;
  total_entities2 : Z;
  complexity1 : gmap string Z;
  complexity2 : gmap string Z
}.

(** The comparison of two loaded graphs. *)
Definition compare_graphs (graph1 graph2 : KG.t) : BranchComparison :=
  let files1 := dom (KG.files graph1) in
  let files2 := dom (KG.files graph2) in
  let added_files := files2 ∖ files1 in
  let removed_files := files1 ∖ files2 in
  let common_files := files1 ∩ files2 in
  let entities1 := dom (KG.entities graph1) in
  let entities2 := dom (KG.entities graph2) in
  mkComparison added_files removed_files (Z.of_nat (size common_files))
    (Z.of_nat (size files1)) (Z.of_nat (size files2))
    (entities2 ∖ entities1) (entities1 ∖ entities2)
    (Z.of_nat (size entities1)) (Z.of_nat (size entities2))
    (default ∅ (ProjectContext.complexity_distribution <$> KG.context graph1))
    (default ∅ (ProjectContext.complexity_distribution <$> KG.context graph2)).

(** [compare_branches(branch1, branch2)]; [None] is the answer with status
    error. *)
Definition compare_branches (w : World) (fx : Faults) (branch1 branch2 : string)
    : M BranchMind.t (option BranchComparison) :=
  let* s := get in
  let root := BranchMind.project_root s in
  let* graph1 := lift_memory (_load_branch_project w fx root branch1) in
  let* graph2 := lift_memory (_load_branch_project w fx root branch2) in
  match graph1, graph2 with
  | Some k1, Some k2 => ret (Some (compare_graphs k1 k2))
  | _, _ => ret None
  end.

(** The parent the branch manager records for a branch type. *)
Definition parent_of_type (branch_type : string) : option string :=
  if String.eqb branch_type "feature" then Some "develop"
  else if String.eqb branch_type "hotfix" then Some "main"
  else None.

(** What [_save_branch_project] leaves when it returns True. *)
Definition branch_saved_manager (w : World) (root branch : string) (c : ProjectContext.t)
    (rows : list FileRow) (k : KG.t) (bc : BranchContext.t) (m : Manager.t) : Manager.t :=
  let pid := branch_project_id w root branch in
  let m1 := saved_manager w pid c rows k
              (Manager.set_get_project_id (BranchLambda root branch) m) in
  let contexts := default ∅ (Manager.branch_contexts m1) in
  Manager.set_get_project_id (Manager.get_project_id m)
    (Manager.set_branch_contexts
       (Some (<[root := <[branch := bc]> (default ∅ (contexts !! root))]> contexts)) m1).

Definition git_author_with_pipe : Git :=
  fun args =>
    if bool_decide (args = git_head_hash) then Exits 0 "0123456789abcdef" 0
    else Exits 0 "1700000000|Ada|Lovelace" 0.

(** The accounting of a comparison: what was added or removed and what is
    common add up to the totals. *)
Record accounted (c : BranchComparison) : Prop := mk_accounted {
  acc_files2 : total_files2 c = Z.of_nat (size (added_files c)) + modified c;
  acc_files1 : total_files1 c = Z.of_nat (size (removed_files c)) + modified c;
  acc_disjoint : added_files c ## removed_files c;
  acc_entities : total_entities2 c - Z.of_nat (size (added_entities c))
                 = total_entities1 c - Z.of_nat (size (removed_entities c));
  acc_entities_disjoint : added_entities c ## removed_entities c
}.

(** ** The incremental analysis ([analyze_changed_files]) *)

(** The loop of [analyze_changed_files] over the changed paths, which are
    relative to the project root. *)
Fixpoint analyze_changed_loop (w : World) (changed_files : list string) (files_analyzed : Z)
    : M KG.t Z :=
  match changed_files with
  | [] => ret files_analyzed
  | file_path :: rest =>
      let* k := get in
      let full_path := joinpath w (KG.project_root k) file_path in
      let* on_disk := lift_outcome (path_exists w full_path) in
      if on_disk && is_file w full_path then
        let* file_node := _analyze_single_file w full_path in
        match file_node with
        | Some fn =>
            modify (fun k => KG.set_files (<[FileNode.file_path fn := fn]> (KG.files k)) k) ;;
            analyze_changed_loop w rest (files_analyzed + 1)
        | None => analyze_changed_loop w rest files_analyzed
        end
      else analyze_changed_loop w rest files_analyzed
  end.

(** [analyze_changed_files(changed_files)]. *)
Definition analyze_changed_files (w : World) (changed_files : list string)
    : M KG.t (option ProjectContext.t) :=
  let* k := get in
  match KG.context k with
  | Some _ => ret tt
  | None =>
      let* context := lift_outcome (detect_context w (KG.project_root k)) in
      modify (KG.set_context (Some context))
  end ;;
  let* files_analyzed := analyze_changed_loop w changed_files 0 in
  let* dependency_count := _build_dependency_graph w in
  modify _update_context_statistics ;;
  let* k' := get in
  ret (KG.context k').

(** A node stored for a changed path: it sits under its own path, which is
    a regular file below the root named by one of the changed paths, and its
    risk score is the initial one. *)
Definition fresh_node (w : World) (root : string) (changed_files : list string)
    (p : string) (fn : FileNode.t) : Prop :=
  FileNode.file_path fn = p
  /\ FileNode.risk_score fn = 0%float
  /\ path_exists w p = Ret true /\ is_file w p = true
  /\ exists f, f ∈ changed_files /\ p = joinpath w root f.

(** The dependency graph builder writes to the graph only. *)
Definition graph_only (k k' : KG.t) : Prop := k' = KG.set_graph (KG.graph k') k.

(** What [analyze_changed_files] leaves of the graph object it found. *)
Record only_added (w : World) (changed_files : list string) (k k' : KG.t) : Prop := mk_added {
  kept_root : KG.project_root k' = KG.project_root k;
  kept_files : dom (KG.files k) ⊆ dom (KG.files k');
  kept_entities : dom (KG.entities k) ⊆ dom (KG.entities k');
  kept_graph : graph_grew (KG.graph k) (KG.graph k');
  kept_nodes : forall p fn, KG.files k' !! p = Some fn ->
                  KG.files k !! p = Some fn
                  \/ fresh_node w (KG.project_root k) changed_files p fn
}.

(** ** The incremental update of the memory manager *)

(** The loop of [update_project_incremental] over the recorded files: a file
    that is newer on disk than recorded is analysed again and its node
    replaced. *)
Fixpoint incremental_loop (w : World) (items : list (string * FileNode.t))
    (changes_detected : bool) : M KG.t bool :=
  match items with
  | [] => ret changes_detected
  | (file_path, file_node) :: rest =>
      let* on_disk := lift_outcome (path_exists w file_path) in
      if on_disk : bool then
        let* current_stat := lift_outcome (stat w file_path) in
        if st_mtime current_stat >? FileNode.last_modified file_node then
          let* updated_node := _analyze_single_file w file_path in
          match updated_node with
          | Some fn =>
              modify (fun k => KG.set_files (<[file_path := fn]> (KG.files k)) k) ;;
              incremental_loop w rest true
          | None => incremental_loop w rest changes_detected
          end
        else incremental_loop w rest changes_detected
      else incremental_loop w rest changes_detected
  end.

(** [update_project_incremental(project_root)]. *)
Definition update_project_incremental (w : World) (fx : Faults) (project_root : string)
    : M Manager.t bool :=
  let* loaded := load_project w fx project_root true in
  match loaded with
  | None =>
      match analyze_project w 1000 (KG_init w project_root) with
      | (Ret _, knowledge_graph) => save_project w fx knowledge_graph
      | (Raise e, _) => raise e
      | (Hang, _) => lift_outcome Hang
      end
  | Some knowledge_graph =>
      match incremental_loop w (map_to_list (KG.files knowledge_graph)) false knowledge_graph with
      | (Ret true, k1) =>
          match _build_dependency_graph w k1 with
          | (Ret _, k2) =>
              save_project w fx (_update_context_statistics (_calculate_risk_scores k2))
          | (Raise e, _) => raise e
          | (Hang, _) => lift_outcome Hang
          end
      | (Ret false, _) => ret true
      | (Raise e, _) => raise e
      | (Hang, _) => lift_outcome Hang
      end
  end.

(** ** The watcher filter and the impact prediction *)

(** [self.ignore_patterns] and [self.code_extensions] of the updater. *)
Definition ignore_patterns : list string :=
  [ ".git"; ".DS_Store"; "__pycache__"; "node_modules"; ".next"; ".nuxt"; "dist"; "build";
    ".vscode"; "*.log"; "*.tmp"; "*.temp"; "*.cache" ].

Definition code_extensions : list string :=
  [ ".py"; ".js"; ".ts"; ".tsx"; ".jsx"; ".vue"; ".java"; ".cpp"; ".c"; ".h"; ".hpp"; ".cs";
    ".go"; ".rs"; ".php"; ".rb"; ".swift"; ".kt"; ".scala"; ".md"; ".json"; ".yaml"; ".yml";
    ".xml"; ".css"; ".scss"; ".less"; ".html"; ".htm" ].

(** [s.endswith(suffix)]. *)
Definition endswith (sfx s : string) : bool :=
  (String.length sfx <=? String.length s)%nat
  && String.eqb (str_from (String.length s - String.length sfx) s) sfx.

(** [path.name]: the last of [path.parts].  (For a bare root pathlib gives
    the empty name; neither that nor the root ends with one of the starred
    patterns.) *)
Definition path_name (w : World) (file_path : string) : string :=
  List.last (parts w file_path) "".

(** One turn of the loop over the ignore patterns: the pattern rules the
    path out. *)
Definition pattern_matches (w : World) (file_path pattern : string) : bool :=
  if startswith "*" pattern then endswith (str_from 1 pattern) (path_name w file_path)
  else in_strings pattern (parts w file_path).

(** [_should_monitor_file]. *)
Definition _should_monitor_file (w : World) (file_path : string) : bool :=
  if existsb (pattern_matches w file_path) ignore_patterns then false
  else in_strings (lower (suffix w file_path)) code_extensions.

(** [get_entity_by_name(name)]: the entities whose name contains [name]. *)
Fixpoint contains (sub s : string) : bool :=
  String.prefix sub s
  || match s with
     | EmptyString => false
     | String _ s' => contains sub s'
     end.

Definition get_entity_by_name (k : KG.t) (name : string) : list CodeEntity.t :=
  filter (fun e => contains name (CodeEntity.name e) = true) (map_to_list (KG.entities k)).*2.

(** [_get_change_recommendations(risk_level, impact_files)]. *)
Definition _get_change_recommendations (risk_level : string) (impact_files : Z) : list string :=
  if String.eqb risk_level "extreme" then
    [ "🚨 高风险变更：影响超过20个文件"; "建议分阶段实施变更"; "必须进行全面测试";
      "考虑功能开关控制发布" ]
  else if String.eqb risk_level "high" then
    [ "⚠️  中高风险变更：影响10-20个文件"; "建议增加集成测试"; "通知相关团队成员" ]
  else if String.eqb risk_level "medium" then
    [ "📋 中等风险变更：影响5-10个文件"; "建议进行回归测试" ]
  else [ "✅ 低风险变更：影响较小" ].

(** The answer of [predict_change_impact] for a path of the graph. *)
Record ChangeImpact : Type := mkImpact {
  target_file : string;
  direct_impact : list string;
  indirect_impact : gset string;
  total_impact_files : Z;
  impact_risk_level : string;
  recommendations : list string
}.

(** [predict_change_impact(file_path)]; [None] is the answer with the
    error key, for a path that is no node of the graph. *)
Definition predict_change_impact (k : KG.t) (file_path : string) : option ChangeImpact :=
  if negb (DiGraph.has_node file_path (KG.graph k)) then None
  else
    let direct_dependents := get_file_dependents k file_path in
    let indirect_dependents : gset string :=
      fold_left (fun acc dep => acc ∪ list_to_set (get_file_dependents k dep))
                direct_dependents ∅ in
    let impact_files := len direct_dependents + Z.of_nat (size indirect_dependents) in
    let risk_level :=
      if impact_files >? 20 then "extreme"
      else if impact_files >? 10 then "high"
      else if impact_files >? 5 then "medium"
      else "low" in
    Some (mkImpact file_path direct_dependents indirect_dependents impact_files risk_level
                   (_get_change_recommendations risk_level impact_files)).

(** Every edge of the graph leaves a file of the graph object. *)
Definition edges_leave_files (k : KG.t) : Prop :=
  graph_wf (KG.graph k)
  /\ forall u v, (u, v) ∈ edge_set (KG.graph k) -> is_Some (KG.files k !! u).

(** The level [predict_change_impact] gives to a number of impacted files. *)
Definition level_of_impact (impact_files : Z) : string :=
  if impact_files >? 20 then "extreme"
  else if impact_files >? 10 then "high"
  else if impact_files >? 5 then "medium"
  else "low".

(** ** Import resolution *)

(** The path a relative import name is looked up under, before a suffix is
    put on it. *)
Definition import_path (w : World) (import_name from_file : string) : string :=
  let from_dir := parent w from_file in
  if startswith "./" import_name then joinpath w from_dir (str_from 2 import_name)
  else if startswith "../" import_name then joinpath w from_dir import_name
  else joinpath w from_dir (str_from 1 import_name).

(** An extension under which nothing was found. *)
Definition no_file_with (w : World) (path ext : string) : Prop :=
  exists candidate, with_suffix w path ext = Ret candidate
                    /\ path_exists w candidate = Ret false.

(** ** Branch contexts on disk and watchers that fail *)

(** The branch context stored for a project root and a branch name in
    [branch_contexts.json]. *)
Definition stored_branch_context (contexts : gmap string (gmap string BranchContext.t))
    (project_root branch_name : string) : option BranchContext.t :=
  contexts !! project_root ≫= (fun per_project => per_project !! branch_name).

(** No method of the watcher raises anything outside [Exception]. *)
Definition ordinary_watchdog (wd : Watchdog) : Prop :=
  forall c e,
    wd_construct wd c = Some e \/ wd_schedule wd c = Some e
    \/ wd_start wd c = Some e \/ wd_stop wd c = Some e ->
    is_Exception e = true.

(** A deployment where the native observer cannot start (the inotify limit
    is reached) but the polling one can. *)
Definition inotify_exhausted : Watchdog :=
  mkWatchdog (fun _ => None) (fun _ => None)
             (fun c => match c with Observer => Some OSError | PollingObserver => None end)
             (fun _ => None) "".

(* ===================================================================== *)
(** * Part II: properties                                                  *)
(* ===================================================================== *)

(** Closed conjunctions are settled one conjunct at a time, by evaluation. *)
Ltac conj_compute :=
  lazymatch goal with
  | |- _ /\ _ => split; [vm_compute; first [reflexivity | discriminate] | conj_compute]
  | |- _ => vm_compute; first [reflexivity | discriminate]
  end.

(** ** Risk scoring *)

Lemma file_risk_score_spec (f : FileNode.t) :
  file_risk_score f =
  spec_risk_score (FileNode.size_bytes f) (FileNode.line_count f)
                  (len (FileNode.entities f)) (len (FileNode.imports f)).
Proof.
  unfold file_risk_score, spec_risk_score, risk_factors.
  destruct (FileNode.size_bytes f >? 10000), (FileNode.line_count f >? 500),
           (len (FileNode.entities f) >? 20), (len (FileNode.imports f) >? 15);
    vm_compute; reflexivity.
Qed.

(** C7. After [_calculate_risk_scores] the risk score of every file node is
    [min(1.0, s)], [s] being the sum of +0.3 when the size exceeds 10000 bytes,
    +0.4 when the line count exceeds 500, +0.3 when the entity count exceeds 20
    and +0.2 when the import count exceeds 15, all comparisons strict (a file
    exactly at the four thresholds scores 0); a file above 10500 bytes, 520
    lines, 21 entities and 16 imports scores 1.0. *)
Theorem C7_risk_score_additive_saturating (k : KG.t) (p : string) :
  (FileNode.risk_score <$> (KG.files (_calculate_risk_scores k) !! p)
   = (fun f => spec_risk_score (FileNode.size_bytes f) (FileNode.line_count f)
                               (len (FileNode.entities f)) (len (FileNode.imports f)))
     <$> (KG.files k !! p))
  /\ spec_risk_score 10000 500 20 15 = 0%float
  /\ (forall f, KG.files k !! p = Some f ->
        FileNode.size_bytes f > 10500 -> FileNode.line_count f > 520 ->
        len (FileNode.entities f) > 21 -> len (FileNode.imports f) > 16 ->
        FileNode.risk_score <$> (KG.files (_calculate_risk_scores k) !! p)
        = Some 1.0%float).
Proof.
  assert (Hgen : FileNode.risk_score <$> (KG.files (_calculate_risk_scores k) !! p)
                 = file_risk_score <$> (KG.files k !! p)).
  { unfold _calculate_risk_scores; simpl. rewrite lookup_fmap.
    destruct (KG.files k !! p); reflexivity. }
  split; [|split].
  - rewrite Hgen. destruct (KG.files k !! p) as [f|]; simpl; [|reflexivity].
    f_equal. apply file_risk_score_spec.
  - vm_compute. reflexivity.
  - intros f Hf Hs Hl He Hi. rewrite Hgen, Hf. simpl. f_equal.
    rewrite file_risk_score_spec. unfold spec_risk_score.
    replace (FileNode.size_bytes f >? 10000) with true by (symmetry; apply Z.gtb_lt; lia).
    replace (FileNode.line_count f >? 500) with true by (symmetry; apply Z.gtb_lt; lia).
    replace (len (FileNode.entities f) >? 20) with true by (symmetry; apply Z.gtb_lt; lia).
    replace (len (FileNode.imports f) >? 15) with true by (symmetry; apply Z.gtb_lt; lia).
    vm_compute. reflexivity.
Qed.

(** ** The builder on scenario A *)

Lemma resolve_import_absolute (w : World) (import_name from_file : string) :
  startswith "." import_name = false ->
  _resolve_import w import_name from_file = Ret None.
Proof. unfold _resolve_import. intros ->. reflexivity. Qed.

(** C3, as stated, fails: on the project of scenario A the analysis yields no
    [imports] edge at all, so not the one edge from [b.py] to [a.py] with
    strength 0.8. *)
Lemma C3_scenarioA_has_no_imports_edge :
  ~ one_imports_edge (KG.graph scenarioA_run.2) "/proj/b.py" "/proj/a.py" 0.8%float.
Proof. unfold one_imports_edge. vm_compute. discriminate. Qed.

(** C3, amended. On the project that holds exactly [a.py] with
    [def foo(): pass] and [b.py] with [from a import foo], [analyze_project]
    returns normally with two file nodes, the single entity keyed
    [<path of a.py>:foo], and a single edge: the [contains] edge from [a.py]
    to that entity, strength 1.0.  The import of module [a] is not a relative
    import, [_resolve_import] answers None for it in every world, and no
    [imports] edge is created. *)
Theorem C3_scenarioA_graph :
  (exists ctx, scenarioA_run.1 = Ret ctx
               /\ ProjectContext.total_files ctx = 2)
  /\ size (KG.files scenarioA_run.2) = 2%nat
  /\ DiGraph.node (KG.graph scenarioA_run.2) !! "/proj/a.py"
     = Some (DiGraph.mkNode (Some "file") (Some "/proj/a.py"))
  /\ DiGraph.node (KG.graph scenarioA_run.2) !! "/proj/b.py"
     = Some (DiGraph.mkNode (Some "file") (Some "/proj/b.py"))
  /\ (map_to_list (KG.entities scenarioA_run.2)).*1 = ["/proj/a.py:foo"]
  /\ DiGraph.edges (KG.graph scenarioA_run.2)
     = [("/proj/a.py", "/proj/a.py:foo", contains_edge)]
  /\ edges_of_type "imports" (KG.graph scenarioA_run.2) = []
  /\ (forall w from_file, _resolve_import w "a" from_file = Ret None).
Proof.
  split; [eexists; split; vm_compute; reflexivity|].
  repeat (split; [vm_compute; reflexivity|]).
  intros w from_file. apply resolve_import_absolute. reflexivity.
Qed.

(** ** The monitoring flag *)

Lemma try_candidate_fails (wd : Watchdog) (c : ObserverClass) (u : Updater.t) :
  can_start wd c = false ->
  (exists e, try_candidate wd c u = (Ret (inr e), u))
  \/ (exists e, try_candidate wd c u = (Raise e, u)).
Proof.
  unfold can_start, try_candidate, bind, wd_step, raise, ret.
  destruct (wd_construct wd c) as [e|].
  - intros _. destruct (is_Exception e); eauto.
  - destruct (wd_schedule wd c) as [e|].
    + intros _. destruct (is_Exception e); [|eauto].
      destruct (wd_stop wd c) as [e'|]; [destruct (is_Exception e')|]; eauto.
    + destruct (wd_start wd c) as [e|]; [|discriminate].
      intros _. destruct (is_Exception e); [|eauto].
      destruct (wd_stop wd c) as [e'|]; [destruct (is_Exception e')|]; eauto.
Qed.

Lemma start_candidates_fail (wd : Watchdog) (cs : list ObserverClass) (u : Updater.t) :
  (forall c, In c cs -> can_start wd c = false) ->
  forall last,
    (exists last', start_candidates wd cs last u = (Ret (None, last'), u))
    \/ (exists e, start_candidates wd cs last u = (Raise e, u)).
Proof.
  induction cs as [|c cs IH]; intros Hall last; simpl.
  - left. eexists. reflexivity.
  - unfold bind.
    destruct (try_candidate_fails wd c u) as [[e He]|[e He]];
      [apply Hall; left; reflexivity| |]; rewrite He.
    + apply IH. intros c' Hc'. apply Hall. right. exact Hc'.
    + right. eauto.
Qed.

Lemma try_candidate_flag (wd : Watchdog) (c : ObserverClass) (u : Updater.t) o u' :
  try_candidate wd c u = (o, u') ->
  Updater.monitoring u' = Updater.monitoring u
  /\ Updater.observer u' = Updater.observer u.
Proof.
  unfold try_candidate, bind, wd_step, raise, ret, modify.
  destruct (wd_construct wd c) as [e|].
  - destruct (is_Exception e); intros [= <- <-]; auto.
  - destruct (wd_schedule wd c) as [e|].
    + destruct (is_Exception e); [|intros [= <- <-]; auto].
      destruct (wd_stop wd c) as [e'|]; [destruct (is_Exception e')|];
        intros [= <- <-]; auto.
    + destruct (wd_start wd c) as [e|].
      * destruct (is_Exception e); [|intros [= <- <-]; auto].
        destruct (wd_stop wd c) as [e'|]; [destruct (is_Exception e')|];
          intros [= <- <-]; auto.
      * intros [= <- <-]; auto.
Qed.

Lemma start_candidates_flag (wd : Watchdog) (cs : list ObserverClass) :
  forall last u o u',
    start_candidates wd cs last u = (o, u') ->
    Updater.monitoring u' = Updater.monitoring u
    /\ Updater.observer u' = Updater.observer u.
Proof.
  induction cs as [|c cs IH]; intros last u o u'; simpl.
  - intros [= <- <-]; auto.
  - unfold bind. destruct (try_candidate wd c u) as [r u1] eqn:E.
    apply try_candidate_flag in E as [Em Eo].
    destruct r as [[started|exc]| |].
    + intros [= <- <-]; auto.
    + intros H. apply IH in H as [-> ->]. auto.
    + intros [= <- <-]; auto.
    + intros [= <- <-]; auto.
Qed.

Lemma start_monitoring_consistent (wd : Watchdog) (u : Updater.t) o u' :
  flag_consistent u -> start_monitoring wd u = (o, u') -> flag_consistent u'.
Proof.
  unfold start_monitoring, flag_consistent, bind, get.
  intros Hc. destruct (Updater.monitoring u) eqn:Em.
  - intros [= <- <-]. rewrite Em. exact Hc.
  - destruct (start_candidates wd (_candidate_observers wd) None u) as [r u1] eqn:E.
    apply start_candidates_flag in E as [Em1 Eo1].
    destruct r as [[[ob|] last]| |].
    + intros [= <- <-]. simpl. eauto.
    + intros [= <- <-]. rewrite Em1, Em. discriminate.
    + intros [= <- <-]. rewrite Em1, Em. discriminate.
    + intros [= <- <-]. rewrite Em1, Em. discriminate.
Qed.

Lemma stop_monitoring_consistent (wd : Watchdog) (u : Updater.t) o u' :
  flag_consistent u -> stop_monitoring wd u = (o, u') -> flag_consistent u'.
Proof.
  unfold stop_monitoring, flag_consistent, bind, get, wd_step, raise, ret, modify.
  intros Hc. destruct (Updater.monitoring u) eqn:Em.
  - destruct (Updater.observer u) as [ob|] eqn:Eo.
    + destruct (wd_stop wd ob); intros [= <- <-]; simpl; [rewrite Eo; eauto|discriminate].
    + intros [= <- <-]. rewrite Eo, Em. exact Hc.
  - intros [= <- <-]. rewrite Em. discriminate.
Qed.

Lemma full_reanalysis_flags (w : World) (fx : Faults) (u : Updater.t) o u' :
  full_reanalysis w fx u = (o, u') ->
  Updater.monitoring u' = Updater.monitoring u
  /\ Updater.observer u' = Updater.observer u.
Proof.
  unfold full_reanalysis, bind, get, raise, lift_outcome, lift_manager.
  destruct (analyze_project w 1000 _) as [[c|e|] k]; try (intros [= <- <-]; auto).
  destruct (save_project w fx k (Updater.memory_manager u)) as [r m'].
  intros [= <- <-]. auto.
Qed.

Lemma force_update_consistent (w : World) (fx : Faults) (wd : Watchdog) (u : Updater.t) o u' :
  flag_consistent u -> force_update w fx wd u = (o, u') -> flag_consistent u'.
Proof.
  intros Hc. unfold force_update, bind at 1, get at 1. unfold bind at 1.
  assert (Hflags : forall u1 u2, flag_consistent u1 ->
            Updater.monitoring u2 = Updater.monitoring u1 ->
            Updater.observer u2 = Updater.observer u1 -> flag_consistent u2).
  { intros u1 u2 H1 Em Eo. unfold flag_consistent. rewrite Em, Eo. exact H1. }
  destruct (Updater.monitoring u) eqn:Em.
  - destruct (stop_monitoring wd u) as [r1 u1] eqn:E1.
    pose proof (stop_monitoring_consistent wd u r1 u1 Hc E1) as H1.
    destruct r1 as [[]|e|]; try (intros [= <- <-]; exact H1).
    unfold bind at 1.
    destruct (full_reanalysis w fx u1) as [r2 u2] eqn:E2.
    apply full_reanalysis_flags in E2 as [Em2 Eo2].
    pose proof (Hflags u1 u2 H1 Em2 Eo2) as H2.
    destruct r2 as [success|e|]; try (intros [= <- <-]; exact H2).
    unfold bind at 1.
    destruct (start_monitoring wd u2) as [r3 u3] eqn:E3.
    pose proof (start_monitoring_consistent wd u2 r3 u3 H2 E3) as H3.
    destruct r3 as [[]|e|]; intros [= <- <-]; exact H3.
  - unfold ret at 1. unfold bind at 1.
    destruct (full_reanalysis w fx u) as [r2 u2] eqn:E2.
    apply full_reanalysis_flags in E2 as [Em2 Eo2].
    pose proof (Hflags u u2 Hc Em2 Eo2) as H2.
    destruct r2 as [success|e|]; intros [= <- <-]; exact H2.
Qed.

(** C8. The monitoring flag is a two-state machine: [start_monitoring] while
    monitoring and [stop_monitoring] while idle return normally and change
    nothing; a [start_monitoring] from idle in which no candidate observer can
    be started raises and leaves the updater as it was, with monitoring false
    and no watcher running that was not running before; a [start_monitoring]
    that returns from idle has set the flag, a [stop_monitoring] that returns
    has cleared it, and both, as well as [force_update], keep the flag
    consistent with the held observer. *)
Theorem C8_monitoring_flag_state_machine (wd : Watchdog) (u : Updater.t) :
  (Updater.monitoring u = true -> start_monitoring wd u = (Ret tt, u))
  /\ (Updater.monitoring u = false -> stop_monitoring wd u = (Ret tt, u))
  /\ (Updater.monitoring u = false ->
      (forall c, In c (_candidate_observers wd) -> can_start wd c = false) ->
      exists e, start_monitoring wd u = (Raise e, u))
  /\ (forall o u', flag_consistent u -> start_monitoring wd u = (o, u') ->
        flag_consistent u' /\ (o = Ret tt -> Updater.monitoring u' = true)
        /\ (o <> Ret tt -> Updater.monitoring u' = Updater.monitoring u))
  /\ (forall o u', flag_consistent u -> stop_monitoring wd u = (o, u') ->
        flag_consistent u' /\ (o = Ret tt -> Updater.monitoring u' = false))
  /\ (forall w fx o u', flag_consistent u -> force_update w fx wd u = (o, u') ->
        flag_consistent u').
Proof.
  split; [|split; [|split; [|split; [|split]]]]; [..|intros w fx o u'; apply force_update_consistent];
    repeat split.
  - intros Hm. unfold start_monitoring, bind, get. rewrite Hm. reflexivity.
  - intros Hm. unfold stop_monitoring, bind, get. rewrite Hm. reflexivity.
  - intros Hm Hall. unfold start_monitoring, bind, get. rewrite Hm.
    destruct (start_candidates_fail wd _ u Hall None) as [[last ->]|[e ->]]; eauto.
  - eapply start_monitoring_consistent; eauto.
  - revert H0. unfold start_monitoring, bind, get.
    destruct (Updater.monitoring u) eqn:Em.
    + intros [= <- <-] _. exact Em.
    + destruct (start_candidates wd (_candidate_observers wd) None u) as [r u1].
      destruct r as [[[ob|] last]| |]; intros [= <- <-]; try discriminate.
      reflexivity.
  - revert H0. unfold start_monitoring, bind, get.
    destruct (Updater.monitoring u) eqn:Em.
    + intros [= <- <-] Hne. congruence.
    + destruct (start_candidates wd (_candidate_observers wd) None u) as [r u1] eqn:E.
      apply start_candidates_flag in E as [Em1 _].
      destruct r as [[[ob|] last]| |]; intros [= <- <-] Hne; try congruence.
  - eapply stop_monitoring_consistent; eauto.
  - revert H0. unfold stop_monitoring, bind, get, wd_step, raise, ret, modify.
    destruct (Updater.monitoring u) eqn:Em.
    + destruct (Updater.observer u) as [ob|] eqn:Eo.
      * destruct (wd_stop wd ob); intros [= <- <-]; [discriminate|reflexivity].
      * destruct (H Em) as [? ?]. congruence.
    + intros [= <- <-] _. exact Em.
Qed.

Lemma C8_monitoring_flag_witness :
  exists e, start_monitoring broken_watchdog idle_updater = (Raise e, idle_updater).
Proof.
  destruct (C8_monitoring_flag_state_machine broken_watchdog idle_updater)
    as (_ & _ & H & _).
  apply H; [reflexivity|].
  intros c _. destruct c; reflexivity.
Defined.

(** ** External version-control calls *)

Lemma subprocess_run_fails (git : Git) (args : list string) :
  git_fails (git args) = true ->
  subprocess_run git args true None = Raise FileNotFoundError
  \/ subprocess_run git args true None = Raise CalledProcessError.
Proof.
  unfold subprocess_run, git_fails. destruct (git args) as [|rc out secs|].
  - auto.
  - intros ->. auto.
  - discriminate.
Qed.

(** C9, as stated, fails: the calls pass no timeout, and with a git that
    never exits the current-branch query does not come back with the
    placeholder; it does not come back at all. *)
Lemma C9_no_timeout_current_branch_hangs :
  _get_current_branch git_never_exits tt = (Hang, tt)
  /\ _get_commit_info scenarioA_world git_never_exits tt = (Hang, tt)
  /\ _get_git_file_info git_never_exits "/proj/a.py" tt = (Hang, tt).
Proof. conj_compute. Qed.

(** C9, amended. The version-control calls of the core (current branch,
    commit info, per-file log) are made without a timeout.  When a git call
    of one of these queries fails, because git is absent or because the call
    exits with a non-zero status (as outside a repository), be it the first
    call of the query or the second after a first that succeeded, the
    current-branch query returns [unknown], the commit-info query returns
    [unknown] for hash and author with the current time, and the per-file log
    returns the empty result, the state being as it was: no exception leaves
    them.  When a git call of a query never exits, the query is waited on
    without end. *)
Theorem C9_git_failure_degrades_to_sentinel {S : Type} (w : World) (git : Git)
    (file_path : string) (s : S) :
  (git_fails (git git_abbrev_ref) = true ->
   _get_current_branch git s = (Ret "unknown", s))
  /\ (git_fails (git git_head_hash) = true ->
      _get_commit_info w git s = (Ret ("unknown", now w, "unknown"), s))
  /\ (forall out secs,
        git git_head_hash = Exits 0 out secs ->
        git_fails (git git_head_info) = true ->
        _get_commit_info w git s = (Ret ("unknown", now w, "unknown"), s))
  /\ (git_fails (git (git_file_log file_path)) = true ->
      _get_git_file_info git file_path s = (Ret None, s))
  /\ (git git_abbrev_ref = NeverExits -> _get_current_branch git s = (Hang, s))
  /\ (git git_head_hash = NeverExits -> _get_commit_info w git s = (Hang, s))
  /\ (forall out secs,
        git git_head_hash = Exits 0 out secs ->
        git git_head_info = NeverExits ->
        _get_commit_info w git s = (Hang, s))
  /\ (git (git_file_log file_path) = NeverExits ->
      _get_git_file_info git file_path s = (Hang, s))
  /\ (forall args check, subprocess_run git_never_exits args check None = Hang).
Proof.
  assert (Hfirst : forall out secs,
            git git_head_hash = Exits 0 out secs ->
            subprocess_run git git_head_hash true None = Ret (mkCompleted 0 out)).
  { intros out secs H. unfold subprocess_run. rewrite H. reflexivity. }
  assert (Hhang : forall args, git args = NeverExits ->
                               subprocess_run git args true None = Hang).
  { intros args H. unfold subprocess_run. rewrite H. reflexivity. }
  split; [|split; [|split; [|split; [|split; [|split; [|split; [|split]]]]]]].
  - intros H. unfold _get_current_branch, try_except, bind, lift_outcome.
    fold git_abbrev_ref.
    destruct (subprocess_run_fails git _ H) as [-> | ->]; reflexivity.
  - intros H. unfold _get_commit_info, try_except, bind, lift_outcome.
    fold git_head_hash.
    destruct (subprocess_run_fails git _ H) as [-> | ->]; reflexivity.
  - intros out secs H1 H2. unfold _get_commit_info, try_except, bind, lift_outcome.
    fold git_head_hash git_head_info. rewrite (Hfirst out secs H1).
    destruct (subprocess_run_fails git _ H2) as [-> | ->]; reflexivity.
  - intros H. unfold _get_git_file_info, try_except, bind, lift_outcome.
    fold (git_file_log file_path).
    destruct (subprocess_run_fails git _ H) as [-> | ->]; reflexivity.
  - intros H. unfold _get_current_branch, try_except, bind, lift_outcome.
    fold git_abbrev_ref. rewrite (Hhang _ H). reflexivity.
  - intros H. unfold _get_commit_info, try_except, bind, lift_outcome.
    fold git_head_hash. rewrite (Hhang _ H). reflexivity.
  - intros out secs H1 H2. unfold _get_commit_info, try_except, bind, lift_outcome.
    fold git_head_hash git_head_info. rewrite (Hfirst out secs H1), (Hhang _ H2).
    reflexivity.
  - intros H. unfold _get_git_file_info, try_except, bind, lift_outcome.
    fold (git_file_log file_path). rewrite (Hhang _ H). reflexivity.
  - intros args check. reflexivity.
Qed.

Lemma C9_git_failure_witness :
  _get_current_branch git_absent tt = (Ret "unknown", tt)
  /\ _get_commit_info scenarioA_world git_absent tt
     = (Ret ("unknown", now scenarioA_world, "unknown"), tt)
  /\ _get_commit_info scenarioA_world git_log_fails tt
     = (Ret ("unknown", now scenarioA_world, "unknown"), tt)
  /\ _get_git_file_info git_log_fails "/proj/a.py" tt = (Ret None, tt).
Proof.
  destruct (C9_git_failure_degrades_to_sentinel scenarioA_world git_absent "/proj/a.py" tt)
    as (H1 & H2 & _).
  destruct (C9_git_failure_degrades_to_sentinel scenarioA_world git_log_fails "/proj/a.py" tt)
    as (_ & _ & H3 & H4 & _).
  split; [apply H1; reflexivity|]. split; [apply H2; reflexivity|].
  split; [apply (H3 "0123456789abcdef" 0); reflexivity|apply H4; reflexivity].
Defined.

(** ** Computations that leave the state alone *)

Lemma sp_ret {S A} (a : A) : state_preserving (@ret S A a).
Proof. intros s o s' [= _ <-]. reflexivity. Qed.

Lemma sp_raise {S A} (e : exn) : state_preserving (@raise S A e).
Proof. intros s o s' [= _ <-]. reflexivity. Qed.

Lemma sp_lift {S A} (x : outcome A) : state_preserving (@lift_outcome S A x).
Proof. intros s o s' [= _ <-]. reflexivity. Qed.

Lemma sp_get {S} : state_preserving (@get S).
Proof. intros s o s' [= _ <-]. reflexivity. Qed.

Lemma sp_bind {S A B} (c : M S A) (k : A -> M S B) :
  state_preserving c -> (forall a, state_preserving (k a)) -> state_preserving (bind c k).
Proof.
  intros Hc Hk s o s'. unfold bind. destruct (c s) as [r s1] eqn:E.
  apply Hc in E as ->. destruct r; [apply Hk| |]; intros [= _ <-]; reflexivity.
Qed.

Lemma sp_try {S A} (c : M S A) catches (h : exn -> M S A) :
  state_preserving c -> (forall e, state_preserving (h e)) ->
  state_preserving (try_except c catches h).
Proof.
  intros Hc Hh s o s'. unfold try_except. destruct (c s) as [r s1] eqn:E.
  apply Hc in E as ->. destruct r as [a|e|]; try (intros [= _ <-]; reflexivity).
  destruct (catches e); [apply Hh|intros [= _ <-]; reflexivity].
Qed.

Lemma sp_call_wrong_arity {S A} (method : string) (args : list string)
    (body : list string -> M S A) :
  (forall a, assoc_get method ProjectKnowledgeGraph_methods = Some a ->
             (length args =? a)%nat = false) ->
  state_preserving (call_method method args body)
  /\ forall s a s', call_method method args body s <> (Ret a, s').
Proof.
  intros H. unfold call_method.
  destruct (assoc_get method ProjectKnowledgeGraph_methods) as [a|].
  - rewrite (H a eq_refl). split; [apply sp_raise|discriminate].
  - split; [apply sp_raise|discriminate].
Qed.

Ltac sp_step :=
  first [ apply sp_bind; [|intros ?] | apply sp_try; [|intros ?]
        | apply sp_ret | apply sp_raise | apply sp_lift | apply sp_get ].

Lemma sp_get_git_file_info {S} (git : Git) (file_path : string) :
  state_preserving (@_get_git_file_info S git file_path).
Proof.
  unfold _get_git_file_info. repeat sp_step.
  destruct (bool_decide _); repeat sp_step.
  destruct (split_on pipe _) as [|? [|? [|? [|? ?]]]]; repeat sp_step.
Qed.

Lemma sp_analyze_content_changes {S} (git : Git) (file_path a b : string) :
  state_preserving (@_analyze_content_changes S git file_path a b).
Proof.
  unfold _analyze_content_changes. destruct (bool_decide (a = b)); repeat sp_step.
  destruct (bool_decide _); repeat sp_step.
  destruct (split_on tab _) as [|? [|? ?]]; repeat sp_step.
Qed.

(** ** The incremental updater on one change *)

(** A created or modified file is never re-analysed: the call of
    [_analyze_single_file] passes two arguments to a method that takes one,
    and whatever happens before it leaves the graph object untouched. *)
Lemma single_change_not_deleted (w : World) (git : Git) (root : string)
    (ci : FileChangeInfo) (k : KG.t) o k' :
  String.eqb (change_type ci) "deleted" = false ->
  _process_single_file_change w git root ci k = (o, k') ->
  k' = k
  /\ (in_strings (change_type ci) ["created"; "modified"] = true ->
      path_exists w (change_file_path ci) = Ret true -> o <> Ret tt).
Proof.
  intros Hnd. unfold _process_single_file_change. rewrite Hnd.
  destruct (in_strings (change_type ci) ["created"; "modified"]).
  2:{ intros [= <- <-]. split; [reflexivity|discriminate]. }
  unfold bind at 1, lift_outcome at 1.
  destruct (path_exists w (change_file_path ci)) as [[|]|e|].
  2:{ intros [= <- <-]. split; [reflexivity|discriminate]. }
  2:{ intros [= <- <-]. split; [reflexivity|discriminate]. }
  2:{ intros [= <- <-]. split; [reflexivity|discriminate]. }
  unfold bind at 1.
  destruct (_get_git_file_info git (change_file_path ci) k) as [r1 k1] eqn:E1.
  apply sp_get_git_file_info in E1 as ->.
  destruct r1 as [git_info|e|].
  2:{ intros [= <- <-]. split; [reflexivity|discriminate]. }
  2:{ intros [= <- <-]. split; [reflexivity|discriminate]. }
  unfold bind at 1, get at 1. unfold bind at 1.
  destruct (_analyze_content_changes git _ _ _ k) as [r2 k2] eqn:E2.
  apply sp_analyze_content_changes in E2 as ->.
  destruct r2 as [summary|e|].
  2:{ intros [= <- <-]. split; [reflexivity|discriminate]. }
  2:{ intros [= <- <-]. split; [reflexivity|discriminate]. }
  unfold bind at 1, lift_outcome at 1.
  destruct (relative_to w (change_file_path ci) root) as [rel|e|].
  2:{ intros [= <- <-]. split; [reflexivity|discriminate]. }
  2:{ intros [= <- <-]. split; [reflexivity|discriminate]. }
  unfold bind at 1. unfold call_method. simpl.
  intros [= <- <-]. split; [reflexivity|discriminate].
Qed.

Lemma single_change_deleted (w : World) (git : Git) (root : string)
    (ci : FileChangeInfo) (k : KG.t) :
  String.eqb (change_type ci) "deleted" = true ->
  _process_single_file_change w git root ci k
  = (Ret tt, forget_file (change_file_path ci) k).
Proof.
  intros Hd. unfold _process_single_file_change. rewrite Hd. reflexivity.
Qed.

Lemma forget_file_gone (p : string) (k : KG.t) : file_gone p (forget_file p k).
Proof.
  split; simpl.
  - apply lookup_delete_eq.
  - intros key e H. apply map_lookup_filter_Some in H as [_ H]. exact H.
Qed.

Lemma forget_file_keeps_gone (p q : string) (k : KG.t) :
  file_gone p k -> file_gone p (forget_file q k).
Proof.
  intros [Hf He]. split; simpl.
  - apply lookup_delete_None. auto.
  - intros key e H. apply map_lookup_filter_Some in H as [H _]. eapply He, H.
Qed.

Lemma forget_file_graph (p : string) (k : KG.t) :
  KG.graph (forget_file p k) = KG.graph k.
Proof. reflexivity. Qed.

(** What one change of the batch does to the graph object. *)
Lemma single_change_effect (w : World) (git : Git) (root : string)
    (ci : FileChangeInfo) (k : KG.t) o k' :
  _process_single_file_change w git root ci k = (o, k') ->
  k' = k \/ (o = Ret tt /\ String.eqb (change_type ci) "deleted" = true
             /\ k' = forget_file (change_file_path ci) k).
Proof.
  destruct (String.eqb (change_type ci) "deleted") eqn:Hd.
  - rewrite single_change_deleted by exact Hd. intros [= <- <-]. right. auto.
  - intros H. left. eapply single_change_not_deleted; eauto.
Qed.

(** ** The incremental updater on a batch *)

Lemma process_changes_cons (w : World) (git : Git) (root p : string)
    (ci : FileChangeInfo) (rest : list (string * FileChangeInfo)) updated k :
  process_changes w git root ((p, ci) :: rest) updated k
  = match _process_single_file_change w git root ci k with
    | (Ret _, k1) => process_changes w git root rest (updated ++ [p]) k1
    | (Raise e, k1) =>
        if is_Exception e then process_changes w git root rest updated k1
        else (Raise e, k1)
    | (Hang, k1) => (Hang, k1)
    end.
Proof.
  simpl. unfold bind, try_except, ret.
  destruct (_process_single_file_change w git root ci k) as [[[]|e|] k1];
    try reflexivity.
  destruct (is_Exception e); reflexivity.
Qed.

Lemma process_changes_graph (w : World) (git : Git) (root : string)
    (changes : list (string * FileChangeInfo)) :
  forall updated k o k',
    process_changes w git root changes updated k = (o, k') ->
    KG.graph k' = KG.graph k.
Proof.
  induction changes as [|[p ci] rest IH]; intros updated k o k'.
  - intros [= _ <-]. reflexivity.
  - rewrite process_changes_cons.
    destruct (_process_single_file_change w git root ci k) as [r k1] eqn:E.
    assert (Hg : KG.graph k1 = KG.graph k).
    { apply single_change_effect in E as [->|(_ & _ & ->)]; reflexivity. }
    destruct r as [[]|e|]; simpl.
    + intros H. apply IH in H. congruence.
    + destruct (is_Exception e); simpl.
      * intros H. apply IH in H. congruence.
      * intros [= _ <-]. exact Hg.
    + intros [= _ <-]. exact Hg.
Qed.

Lemma process_changes_keeps_gone (w : World) (git : Git) (root p : string)
    (changes : list (string * FileChangeInfo)) :
  forall updated k o k',
    file_gone p k ->
    process_changes w git root changes updated k = (o, k') ->
    file_gone p k'.
Proof.
  induction changes as [|[q ci] rest IH]; intros updated k o k' Hgone.
  - intros [= _ <-]. exact Hgone.
  - rewrite process_changes_cons.
    destruct (_process_single_file_change w git root ci k) as [r k1] eqn:E.
    assert (Hg : file_gone p k1).
    { apply single_change_effect in E as [->|(_ & _ & ->)];
        [exact Hgone|apply forget_file_keeps_gone, Hgone]. }
    destruct r as [[]|e|]; simpl.
    + intros H. eapply IH; eauto.
    + destruct (is_Exception e); simpl.
      * intros H. eapply IH; eauto.
      * intros [= _ <-]. exact Hg.
    + intros [= _ <-]. exact Hg.
Qed.

Lemma process_changes_raises_only_non_exceptions (w : World) (git : Git) (root : string)
    (changes : list (string * FileChangeInfo)) :
  forall updated k e k',
    process_changes w git root changes updated k = (Raise e, k') ->
    is_Exception e = false.
Proof.
  induction changes as [|[q ci] rest IH]; intros updated k e k'.
  - discriminate.
  - rewrite process_changes_cons.
    destruct (_process_single_file_change w git root ci k) as [r k1].
    destruct r as [[]|e1|]; simpl.
    + apply IH.
    + destruct (is_Exception e1) eqn:He; simpl.
      * apply IH.
      * intros [= <- _]. exact He.
    + discriminate.
Qed.

(** When the loop over the batch runs to its end, a deleted path is gone. *)
Lemma process_changes_deletes (w : World) (git : Git) (root p : string)
    (ci : FileChangeInfo) (changes : list (string * FileChangeInfo)) :
  In (p, ci) changes ->
  change_file_path ci = p ->
  String.eqb (change_type ci) "deleted" = true ->
  forall updated k updated' k',
    process_changes w git root changes updated k = (Ret updated', k') ->
    file_gone p k'.
Proof.
  intros Hin Hp Hd. induction changes as [|[q cj] rest IH]; [destruct Hin|].
  intros updated k updated' k'. rewrite process_changes_cons.
  destruct Hin as [[= -> ->]|Hin].
  - rewrite single_change_deleted by exact Hd. simpl. rewrite Hp.
    apply process_changes_keeps_gone, forget_file_gone.
  - destruct (_process_single_file_change w git root cj k) as [r k1].
    destruct r as [[]|e|]; simpl.
    + apply IH, Hin.
    + destruct (is_Exception e); simpl; [apply IH, Hin|discriminate].
    + discriminate.
Qed.

Lemma sp_update_dependencies (updated : list string) :
  state_preserving (_update_dependencies updated).
Proof.
  unfold _update_dependencies. induction updated as [|p rest IH]; simpl.
  - apply sp_ret.
  - apply sp_bind; [|intros _; exact IH].
    apply sp_bind; [apply sp_get|]. intros k.
    destruct (KG.files k !! p); [|apply sp_ret].
    apply sp_call_wrong_arity. intros a. vm_compute. discriminate.
Qed.

Lemma update_dependencies_raises (updated : list string) (k : KG.t) e k' :
  _update_dependencies updated k = (Raise e, k') -> e = AttributeError.
Proof.
  unfold _update_dependencies. revert k. induction updated as [|p rest IH]; intros k; simpl.
  - discriminate.
  - unfold bind at 1, bind at 1, get. destruct (KG.files k !! p).
    + unfold call_method. simpl. intros [= <- _]. reflexivity.
    + simpl. apply IH.
Qed.

(** C10. A batch with a [deleted] change for a path never touches the
    directed graph: after the batch the graph object's [graph] is the one it
    had before, so the node of the deleted file and all its [contains] and
    [imports] edges are still there.  When the batch is worked through (it
    ends normally, or in the AttributeError of the dependency refresh that
    follows the loop), the path has no node in [files] and no entity in
    [entities] has it as [file_path]. *)
Theorem C10_deletion_leaves_graph_untouched (w : World) (git : Git) (root p : string)
    (ci : FileChangeInfo) (changes : list (string * FileChangeInfo)) (k : KG.t)
    (o : outcome unit) (k' : KG.t) :
  In (p, ci) changes ->
  change_file_path ci = p ->
  change_type ci = "deleted" ->
  apply_changes w git root changes k = (o, k') ->
  KG.graph k' = KG.graph k
  /\ ((o = Ret tt \/ o = Raise AttributeError) ->
      KG.files k' !! p = None
      /\ forall key e, KG.entities k' !! key = Some e -> CodeEntity.file_path e <> p).
Proof.
  intros Hin Hp Hd. assert (Hd' : String.eqb (change_type ci) "deleted" = true).
  { rewrite Hd. reflexivity. }
  unfold apply_changes, bind.
  destruct (process_changes w git root changes [] k) as [r k1] eqn:E.
  pose proof (process_changes_graph _ _ _ _ _ _ _ _ E) as Hg.
  destruct r as [updated|e|].
  - pose proof (process_changes_deletes _ _ _ _ _ _ Hin Hp Hd' _ _ _ _ E) as Hgone.
    destruct updated as [|u us].
    + intros [= <- <-]. split; [exact Hg|]. intros _. exact Hgone.
    + intros H. pose proof (sp_update_dependencies _ _ _ _ H) as ->.
      split; [exact Hg|]. intros _. exact Hgone.
  - intros [= <- <-]. split; [exact Hg|].
    apply process_changes_raises_only_non_exceptions in E.
    intros [?|[= ->]]; discriminate.
  - intros [= <- <-]. split; [exact Hg|]. intros [?|?]; discriminate.
Qed.

Lemma C10_deletion_witness :
  let after := (apply_changes scenarioA_world git_absent "/proj"
                  [("/proj/a.py", change_a_deleted)] scenarioA_run.2).2 in
  KG.graph after = KG.graph scenarioA_run.2
  /\ KG.files after !! "/proj/a.py" = None
  /\ forall key e, KG.entities after !! key = Some e ->
                   CodeEntity.file_path e <> "/proj/a.py".
Proof.
  intros after.
  destruct (C10_deletion_leaves_graph_untouched scenarioA_world git_absent "/proj"
              "/proj/a.py" change_a_deleted [("/proj/a.py", change_a_deleted)]
              scenarioA_run.2 (Ret tt) after) as [Hg Hgone].
  - left. reflexivity.
  - reflexivity.
  - reflexivity.
  - vm_compute. reflexivity.
  - split; [exact Hg|]. apply Hgone. left. reflexivity.
Defined.

(** C2: the code at a failing input.  In scenario A, after [b.py] is
    rewritten on disk, the batch with the [modified] change for it ends
    normally and the graph object is exactly what it was: the change itself
    ends in the TypeError of the two-argument call of [_analyze_single_file],
    which the batch loop logs; the node of [b.py] keeps the hash and the
    import list of the old content. *)
Theorem C2_modified_file_is_not_reanalyzed :
  path_exists scenarioA_world_b_modified "/proj/b.py" = Ret true
  /\ _process_single_file_change scenarioA_world_b_modified git_silent "/proj"
       change_b_modified scenarioA_run.2
     = (Raise TypeError, scenarioA_run.2)
  /\ apply_changes scenarioA_world_b_modified git_silent "/proj"
       [("/proj/b.py", change_b_modified)] scenarioA_run.2
     = (Ret tt, scenarioA_run.2)
  /\ FileNode.file_hash <$> (KG.files scenarioA_run.2 !! "/proj/b.py")
     = Some (md5 scenarioA_world_b_modified b_py_text)
  /\ FileNode.imports <$> (KG.files scenarioA_run.2 !! "/proj/b.py") = Some ["a"]
  /\ (exists fn k',
        _analyze_single_file scenarioA_world_b_modified "/proj/b.py" scenarioA_run.2
        = (Ret (Some fn), k')
        /\ FileNode.file_hash fn = md5 scenarioA_world_b_modified b_py_new_text
        /\ FileNode.imports fn = ["os"]).
Proof.
  repeat (split; [vm_compute; reflexivity|]).
  eexists. eexists. split; [vm_compute; reflexivity|]. split; reflexivity.
Qed.

(** ** The branch layer's identity override *)

(** C6: the code at two failing inputs.  (1) A branch load in which
    [load_project] raises (the snapshot directory cannot be searched) returns
    None and leaves the manager's [get_project_id] bound to the lambda of
    branch [feature/x].  (2) A branch save in which the graph is saved but
    [branch_contexts.json] cannot be written returns False and leaves the
    same lambda in place.  From then on the shared manager resolves every
    project root to the identity of that branch.  (3) Without a failure the
    original binding is back after both calls. *)
Theorem C6_identity_override_survives_an_exception :
  let w := scenarioA_world in
  let after_load :=
    _load_branch_project w snapshot_dir_unreadable "/proj" "feature/x" fresh_manager in
  let after_save :=
    _save_branch_project w branch_contexts_unwritable "/proj" "feature/x"
      scenarioA_run.2 feature_x_context fresh_manager in
  (load_project w snapshot_dir_unreadable "/proj" true
     (Manager.set_get_project_id (BranchLambda "/proj" "feature/x") fresh_manager)).1
  = Raise PermissionError
  /\ after_load.1 = Ret None
  /\ Manager.get_project_id after_load.2 = BranchLambda "/proj" "feature/x"
  /\ after_save.1 = Ret false
  /\ Manager.snapshots after_save.2 !! branch_project_id w "/proj" "feature/x"
     = Some (Pickled scenarioA_run.2)
  /\ Manager.get_project_id after_save.2 = BranchLambda "/proj" "feature/x"
  /\ get_project_id w after_load.2 "/elsewhere" = branch_project_id w "/proj" "feature/x"
  /\ get_project_id w fresh_manager "/elsewhere" <> branch_project_id w "/proj" "feature/x"
  /\ Manager.get_project_id
       (_load_branch_project w no_faults "/proj" "feature/x" fresh_manager).2 = BoundMethod
  /\ Manager.get_project_id
       (_save_branch_project w no_faults "/proj" "feature/x"
          scenarioA_run.2 feature_x_context fresh_manager).2 = BoundMethod.
Proof. cbv zeta. conj_compute. Qed.

(** ** Saving: the transaction and the snapshot *)

Lemma relational_writes_outcomes (w : World) (fx : Faults) (id : string) (k : KG.t)
    (m : Manager.t) o m' :
  relational_writes w fx id k m = (o, m') ->
  (o = Ret tt
   /\ (forall s, relational_write_step s = true -> fx s = None)
   /\ exists c rows,
        KG.context k = Some c
        /\ file_rows w id (DB.seq_files (working m)) (map_to_list (KG.files k)) = Ret rows
        /\ m' = Manager.set_txn (Some (saved_db w id c rows k (working m))) m)
  \/ (o <> Ret tt /\ exists t, m' = Manager.set_txn t m).
Proof.
  destruct m as [d t sn bc ca ts mx ttl b].
  unfold relational_writes, _save_project_context, _save_files, _save_entities,
    _save_dependencies.
  destruct (KG.context k) as [c|].
  2:{ intros [= <- <-]. right. split; [discriminate|]. eexists. reflexivity. }
  unfold bind, step, db_write, modify, get, lift_outcome.
  destruct (fx StepSaveContext) eqn:E1.
  { intros [= <- <-]. right. split; [discriminate|]. eexists. reflexivity. }
  destruct (fx StepSaveFiles) eqn:E2.
  { intros [= <- <-]. right. split; [discriminate|]. eexists. reflexivity. }
  cbn [working Manager.set_txn Manager.txn Manager.db default].
  destruct (file_rows w id _ _) as [rows|e|] eqn:E3.
  2:{ intros [= <- <-]. right. split; [discriminate|]. eexists. reflexivity. }
  2:{ intros [= <- <-]. right. split; [discriminate|]. eexists. reflexivity. }
  destruct (fx StepSaveEntities) eqn:E4.
  { intros [= <- <-]. right. split; [discriminate|]. eexists. reflexivity. }
  destruct (fx StepSaveDependencies) eqn:E5.
  { intros [= <- <-]. right. split; [discriminate|]. eexists. reflexivity. }
  intros [= <- <-]. left. split; [reflexivity|]. split.
  { intros [] Hs; try discriminate; assumption. }
  exists c, rows. split; [reflexivity|]. split; [first [exact E3|reflexivity]|]. reflexivity.
Qed.

Lemma save_transaction_outcomes (w : World) (fx : Faults) (pid : string) (k : KG.t)
    (m : Manager.t) o m' :
  save_transaction w fx pid k m = (o, m') ->
  (o = Ret true
   /\ (forall s, relational_write_step s = true -> fx s = None)
   /\ fx StepOpenSnapshot = None /\ fx StepPickleDump = None /\ fx StepCommit = None
   /\ exists c rows,
        KG.context k = Some c
        /\ file_rows w pid (DB.seq_files (working m)) (map_to_list (KG.files k)) = Ret rows
        /\ m' = saved_manager w pid c rows k (Manager.set_db (working m) m))
  \/ ((o = Hang \/ exists e, o = Raise e)
      /\ ((exists t, m' = Manager.set_txn t m)
          \/ ((forall s, relational_write_step s = true -> fx s = None)
              /\ fx StepOpenSnapshot = None
              /\ exists t, m' = Manager.set_txn t
                   (Manager.set_snapshots (<[pid := Corrupt]> (Manager.snapshots m)) m))
          \/ ((forall s, relational_write_step s = true -> fx s = None)
              /\ fx StepOpenSnapshot = None /\ fx StepPickleDump = None
              /\ exists t, m' = Manager.set_txn t
                   (Manager.set_snapshots (<[pid := Pickled k]> (Manager.snapshots m)) m)))).
Proof.
  unfold save_transaction. unfold bind at 1.
  destruct (relational_writes w fx pid k m) as [r m1] eqn:ER.
  apply relational_writes_outcomes in ER
    as [(-> & Hrel & c & rows & Hc & Hrows & ->)|(Hne & t & ->)].
  2:{ destruct r as [[]|e|]; [congruence| |]; intros [= <- <-]; right; eauto 8. }
  destruct m as [d t sn bc ca ts mx ttl b].
  unfold write_snapshot, bind, step, modify.
  destruct (fx StepOpenSnapshot) eqn:E1.
  { intros [= <- <-]. right. split; [eauto|]. left. eexists. reflexivity. }
  destruct (fx StepPickleDump) eqn:E2.
  { intros [= <- <-]. right. split; [eauto|]. right. left.
    repeat split; try assumption. eexists. reflexivity. }
  destruct (fx StepCommit) eqn:E3.
  { intros [= <- <-]. right. split; [eauto|]. right. right.
    repeat split; try assumption. eexists. cbn. rewrite insert_insert_eq. reflexivity. }
  intros [= <- <-]. left. repeat split; try assumption.
  exists c, rows. repeat split; try assumption.
  unfold saved_manager. cbn. rewrite insert_insert_eq. reflexivity.
Qed.

Lemma save_project_outcomes (w : World) (fx : Faults) (k : KG.t) (m : Manager.t) o m' :
  let pid := get_project_id w m (KG.project_root k) in
  save_project w fx k m = (o, m') ->
  (o = Ret true
   /\ (forall s, before_snapshot_step s = true -> fx s = None)
   /\ fx StepOpenSnapshot = None /\ fx StepPickleDump = None /\ fx StepCommit = None
   /\ exists c rows,
        KG.context k = Some c
        /\ file_rows w pid (DB.seq_files (Manager.db m)) (map_to_list (KG.files k)) = Ret rows
        /\ m' = saved_manager w pid c rows k m)
  \/ (failed o false
      /\ ((exists t, m' = Manager.set_txn t m)
          \/ ((forall s, before_snapshot_step s = true -> fx s = None)
              /\ fx StepOpenSnapshot = None
              /\ exists t, m' = Manager.set_txn t
                   (Manager.set_snapshots (<[pid := Corrupt]> (Manager.snapshots m)) m))
          \/ ((forall s, before_snapshot_step s = true -> fx s = None)
              /\ fx StepOpenSnapshot = None /\ fx StepPickleDump = None
              /\ exists t, m' = Manager.set_txn t
                   (Manager.set_snapshots (<[pid := Pickled k]> (Manager.snapshots m)) m)))).
Proof.
  intros pid.
  unfold save_project, with_connection.
  unfold try_except at 1. unfold bind at 1, get at 1. unfold bind at 1, step at 1.
  destruct (fx StepConnect) as [e|] eqn:EC.
  { intros H. right. split.
    - unfold failed. destruct (is_Exception e) eqn:X; injection H as <- <-; eauto.
    - left. exists (Manager.txn m).
      destruct (is_Exception e); injection H as <- <-; destruct m; reflexivity. }
  unfold bind at 1, step at 1.
  destruct (fx StepBegin) as [e|] eqn:EB.
  { intros H. right. split.
    - unfold failed. destruct (is_Exception e) eqn:X; injection H as <- <-; eauto.
    - left. exists None.
      destruct (is_Exception e); injection H as <- <-; destruct m; reflexivity. }
  unfold bind at 1, modify at 1. unfold try_except at 1.
  fold pid.
  destruct (save_transaction w fx pid k _) as [r m1] eqn:ET.
  apply save_transaction_outcomes in ET.
  assert (Hbefore : (forall s, relational_write_step s = true -> fx s = None) ->
                    forall s, before_snapshot_step s = true -> fx s = None).
  { intros Hrel [] Hs; try discriminate; try assumption; apply Hrel; reflexivity. }
  destruct ET as [(-> & Hrel & E1 & E2 & E3 & c & rows & Hc & Hrows & ->)|[Ho Hm]].
  - intros [= <- <-]. left. split; [reflexivity|]. repeat split; auto.
    exists c, rows. split; [exact Hc|]. split; [destruct m; exact Hrows|].
    destruct m; reflexivity.
  - intros H. right.
    assert (Hm' : (exists t, m1 = Manager.set_txn t m)
          \/ ((forall s, before_snapshot_step s = true -> fx s = None)
              /\ fx StepOpenSnapshot = None
              /\ exists t, m1 = Manager.set_txn t
                   (Manager.set_snapshots (<[pid := Corrupt]> (Manager.snapshots m)) m))
          \/ ((forall s, before_snapshot_step s = true -> fx s = None)
              /\ fx StepOpenSnapshot = None /\ fx StepPickleDump = None
              /\ exists t, m1 = Manager.set_txn t
                   (Manager.set_snapshots (<[pid := Pickled k]> (Manager.snapshots m)) m))).
    { destruct Hm as [[t ->]|[(Hrel & E1 & t & ->)|(Hrel & E1 & E2 & t & ->)]].
      - left. eexists. destruct m; reflexivity.
      - right. left. repeat split; auto. eexists. destruct m; reflexivity.
      - right. right. repeat split; auto. eexists. destruct m; reflexivity. }
    clear Hm.
    assert (Hshape : failed o false -> (exists t, m' = Manager.set_txn t m1) ->
              failed o false /\
              ((exists t, m' = Manager.set_txn t m) \/
               ((forall s, before_snapshot_step s = true -> fx s = None)
                /\ fx StepOpenSnapshot = None
                /\ exists t, m' = Manager.set_txn t
                     (Manager.set_snapshots (<[pid := Corrupt]> (Manager.snapshots m)) m))
               \/ ((forall s, before_snapshot_step s = true -> fx s = None)
                   /\ fx StepOpenSnapshot = None /\ fx StepPickleDump = None
                   /\ exists t, m' = Manager.set_txn t
                        (Manager.set_snapshots (<[pid := Pickled k]> (Manager.snapshots m)) m)))).
    { intros Hf [t ->]. split; [exact Hf|].
      destruct Hm' as [[t' ->]|[(Hb & E1 & t' & ->)|(Hb & E1 & E2 & t' & ->)]].
      - left. eexists. reflexivity.
      - right. left. repeat split; auto. eexists. reflexivity.
      - right. right. repeat split; auto. eexists. reflexivity. }
    apply Hshape; clear Hshape Hm'.
    + unfold failed. destruct Ho as [->|[e ->]].
      * injection H as <- <-. auto.
      * revert H. unfold bind, step, modify, ret.
        destruct (is_Exception e) eqn:X.
        -- destruct (fx StepRollback) as [e'|] eqn:ER.
           ++ destruct (is_Exception e') eqn:X'; intros [= <- <-]; eauto.
           ++ intros [= <- <-]; eauto.
        -- rewrite X. intros [= <- <-]; eauto.
    + destruct Ho as [->|[e ->]].
      * injection H as <- <-. eexists. destruct m1; reflexivity.
      * revert H. unfold bind, step, modify, ret.
        destruct (is_Exception e) eqn:X.
        -- destruct (fx StepRollback) as [e'|] eqn:ER.
           ++ destruct (is_Exception e') eqn:X'; intros [= <- <-];
                eexists; destruct m1; reflexivity.
           ++ intros [= <- <-]; eexists; destruct m1; reflexivity.
        -- rewrite X. intros [= <- <-]; eexists; destruct m1; reflexivity.
Qed.

(** C1, as stated, fails: on storage where COMMIT fails, [save_project]
    returns False and the database is as before, yet the snapshot of the
    project identity has been written by this call: the snapshot is dumped
    before COMMIT, not after it. *)
Lemma C1_snapshot_written_though_commit_failed :
  let w := scenarioA_world in
  let pid := get_project_id w fresh_manager "/proj" in
  let run := save_project w commit_fails scenarioA_run.2 fresh_manager in
  run.1 = Ret false
  /\ Manager.db run.2 = Manager.db fresh_manager
  /\ Manager.snapshots fresh_manager !! pid = None
  /\ Manager.snapshots run.2 !! pid = Some (Pickled scenarioA_run.2).
Proof. cbv zeta. conj_compute. Qed.

(** C1, amended.  [save_project] never commits the relational store in
    part, and lets no [Exception] out: unless it returns True the committed
    database and the in-process cache are what they were.  The snapshot is
    written inside the transaction, after the four relational steps and
    before COMMIT: a save that returns True has committed, holds the pickled
    graph as snapshot and has cached the graph; a save in which connecting,
    BEGIN or one of the four relational write steps fails does not succeed
    and leaves every snapshot as it was; in any case only the snapshot of the
    saved project identity can change, and only once all the steps before it
    went through. *)
Theorem C1_save_rolls_back_relational_writes (w : World) (fx : Faults) (k : KG.t)
    (m : Manager.t) :
  let pid := get_project_id w m (KG.project_root k) in
  let run := save_project w fx k m in
  (forall e, run.1 = Raise e -> is_Exception e = false)
  /\ (run.1 <> Ret true ->
      failed run.1 false
      /\ Manager.db run.2 = Manager.db m
      /\ Manager._cache run.2 = Manager._cache m
      /\ Manager._cache_timestamps run.2 = Manager._cache_timestamps m)
  /\ (run.1 = Ret true ->
      fx StepCommit = None
      /\ Manager.snapshots run.2 = <[pid := Pickled k]> (Manager.snapshots m)
      /\ Manager._cache run.2 = <[pid := k]> (Manager._cache m)
      /\ exists c rows,
           KG.context k = Some c
           /\ Manager.db run.2 = saved_db w pid c rows k (Manager.db m))
  /\ ((exists s, before_snapshot_step s = true /\ fx s <> None) ->
      failed run.1 false
      /\ Manager.db run.2 = Manager.db m
      /\ Manager.snapshots run.2 = Manager.snapshots m)
  /\ (forall other, other <> pid ->
        Manager.snapshots run.2 !! other = Manager.snapshots m !! other)
  /\ (Manager.snapshots run.2 <> Manager.snapshots m ->
      forall s, before_snapshot_step s = true -> fx s = None).
Proof.
  intros pid run.
  pose proof (save_project_outcomes w fx k m run.1 run.2) as H.
  cbv zeta in H. fold pid in H.
  specialize (H (surjective_pairing _)).
  destruct H as [(Ho & Hb & E1 & E2 & E3 & c & rows & Hc & Hrows & Hm)|[Hf Hm]].
  - split; [|split; [|split; [|split; [|split]]]].
    + intros e He. rewrite Ho in He. discriminate.
    + intros Hn. contradiction.
    + intros _. rewrite Hm. split; [exact E3|]. split; [reflexivity|].
      split; [reflexivity|]. exists c, rows. split; [exact Hc|reflexivity].
    + intros [s [Hs Hne]]. rewrite Hb in Hne by exact Hs. contradiction.
    + intros other Hother. rewrite Hm. simpl. apply lookup_insert_ne. congruence.
    + intros _. exact Hb.
  - assert (Hnot : run.1 <> Ret true).
    { destruct Hf as [Hr|[Hr|[e [Hr _]]]]; rewrite Hr; discriminate. }
    assert (Hraise : forall e, run.1 = Raise e -> is_Exception e = false).
    { intros e He. destruct Hf as [Hr|[Hr|[e' [Hr Hx]]]]; rewrite Hr in He;
        try discriminate. injection He as <-. exact Hx. }
    split; [exact Hraise|]. split; [|split; [|split; [|split]]].
    + intros _. split; [exact Hf|].
      destruct Hm as [[t Hm]|[(_ & _ & t & Hm)|(_ & _ & _ & t & Hm)]];
        rewrite Hm; repeat split; reflexivity.
    + intros Ht. contradiction.
    + intros [s [Hs Hne]]. split; [exact Hf|].
      destruct Hm as [[t Hm]|[(Hb & _)|(Hb & _)]].
      * rewrite Hm. split; reflexivity.
      * rewrite Hb in Hne by exact Hs. contradiction.
      * rewrite Hb in Hne by exact Hs. contradiction.
    + intros other Hother.
      destruct Hm as [[t Hm]|[(_ & _ & t & Hm)|(_ & _ & _ & t & Hm)]];
        rewrite Hm; simpl; [reflexivity| |]; apply lookup_insert_ne; congruence.
    + intros Hchanged.
      destruct Hm as [[t Hm]|[(Hb & _)|(Hb & _)]]; [|exact Hb|exact Hb].
      rewrite Hm in Hchanged. contradiction.
Qed.

Lemma C1_save_rolls_back_witness :
  let run := save_project scenarioA_world entities_write_fails scenarioA_run.2 fresh_manager in
  failed run.1 false
  /\ Manager.db run.2 = Manager.db fresh_manager
  /\ Manager.snapshots run.2 = Manager.snapshots fresh_manager.
Proof.
  intros run.
  destruct (C1_save_rolls_back_relational_writes scenarioA_world entities_write_fails
              scenarioA_run.2 fresh_manager) as (_ & _ & _ & H & _).
  apply H. exists StepSaveEntities. split; [reflexivity|discriminate].
Defined.

(** ** The builder keys entities by file path and name *)

Lemma keyed_or_insert (p : string) files ents (e : CodeEntity.t) :
  CodeEntity.file_path e = p ->
  keyed_or p files ents ->
  keyed_or p files (<[entity_key p (CodeEntity.name e) := e]> ents).
Proof.
  intros Hp Hk. apply map_Forall_insert_2; [|exact Hk].
  rewrite Hp. auto.
Qed.

Lemma add_imports_path (names : list string) :
  forall fn, FileNode.file_path (fold_left (fun f a => FileNode.add_import a f) names fn)
             = FileNode.file_path fn.
Proof. induction names as [|a names IH]; intros fn; simpl; [reflexivity|]. rewrite IH. reflexivity. Qed.

Lemma visit_python_node_path (w : World) (nd : ast) acc :
  FileNode.file_path (visit_python_node w nd acc).1 = FileNode.file_path acc.1.
Proof.
  destruct acc as [fn ents]. unfold visit_python_node.
  destruct (ast_kind_of nd) as [name lineno doc|name lineno doc|names|[m|]|]; simpl;
    try reflexivity.
  - apply add_imports_path.
  - destruct (bool_decide (m = "")); reflexivity.
Qed.

Lemma visit_python_node_keyed (w : World) (p : string) files (nd : ast) acc :
  FileNode.file_path acc.1 = p ->
  keyed_or p files acc.2 ->
  keyed_or p files (visit_python_node w nd acc).2.
Proof.
  destruct acc as [fn ents]. simpl. intros Hp Hk. unfold visit_python_node.
  destruct (ast_kind_of nd) as [name lineno doc|name lineno doc|names|[m|]|]; simpl;
    try exact Hk.
  - rewrite Hp. apply (keyed_or_insert _ _ _ (new_entity _ _ _ _ _ _ _)); auto.
  - rewrite Hp. apply (keyed_or_insert _ _ _ (new_entity _ _ _ _ _ _ _)); auto.
  - destruct (bool_decide (m = "")); exact Hk.
Qed.

Lemma walk_python_keyed (w : World) (p : string) files (nodes : list ast) :
  forall acc,
    FileNode.file_path acc.1 = p ->
    keyed_or p files acc.2 ->
    FileNode.file_path (fold_left (fun acc nd => visit_python_node w nd acc) nodes acc).1 = p
    /\ keyed_or p files (fold_left (fun acc nd => visit_python_node w nd acc) nodes acc).2.
Proof.
  induction nodes as [|nd nodes IH]; intros acc Hp Hk; simpl; [auto|].
  apply IH.
  - rewrite visit_python_node_path. exact Hp.
  - apply visit_python_node_keyed; assumption.
Qed.

Lemma js_entities_keyed (w : World) (p : string) files kind content (ms : list ReMatch) :
  forall acc,
    FileNode.file_path acc.1 = p ->
    keyed_or p files acc.2 ->
    FileNode.file_path (fold_left (fun a m => js_entity w kind content m a) ms acc).1 = p
    /\ keyed_or p files (fold_left (fun a m => js_entity w kind content m a) ms acc).2.
Proof.
  induction ms as [|m ms IH]; intros [fn ents] Hp Hk; simpl in *; [auto|].
  apply IH; unfold js_entity; simpl; [exact Hp|].
  rewrite Hp. apply (keyed_or_insert _ _ _ (new_entity _ _ _ _ _ _ _)); auto.
Qed.

Lemma js_patterns_keyed (w : World) (p : string) files kind content (pats : list js_pattern) :
  forall acc,
    FileNode.file_path acc.1 = p ->
    keyed_or p files acc.2 ->
    FileNode.file_path
      (fold_left (fun acc pat =>
                    fold_left (fun a m => js_entity w kind content m a)
                              (re_finditer w pat content) acc) pats acc).1 = p
    /\ keyed_or p files
         (fold_left (fun acc pat =>
                       fold_left (fun a m => js_entity w kind content m a)
                                 (re_finditer w pat content) acc) pats acc).2.
Proof.
  induction pats as [|pat pats IH]; intros acc Hp Hk; simpl; [auto|].
  destruct (js_entities_keyed w p files kind content (re_finditer w pat content) acc Hp Hk)
    as [Hp' Hk'].
  apply IH; assumption.
Qed.

Lemma js_imports_path (ms : list ReMatch) :
  forall fn, FileNode.file_path (fold_left (fun f' m => FileNode.add_import (group1 m) f') ms fn)
             = FileNode.file_path fn.
Proof. induction ms as [|m ms IH]; intros fn; simpl; [reflexivity|]. rewrite IH. reflexivity. Qed.

Lemma keeps_keyed_refl p k : keeps_keyed p k k.
Proof. split; auto. Qed.

Lemma walk_python_path (w : World) (nodes : list ast) :
  forall acc,
    FileNode.file_path (fold_left (fun acc nd => visit_python_node w nd acc) nodes acc).1
    = FileNode.file_path acc.1.
Proof.
  induction nodes as [|nd nodes IH]; intros acc; simpl; [reflexivity|].
  rewrite IH. apply visit_python_node_path.
Qed.

Lemma analyze_python_file_keyed (w : World) (fn : FileNode.t) (content : string) (k : KG.t) o k' :
  _analyze_python_file w fn content k = (o, k') ->
  keeps_keyed (FileNode.file_path fn) k k'
  /\ (forall fn', o = Ret fn' -> FileNode.file_path fn' = FileNode.file_path fn)
  /\ ((forall fn', o <> Ret fn') -> k' = k).
Proof.
  unfold _analyze_python_file, try_except, bind, lift_outcome, get, modify, ret.
  destruct (ast_parse w content) as [tree|e|].
  - pose proof (walk_python_keyed w (FileNode.file_path fn) (KG.files k) (ast_walk tree)
                  (fn, KG.entities k) eq_refl) as H.
    pose proof (walk_python_path w (ast_walk tree) (fn, KG.entities k)) as Hp.
    destruct (fold_left _ (ast_walk tree) (fn, KG.entities k)) as [fn1 ents1].
    simpl in H, Hp. intros [= <- <-]. split; [|split].
    + split; [reflexivity|]. intros Hk. apply H, Hk.
    + intros fn' [= <-]. exact Hp.
    + intros Hn. exfalso. apply (Hn fn1). reflexivity.
  - destruct (one_of [SyntaxError] e); intros [= <- <-];
      (split; [apply keeps_keyed_refl|split; [|reflexivity]]);
      [intros ? [= <-]; reflexivity|discriminate].
  - intros [= <- <-]. split; [apply keeps_keyed_refl|split; [discriminate|reflexivity]].
Qed.

Lemma analyze_js_file_keyed (w : World) (fn : FileNode.t) (content : string) (k : KG.t) o k' :
  _analyze_js_file w fn content k = (o, k') ->
  keeps_keyed (FileNode.file_path fn) k k'
  /\ (forall fn', o = Ret fn' -> FileNode.file_path fn' = FileNode.file_path fn).
Proof.
  unfold _analyze_js_file, bind, get, modify, ret.
  set (pats := [PatFunctionKeyword; PatConstParen; PatColonFunction; PatArrow]).
  intros [= <- <-].
  assert (Hdec : forall ents,
            keyed_or (FileNode.file_path fn) (KG.files k) ents \/
            ~ keyed_or (FileNode.file_path fn) (KG.files k) ents -> True) by auto.
  clear Hdec.
  assert (H : forall acc0,
            FileNode.file_path acc0.1 = FileNode.file_path fn ->
            FileNode.file_path
              (fold_left (fun a m => js_entity w "class" content m a)
                 (re_finditer w PatClass content)
                 (fold_left (fun acc pat =>
                    fold_left (fun a m => js_entity w "function" content m a)
                              (re_finditer w pat content) acc) pats acc0)).1
            = FileNode.file_path fn).
  { intros acc0 Hp0.
    assert (Hpath_ent : forall kind ms acc,
              FileNode.file_path (fold_left (fun a m => js_entity w kind content m a) ms acc).1
              = FileNode.file_path acc.1).
    { intros kind ms. induction ms as [|m ms IH]; intros acc; simpl; [reflexivity|].
      rewrite IH. destruct acc; reflexivity. }
    rewrite Hpath_ent.
    assert (Hpath_pats : forall ps acc,
              FileNode.file_path
                (fold_left (fun acc pat =>
                    fold_left (fun a m => js_entity w "function" content m a)
                              (re_finditer w pat content) acc) ps acc).1
              = FileNode.file_path acc.1).
    { intros ps. induction ps as [|pt ps IH]; intros acc; simpl; [reflexivity|].
      rewrite IH. apply Hpath_ent. }
    rewrite Hpath_pats. exact Hp0. }
  split.
  - split; [reflexivity|]. intros Hk. simpl.
    destruct (js_patterns_keyed w (FileNode.file_path fn) (KG.files k) "function" content pats
                (fn, KG.entities k) eq_refl Hk) as [Hp1 Hk1].
    apply (js_entities_keyed w (FileNode.file_path fn) (KG.files k) "class" content
             (re_finditer w PatClass content) _ Hp1 Hk1).
  - intros fn' [= <-]. rewrite !js_imports_path. exact (H (fn, KG.entities k) eq_refl).
Qed.

Lemma analyze_single_file_keyed (w : World) (p : string) (k : KG.t) o k' :
  _analyze_single_file w p k = (o, k') ->
  keeps_keyed p k k'
  /\ (forall fn, o = Ret (Some fn) -> FileNode.file_path fn = p)
  /\ ((forall fn, o <> Ret (Some fn)) -> k' = k).
Proof.
  unfold _analyze_single_file, try_except.
  match goal with |- (let (_, _) := ?c k in _) = _ -> _ => destruct (c k) as [r k1] eqn:E end.
  assert (H : keeps_keyed p k k1
              /\ (forall fn, r = Ret (Some fn) -> FileNode.file_path fn = p)
              /\ ((forall fn, r <> Ret (Some fn)) -> k1 = k)
              /\ (forall v, r = Ret v -> exists fn, v = Some fn)).
  { revert E. unfold bind, lift_outcome, ret, raise.
    destruct (read_text w p) as [content|e|];
      [|intros [= <- <-]; split; [apply keeps_keyed_refl|repeat split; discriminate]..].
    destruct (stat w p) as [st|e|];
      [|intros [= <- <-]; split; [apply keeps_keyed_refl|repeat split; discriminate]..].
    destruct (assoc_get (suffix w p) supported_extensions) as [language|];
      [|intros [= <- <-]; split; [apply keeps_keyed_refl|repeat split; discriminate]].
    set (file_node := FileNode.mk p language (st_size st) _ (st_mtime st) _ [] [] [] _ 0).
    destruct (String.eqb language "python").
    - destruct (_analyze_python_file w file_node content k) as [r2 k2] eqn:E2.
      apply analyze_python_file_keyed in E2 as (Hkk & Hp & Hun).
      destruct r2 as [fn2|e|]; intros [= <- <-]; (split; [exact Hkk|]).
      + split; [intros fn [= <-]; apply (Hp _ eq_refl)|]. split.
        * intros Hn. exfalso. apply (Hn fn2). reflexivity.
        * intros v [= <-]. eauto.
      + repeat split; try discriminate. intros _. apply Hun. discriminate.
      + repeat split; try discriminate. intros _. apply Hun. discriminate.
    - destruct (String.eqb language "javascript" || String.eqb language "typescript").
      + destruct (_analyze_js_file w file_node content k) as [r2 k2] eqn:E2.
        pose proof E2 as E2'. revert E2'. unfold _analyze_js_file, bind, get, modify, ret.
        intros [= Hr2 _].
        apply analyze_js_file_keyed in E2 as (Hkk & Hp).
        rewrite <- Hr2 in *. intros [= <- <-]. split; [exact Hkk|].
        split; [intros fn [= <-]; apply (Hp _ eq_refl)|]. split.
        * intros Hn. exfalso. eapply Hn. reflexivity.
        * intros v [= <-]. eauto.
      + intros [= <- <-]. split; [apply keeps_keyed_refl|].
        split; [intros fn [= <-]; reflexivity|]. split.
        * intros Hn. exfalso. eapply Hn. reflexivity.
        * intros v [= <-]. eauto. }
  destruct H as (Hkk & Hp & Hun & Hsome).
  destruct r as [v|e|].
  - intros [= <- <-]. split; [exact Hkk|]. split; [exact Hp|exact Hun].
  - destruct (is_Exception e); intros [= <- <-];
      (split; [exact Hkk|split; [discriminate|]]); intros _; apply Hun; discriminate.
  - intros [= <- <-]. split; [exact Hkk|split; [discriminate|]].
    intros _. apply Hun. discriminate.
Qed.

Lemma keyed_weaken (p : string) (k : KG.t) :
  entities_keyed k -> keyed_or p (KG.files k) (KG.entities k).
Proof. intros H key e Hl. destruct (H key e Hl) as [? ?]. auto. Qed.

Lemma keyed_after_insert (p : string) (fn : FileNode.t) (k : KG.t) :
  keyed_or p (KG.files k) (KG.entities k) ->
  entities_keyed (KG.set_files (<[p := fn]> (KG.files k)) k).
Proof.
  intros H key e Hl. destruct (H key e Hl) as [Hkey [Hs|Hp]]; split; try exact Hkey; simpl.
  - apply lookup_insert_is_Some'. auto.
  - rewrite Hp, lookup_insert_eq. eauto.
Qed.

Ltac tail_paths H2 :=
  let He := fresh in let Hn := fresh in let Hin := fresh in
  intros He Hn; apply H2; [exact He|]; intros Hin; apply Hn; right; exact Hin.

Lemma scan_loop_keyed (w : World) (max_files : Z) (paths : list string) :
  forall n k o k',
    entities_keyed k ->
    scan_loop w max_files paths n k = (o, k') ->
    entities_keyed k'
    /\ (KG.files k !! "" = None -> ~ In "" paths -> KG.files k' !! "" = None).
Proof.
  induction paths as [|p paths IH]; intros n k o k' Hk; cbn [scan_loop].
  - intros [= <- <-]. auto.
  - destruct (n >=? max_files); [intros [= <- <-]; auto|].
    match goal with
    | |- context [existsb ?f ignore_dirs] => destruct (existsb f ignore_dirs)
    end.
    { intros H. apply IH in H as [H1 H2]; [|exact Hk]. split; [exact H1|]. tail_paths H2. }
    destruct (is_file w p && is_supported (suffix w p)).
    2:{ intros H. apply IH in H as [H1 H2]; [|exact Hk]. split; [exact H1|]. tail_paths H2. }
    unfold bind at 1, try_except, bind at 1.
    destruct (_analyze_single_file w p k) as [r k1] eqn:E.
    apply analyze_single_file_keyed in E as ((Hf & Hkk) & Hp & Hun).
    destruct r as [[fn|]|e|].
    + unfold bind, modify, ret. intros H.
      apply IH in H as [H1 H2].
      * split; [exact H1|]. intros He Hn. apply H2.
        -- simpl. rewrite lookup_insert_ne; [rewrite Hf; exact He|].
           intros ->. apply Hn. left. reflexivity.
        -- intros Hin. apply Hn. right. exact Hin.
      * apply keyed_after_insert, Hkk, keyed_weaken, Hk.
    + rewrite (Hun ltac:(discriminate)). unfold ret. intros H.
      apply IH in H as [H1 H2]; [|exact Hk]. split; [exact H1|]. tail_paths H2.
    + rewrite (Hun ltac:(discriminate)).
      destruct (is_Exception e).
      * unfold ret. intros H. apply IH in H as [H1 H2]; [|exact Hk]. split; [exact H1|]. tail_paths H2.
      * intros [= <- <-]. auto.
    + rewrite (Hun ltac:(discriminate)). intros [= <- <-]. auto.
Qed.

Lemma add_import_edge_frame (w : World) (p i : string) s o s' :
  add_import_edge w p i s = (o, s') -> same_files_entities s.1 s'.1.
Proof.
  destruct s as [k n]. unfold add_import_edge.
  destruct (_resolve_import w i p) as [[t|]|e|]; try (intros [= <- <-]; split; reflexivity).
  destruct (negb _ && _); intros [= <- <-]; split; reflexivity.
Qed.

Lemma import_edges_frame (w : World) (p : string) (imports : list string) :
  forall s o s',
    for_each imports (add_import_edge w p) s = (o, s') -> same_files_entities s.1 s'.1.
Proof.
  induction imports as [|i imports IH]; intros s o s'; simpl.
  - intros [= <- <-]. split; reflexivity.
  - unfold bind. destruct (add_import_edge w p i s) as [r s1] eqn:E.
    apply add_import_edge_frame in E as [E1 E2].
    destruct r as [[]|e|]; [|intros [= <- <-]; split; assumption..].
    intros H. apply IH in H as [H1 H2]. split; congruence.
Qed.

Lemma build_file_frame (w : World) (entry : string * FileNode.t) s o s' :
  build_file w entry s = (o, s') -> same_files_entities s.1 s'.1.
Proof.
  destruct entry as [p fn]. destruct s as [k n]. unfold build_file, bind at 1, modify at 1.
  unfold bind at 1.
  match goal with |- (let (_, _) := for_each _ _ ?s0 in _) = _ -> _ =>
    destruct (for_each (FileNode.imports fn) (add_import_edge w p) s0) as [r s1] eqn:E
  end.
  apply import_edges_frame in E as [E1 E2]. simpl in E1, E2.
  destruct r as [[]|e|]; [|intros [= <- <-]; split; assumption..].
  unfold modify. destruct s1 as [k1 n1]. intros [= <- <-]. split; assumption.
Qed.

Lemma build_files_frame (w : World) (entries : list (string * FileNode.t)) :
  forall s o s',
    for_each entries (build_file w) s = (o, s') -> same_files_entities s.1 s'.1.
Proof.
  induction entries as [|x entries IH]; intros s o s'; simpl.
  - intros [= <- <-]. split; reflexivity.
  - unfold bind. destruct (build_file w x s) as [r s1] eqn:E.
    apply build_file_frame in E as [E1 E2].
    destruct r as [[]|e|]; [|intros [= <- <-]; split; assumption..].
    intros H. apply IH in H as [H1 H2]. split; congruence.
Qed.

Lemma build_dependency_graph_frame (w : World) (k : KG.t) o k' :
  _build_dependency_graph w k = (o, k') -> same_files_entities k k'.
Proof.
  unfold _build_dependency_graph.
  destruct (for_each _ (build_file w) (k, 0)) as [r [k1 n]] eqn:E.
  apply build_files_frame in E. simpl in E.
  destruct r; intros [= <- <-]; exact E.
Qed.

Lemma keyed_same (k k' : KG.t) :
  dom (KG.files k') = dom (KG.files k) -> KG.entities k' = KG.entities k ->
  entities_keyed k -> entities_keyed k'.
Proof.
  intros Hf He Hk key e Hl. rewrite He in Hl. destruct (Hk key e Hl) as [? Hs].
  split; [assumption|]. apply elem_of_dom. rewrite Hf. apply elem_of_dom, Hs.
Qed.

Lemma analyze_project_run_keyed (w : World) (max_files : Z) (project_root : string) o k' :
  analyze_project w max_files (KG_init w project_root) = (o, k') ->
  entities_keyed k'
  /\ (~ In "" (rglob w (absolute w project_root)) -> KG.files k' !! "" = None).
Proof.
  set (k0 := KG_init w project_root).
  assert (H0 : entities_keyed k0) by (intros key e Hl; discriminate).
  unfold analyze_project, bind at 1, get at 1. unfold bind at 1, lift_outcome.
  destruct (detect_context w (KG.project_root k0)) as [c|e|];
    [|intros [= <- <-]; auto..].
  unfold bind at 1, modify at 1. unfold bind at 1.
  set (k1 := KG.set_context (Some c) k0).
  assert (H1 : entities_keyed k1) by exact H0.
  unfold _scan_and_analyze_files, bind at 1, get at 1.
  destruct (scan_loop w max_files (rglob w (KG.project_root k1)) 0 k1) as [r k2] eqn:E.
  apply scan_loop_keyed in E as [H2 N2]; [|exact H1].
  specialize (N2 eq_refl).
  destruct r as [n|e|]; [|intros [= <- <-]; auto..].
  unfold bind at 1.
  destruct (_build_dependency_graph w k2) as [r3 k3] eqn:E3.
  apply build_dependency_graph_frame in E3 as [F3 E3].
  assert (H3 : entities_keyed k3).
  { eapply keyed_same; [rewrite F3; reflexivity|exact E3|exact H2]. }
  destruct r3 as [n3|e|];
    [|intros [= <- <-]; (split; [exact H3|intros Hn; rewrite F3; exact (N2 Hn)])..].
  unfold bind, modify, get, ret. intros [= <- <-].
  assert (Hrisk : entities_keyed (_calculate_risk_scores k3)).
  { apply (keyed_same k3); [|reflexivity|exact H3].
    unfold _calculate_risk_scores. simpl. apply dom_fmap_L. }
  split.
  - unfold _update_context_statistics.
    destruct (KG.context (_calculate_risk_scores k3)); exact Hrisk.
  - intros Hn. unfold _update_context_statistics.
    destruct (KG.context (_calculate_risk_scores k3)); simpl;
      rewrite lookup_fmap, F3, (N2 Hn); reflexivity.
Qed.

(** Every graph object that [analyze_project] leaves behind, whatever the
    world and however the run ends, keys its entities by file path and name
    and owns the file of each; its file paths are paths the walk yielded. *)
Lemma analyze_project_keyed (w : World) (max_files : Z) (project_root : string) :
  entities_keyed (analyze_project w max_files (KG_init w project_root)).2
  /\ (~ In "" (rglob w (absolute w project_root)) ->
      KG.files (analyze_project w max_files (KG_init w project_root)).2 !! "" = None).
Proof. apply (analyze_project_run_keyed w max_files project_root _ _ (surjective_pairing _)). Qed.

(** ** The directed graph *)

Lemma edges_elem (g : DiGraph.t) (u v : string) (d : DiGraph.EdgeData) :
  (u, v, d) ∈ DiGraph.edges g <-> edge_lookup g u v = Some d.
Proof.
  unfold DiGraph.edges, edge_lookup. rewrite list_elem_of_In, in_flat_map. split.
  - intros [[u' nbrs] [Hin Hx]]. apply list_elem_of_In in Hin, Hx.
    apply elem_of_map_to_list in Hin.
    apply list_elem_of_fmap in Hx as [[v' d'] [[= -> -> ->] Hx]].
    apply elem_of_map_to_list in Hx. rewrite Hin. simpl. exact Hx.
  - intros H. destruct (DiGraph.adj g !! u) as [nbrs|] eqn:E; [|discriminate].
    simpl in H. exists (u, nbrs). split.
    + apply list_elem_of_In, elem_of_map_to_list, E.
    + apply list_elem_of_In, list_elem_of_fmap. exists (v, d). split; [reflexivity|].
      apply elem_of_map_to_list, H.
Qed.

Lemma edges_NoDup (g : DiGraph.t) : NoDup (DiGraph.edges g).*1.
Proof.
  unfold DiGraph.edges.
  pose proof (NoDup_fst_map_to_list (DiGraph.adj g)) as Hnd.
  induction (map_to_list (DiGraph.adj g)) as [|[u nbrs] l IH]; simpl.
  - constructor.
  - rewrite fmap_app. apply NoDup_app. inversion Hnd as [|? ? Hu Hl]; subst.
    split; [|split].
    + rewrite <- list_fmap_compose.
      assert (Hinj : NoDup ((map_to_list nbrs).*1)) by apply NoDup_fst_map_to_list.
      revert Hinj. generalize (map_to_list nbrs). intros l0.
      induction l0 as [|[v d] l0 IH0]; simpl; [constructor|].
      intros Hnd0. inversion Hnd0 as [|? ? Hv Hl0]; subst. constructor.
      * intros Hin. apply Hv. apply list_elem_of_fmap in Hin as [[v' d'] [[= <-] Hin]].
        apply list_elem_of_fmap. exists (v, d'). split; [reflexivity|exact Hin].
      * apply IH0, Hl0.
    + intros [x y] Hx Hy.
      apply list_elem_of_fmap in Hx as [[[x1 y1] d1] [[= -> ->] Hx]].
      apply list_elem_of_fmap in Hx as [[v' d'] [[= -> -> ->] _]].
      apply list_elem_of_fmap in Hy as [[[x2 y2] d2] [[= <- <-] Hy]].
      apply list_elem_of_In, in_flat_map in Hy as [[u' nbrs'] [Hin Hy]].
      apply list_elem_of_In, list_elem_of_fmap in Hy as [[v'' d''] [[= -> -> ->] _]].
      apply Hu. apply list_elem_of_fmap. exists (u', nbrs'). split; [reflexivity|].
      apply list_elem_of_In, Hin.
    + apply IH, Hl.
Qed.

Lemma number_of_edges_size (g : DiGraph.t) :
  DiGraph.number_of_edges g = size (edge_set g).
Proof.
  unfold DiGraph.number_of_edges, edge_set.
  rewrite size_list_to_set by apply edges_NoDup. rewrite length_fmap. reflexivity.
Qed.

Lemma edge_set_elem (g : DiGraph.t) (u v : string) :
  (u, v) ∈ edge_set g <-> is_Some (edge_lookup g u v).
Proof.
  unfold edge_set. rewrite elem_of_list_to_set, list_elem_of_fmap. split.
  - intros [[[u' v'] d] [[= <- <-] H]]. apply edges_elem in H. eauto.
  - intros [d H]. exists (u, v, d). split; [reflexivity|]. apply edges_elem, H.
Qed.

Lemma touch_node_wf n g : graph_wf g -> graph_wf (DiGraph.touch_node n g).
Proof.
  intros Hwf. unfold DiGraph.touch_node.
  destruct (DiGraph.node g !! n) eqn:E; [exact Hwf|].
  intros x. simpl. destruct (decide (x = n)) as [->|Hne].
  - rewrite lookup_insert_eq. discriminate.
  - rewrite !lookup_insert_ne by congruence. apply Hwf.
Qed.

Lemma touch_node_lookup n g x y :
  graph_wf g -> edge_lookup (DiGraph.touch_node n g) x y = edge_lookup g x y.
Proof.
  intros Hwf. unfold DiGraph.touch_node, edge_lookup.
  destruct (DiGraph.node g !! n) eqn:E; [reflexivity|]. simpl.
  destruct (decide (x = n)) as [->|Hne].
  - rewrite lookup_insert_eq, (Hwf _ E). reflexivity.
  - rewrite lookup_insert_ne by congruence. reflexivity.
Qed.

Lemma add_node_wf n a g : graph_wf g -> graph_wf (DiGraph.add_node n a g).
Proof.
  intros Hwf. unfold DiGraph.add_node.
  destruct (DiGraph.node g !! n) eqn:E; intros x; simpl;
    destruct (decide (x = n)) as [->|Hne];
    rewrite ?lookup_insert_eq, ?lookup_insert_ne by congruence;
    try discriminate; apply Hwf.
Qed.

Lemma add_node_lookup n a g x y :
  graph_wf g -> edge_lookup (DiGraph.add_node n a g) x y = edge_lookup g x y.
Proof.
  intros Hwf. unfold DiGraph.add_node, edge_lookup.
  destruct (DiGraph.node g !! n) eqn:E; [reflexivity|]. simpl.
  destruct (decide (x = n)) as [->|Hne].
  - rewrite lookup_insert_eq, (Hwf _ E). reflexivity.
  - rewrite lookup_insert_ne by congruence. reflexivity.
Qed.

Lemma add_edge_wf u v a g : graph_wf g -> graph_wf (DiGraph.add_edge u v a g).
Proof.
  intros Hwf. unfold DiGraph.add_edge.
  pose proof (touch_node_wf v _ (touch_node_wf u _ Hwf)) as Hwf1.
  set (g1 := DiGraph.touch_node v (DiGraph.touch_node u g)) in *.
  intros x. simpl. intros Hx. destruct (decide (x = u)) as [->|Hne].
  - exfalso. revert Hx. unfold g1, DiGraph.touch_node.
    destruct (DiGraph.node g !! u) eqn:E1; simpl.
    + destruct (DiGraph.node g !! v) eqn:E2; simpl; [congruence|].
      destruct (decide (u = v)) as [->|?]; [congruence|].
      rewrite lookup_insert_ne by congruence. congruence.
    + destruct (decide (v = u)) as [->|?].
      * rewrite lookup_insert_eq. simpl. rewrite lookup_insert_eq. discriminate.
      * rewrite lookup_insert_ne by congruence.
        destruct (DiGraph.node g !! v) eqn:E2; simpl.
        -- rewrite lookup_insert_eq. discriminate.
        -- rewrite lookup_insert_ne by congruence. rewrite lookup_insert_eq. discriminate.
  - rewrite lookup_insert_ne by congruence. apply Hwf1, Hx.
Qed.

Lemma add_edge_lookup u v a g x y :
  graph_wf g ->
  is_Some (edge_lookup (DiGraph.add_edge u v a g) x y)
  <-> (x = u /\ y = v) \/ is_Some (edge_lookup g x y).
Proof.
  intros Hwf. unfold DiGraph.add_edge.
  pose proof (touch_node_wf u _ Hwf) as Hwf0.
  assert (Hl : forall x y, edge_lookup (DiGraph.touch_node v (DiGraph.touch_node u g)) x y
                           = edge_lookup g x y).
  { intros x' y'. rewrite touch_node_lookup by exact Hwf0. apply touch_node_lookup, Hwf. }
  set (g1 := DiGraph.touch_node v (DiGraph.touch_node u g)) in *.
  rewrite <- (Hl x y). unfold edge_lookup at 1. simpl.
  destruct (decide (x = u)) as [->|Hne].
  - rewrite lookup_insert_eq. simpl. destruct (decide (y = v)) as [->|Hne'].
    + rewrite lookup_insert_eq. split; eauto.
    + rewrite lookup_insert_ne by congruence. unfold edge_lookup.
      destruct (DiGraph.adj g1 !! u); simpl.
      * split; [auto|]. intros [[_ ?]|?]; [congruence|assumption].
      * rewrite lookup_empty. split; [auto|]. intros [[_ ?]|?]; [congruence|assumption].
  - rewrite lookup_insert_ne by congruence. unfold edge_lookup.
    split; [auto|]. intros [[? _]|?]; [congruence|assumption].
Qed.

Lemma add_edge_set u v a g :
  graph_wf g -> edge_set (DiGraph.add_edge u v a g) = {[(u, v)]} ∪ edge_set g.
Proof.
  intros Hwf. apply set_eq. intros [x y].
  rewrite elem_of_union, elem_of_singleton, !edge_set_elem, add_edge_lookup by exact Hwf.
  split; intros [H|H]; auto; [left; destruct H; congruence|left; injection H; auto].
Qed.

Lemma add_node_set n a g :
  graph_wf g -> edge_set (DiGraph.add_node n a g) = edge_set g.
Proof.
  intros Hwf. apply set_eq. intros [x y].
  rewrite !edge_set_elem, add_node_lookup by exact Hwf. reflexivity.
Qed.

Lemma empty_graph_wf : graph_wf DiGraph.empty.
Proof. intros n _. apply lookup_empty. Qed.

Lemma empty_edge_set : edge_set DiGraph.empty = ∅.
Proof. reflexivity. Qed.

Lemma fold_insert_lookup {A V} `{Countable K} (key : A -> K) (val : A -> V) (l : list A) :
  NoDup (key <$> l) ->
  forall k v,
    fold_left (fun acc r => <[key r := val r]> acc) l (∅ : gmap K V) !! k = Some v
    <-> exists r, r ∈ l /\ key r = k /\ val r = v.
Proof.
  induction l as [|x l IH] using rev_ind; intros Hnd k v.
  - simpl. rewrite lookup_empty. split; [discriminate|].
    intros [r [Hr _]]. inversion Hr.
  - rewrite fold_left_app. simpl. rewrite fmap_app in Hnd.
    apply NoDup_app in Hnd as (Hl & Hdisj & _).
    destruct (decide (key x = k)) as [<-|Hne].
    + rewrite lookup_insert_eq. split.
      * intros [= <-]. exists x. split; [apply elem_of_app; right; constructor|auto].
      * intros [r [Hr [Hk <-]]]. apply elem_of_app in Hr as [Hr|Hr].
        -- exfalso. apply (Hdisj (key x)).
           ++ rewrite <- Hk. apply list_elem_of_fmap. eauto.
           ++ simpl. constructor.
        -- apply list_elem_of_singleton in Hr as ->. reflexivity.
    + rewrite lookup_insert_ne by congruence. rewrite IH by exact Hl. split.
      * intros [r [Hr Hkv]]. exists r. split; [apply elem_of_app; left; exact Hr|exact Hkv].
      * intros [r [Hr [Hk Hv]]]. apply elem_of_app in Hr as [Hr|Hr].
        -- exists r. auto.
        -- apply list_elem_of_singleton in Hr as ->. congruence.
Qed.

Lemma file_rows_spec (w : World) (pid : string) :
  forall items s rows,
    file_rows w pid s items = Ret rows ->
    f_file_path <$> rows = items.*1
    /\ f_id <$> rows = seq (S s) (length items)
    /\ Forall (fun r => f_project_id r = pid) rows.
Proof.
  induction items as [|[p fn] items IH]; intros s rows; simpl.
  - intros [= <-]. repeat split. constructor.
  - destruct (relative_to w p _) as [rel|e|]; try discriminate.
    destruct (file_rows w pid (S s) items) as [rows'|e|] eqn:E; try discriminate.
    intros [= <-]. destruct (IH _ _ E) as (Hp & Hi & Hpid).
    split; [|split].
    + rewrite !fmap_cons, Hp. reflexivity.
    + rewrite fmap_cons, Hi. reflexivity.
    + constructor; [reflexivity|exact Hpid].
Qed.

Lemma filter_eq_neq {A} (f : A -> string) (pid : string) (l : list A) :
  filter (fun r => f r = pid) (filter (fun r => f r <> pid) l) = [].
Proof.
  induction l as [|x l IH]; [reflexivity|].
  rewrite (filter_cons (fun r => f r <> pid)).
  destruct (decide (f x <> pid)) as [Hne|Heq]; [|exact IH].
  rewrite filter_cons. destruct (decide (f x = pid)); [contradiction|exact IH].
Qed.

Lemma filter_all {A} (P : A -> Prop) `{!forall x, Decision (P x)} (l : list A) :
  Forall P l -> filter P l = l.
Proof.
  induction 1 as [|x l Hx Hl IH]; [reflexivity|].
  rewrite filter_cons. destruct (decide (P x)); [|contradiction]. rewrite IH. reflexivity.
Qed.

Lemma filter_own_rows {A} (f : A -> string) (pid : string) (old rows : list A) :
  Forall (fun r => f r = pid) rows ->
  filter (fun r => f r = pid) (filter (fun r => f r <> pid) old ++ rows) = rows.
Proof.
  intros H. rewrite filter_app, filter_eq_neq. simpl. apply filter_all, H.
Qed.

Lemma rows_correspondence (w : World) (pid : string) (s : nat)
    (files : gmap string FileNode.t) (rows : list FileRow) :
  file_rows w pid s (map_to_list files) = Ret rows ->
  id_correspondence files (path_id_map rows) (file_path_map rows).
Proof.
  intros Hrows. apply file_rows_spec in Hrows as (Hp & Hi & _).
  assert (Hndp : NoDup (f_file_path <$> rows)).
  { rewrite Hp. apply NoDup_fst_map_to_list. }
  assert (Hndi : NoDup (f_id <$> rows)).
  { rewrite Hi. apply NoDup_seq. }
  assert (Hin : forall p, p ∈ (f_file_path <$> rows) <-> is_Some (files !! p)).
  { intros p. rewrite Hp, list_elem_of_fmap. split.
    - intros [[p' fn] [-> H]]. apply elem_of_map_to_list in H. eauto.
    - intros [fn H]. exists (p, fn). split; [reflexivity|]. apply elem_of_map_to_list, H. }
  split.
  - intros p Hsome. apply Hin, list_elem_of_fmap in Hsome as [r [-> Hr]].
    assert (Hid : f_id r ∈ seq (S s) (length (map_to_list files))).
    { rewrite <- Hi. apply list_elem_of_fmap. eauto. }
    apply elem_of_seq in Hid as [Hge _].
    destruct (f_id r) as [|i] eqn:Eid; [inversion Hge|].
    exists i. split.
    + apply fold_insert_lookup; [exact Hndp|]. exists r. auto.
    + apply fold_insert_lookup; [exact Hndi|]. exists r. auto.
  - intros p Hnone. destruct (path_id_map rows !! p) as [i|] eqn:E; [|reflexivity].
    apply fold_insert_lookup in E as [r [Hr [Hk _]]]; [|exact Hndp].
    assert (Hsome : is_Some (files !! p)).
    { apply Hin. rewrite <- Hk. apply list_elem_of_fmap. eauto. }
    rewrite Hnone in Hsome. destruct Hsome as [? ?]. discriminate.
Qed.

(** Files *)
Lemma rebuild_files_dom (rows : list FileRow) :
  forall acc, dom (fold_left rebuild_file rows acc)
              = dom acc ∪ list_to_set (f_file_path <$> rows).
Proof.
  induction rows as [|r rows IH]; intros acc; simpl.
  - set_solver.
  - rewrite IH. unfold rebuild_file. rewrite dom_insert_L. set_solver.
Qed.

Lemma omap_cons_list {A B} (f : A -> option B) (x : A) (l : list A) :
  omap f (x :: l) = option_list (f x) ++ omap f l.
Proof. simpl. destruct (f x); reflexivity. Qed.

Lemma rebuild_entity_step (paths : gmap nat string) acc (r : EntityRow) :
  dom (rebuild_entity paths acc r).1 = dom acc.1
  /\ dom (rebuild_entity paths acc r).2
     = dom acc.2 ∪ list_to_set (option_list (row_key paths r)).
Proof.
  unfold rebuild_entity, row_key.
  destruct (truthy_path (paths !! e_file_id r)) as [p|]; simpl.
  - rewrite dom_alter_L, dom_insert_L. split; [reflexivity|set_solver].
  - split; [reflexivity|set_solver].
Qed.

Lemma rebuild_entities_dom (paths : gmap nat string) (erows : list EntityRow) :
  forall acc,
    dom (fold_left (rebuild_entity paths) erows acc).1 = dom acc.1
    /\ dom (fold_left (rebuild_entity paths) erows acc).2
       = dom acc.2 ∪ list_to_set (omap (row_key paths) erows).
Proof.
  induction erows as [|r erows IH]; intros acc.
  - simpl. split; set_solver.
  - rewrite omap_cons_list. cbn [fold_left].
    destruct (IH (rebuild_entity paths acc r)) as [IH1 IH2]. rewrite IH1, IH2.
    destruct (rebuild_entity_step paths acc r) as [S1 S2]. rewrite S1, S2.
    split; [reflexivity|]. rewrite list_to_set_app_L. set_solver.
Qed.

Lemma truthy_path_Some (paths : gmap nat string) (i : nat) (p : string) :
  paths !! i = Some p -> p <> "" -> truthy_path (paths !! i) = Some p.
Proof.
  intros -> Hne. unfold truthy_path. rewrite bool_decide_eq_false_2 by exact Hne. reflexivity.
Qed.

Lemma entity_rows_keys (pid : string) (files : gmap string FileNode.t)
    (ids : gmap string nat) (paths : gmap nat string) :
  id_correspondence files ids paths ->
  files !! "" = None ->
  forall items s,
    Forall (fun kv => kv.1 = entity_key (CodeEntity.file_path kv.2) (CodeEntity.name kv.2)
                      /\ is_Some (files !! CodeEntity.file_path kv.2)) items ->
    omap (row_key paths) (entity_rows pid ids s items) = items.*1
    /\ Forall (fun r => e_project_id r = pid) (entity_rows pid ids s items).
Proof.
  intros Hcorr Hempty. induction items as [|[key e] items IH]; intros s Hall.
  - simpl. split; [reflexivity|constructor].
  - inversion Hall as [|? ? [Hkey Hsome] Hrest]; subst. simpl in Hkey, Hsome.
    destruct (corr_some _ _ _ Hcorr _ Hsome) as [i [Hid Hpath]].
    cbn [entity_rows]. rewrite Hid. cbn [truthy_id].
    destruct (IH (S s) Hrest) as [IH1 IH2].
    split.
    + rewrite omap_cons_list, IH1. unfold row_key. cbn [e_file_id e_name].
      rewrite (truthy_path_Some _ _ _ Hpath).
      * rewrite fmap_cons. simpl. rewrite Hkey. reflexivity.
      * intros Heq. rewrite Heq, Hempty in Hsome. destruct Hsome; discriminate.
    + constructor; [reflexivity|exact IH2].
Qed.

Lemma rebuild_edge_step (paths : gmap nat string) (g : DiGraph.t) (r : DependencyRow) :
  graph_wf g ->
  graph_wf (rebuild_edge paths g r)
  /\ edge_set (rebuild_edge paths g r)
     = edge_set g ∪ list_to_set (option_list (row_pair paths r)).
Proof.
  intros Hwf. unfold rebuild_edge, row_pair.
  destruct (truthy_path (paths !! d_from_file_id r)) as [u|]; [|split; [exact Hwf|set_solver]].
  destruct (truthy_path (paths !! d_to_file_id r)) as [v|]; [|split; [exact Hwf|set_solver]].
  split; [apply add_edge_wf, Hwf|]. rewrite add_edge_set by exact Hwf. simpl. set_solver.
Qed.

Lemma rebuild_edges_set (paths : gmap nat string) (drows : list DependencyRow) :
  forall g, graph_wf g ->
    graph_wf (fold_left (rebuild_edge paths) drows g)
    /\ edge_set (fold_left (rebuild_edge paths) drows g)
       = edge_set g ∪ list_to_set (omap (row_pair paths) drows).
Proof.
  induction drows as [|r drows IH]; intros g Hwf.
  - simpl. split; [exact Hwf|set_solver].
  - rewrite omap_cons_list. cbn [fold_left].
    destruct (rebuild_edge_step paths g r Hwf) as [Hwf' S2].
    destruct (IH _ Hwf') as [IH1 IH2]. split; [exact IH1|].
    rewrite IH2, S2, list_to_set_app_L. set_solver.
Qed.

Lemma truthy_id_None (ids : gmap string nat) (p : string) :
  ids !! p = None -> truthy_id (ids !! p) = None.
Proof. intros ->. reflexivity. Qed.

Lemma dependency_rows_pairs (pid : string) (files : gmap string FileNode.t)
    (ids : gmap string nat) (paths : gmap nat string) :
  id_correspondence files ids paths ->
  files !! "" = None ->
  forall edges s,
    omap (row_pair paths) (dependency_rows pid ids s edges)
    = (filter (fun e => is_Some (files !! e.1.1) /\ is_Some (files !! e.1.2)) edges).*1
    /\ Forall (fun r => d_project_id r = pid) (dependency_rows pid ids s edges).
Proof.
  intros Hcorr Hempty. induction edges as [|[[u v] d] edges IH]; intros s.
  - simpl. split; [reflexivity|constructor].
  - rewrite filter_cons. cbn [dependency_rows fst snd].
    destruct (files !! u) as [fu|] eqn:Eu.
    2:{ rewrite (truthy_id_None _ _ (corr_none _ _ _ Hcorr _ Eu)).
        destruct (decide _) as [[[? ?] _]|_]; [discriminate|]. apply IH. }
    destruct (files !! v) as [fv|] eqn:Ev.
    2:{ rewrite (truthy_id_None ids v (corr_none _ _ _ Hcorr _ Ev)).
        destruct (decide _) as [[_ [? ?]]|_]; [discriminate|].
        destruct (truthy_id (ids !! u)); apply IH. }
    destruct (corr_some _ _ _ Hcorr u) as [i [Hiu Hpu]]; [rewrite Eu; eauto|].
    destruct (corr_some _ _ _ Hcorr v) as [j [Hjv Hpv]]; [rewrite Ev; eauto|].
    rewrite Hiu, Hjv. cbn [truthy_id].
    destruct (decide _) as [_|Hn]; [|exfalso; apply Hn; split; eauto].
    destruct (IH (S s)) as [IH1 IH2]. split.
    + rewrite omap_cons_list, IH1. unfold row_pair. cbn [d_from_file_id d_to_file_id].
      rewrite (truthy_path_Some _ _ _ Hpu), (truthy_path_Some _ _ _ Hpv).
      * rewrite fmap_cons. reflexivity.
      * intros ->. rewrite Hempty in Ev. discriminate.
      * intros ->. rewrite Hempty in Eu. discriminate.
    + constructor; [reflexivity|exact IH2].
Qed.

Lemma file_id_map_rows (pid : string) (d : DB.t) (rows : list FileRow) :
  filter (fun r => f_project_id r = pid) (DB.files d) = rows ->
  file_id_map pid d = path_id_map rows.
Proof. intros H. unfold file_id_map. rewrite H. reflexivity. Qed.

Lemma add_nodes_keep (attrs : DiGraph.NodeData) (ps : list string) :
  forall g, graph_wf g ->
    graph_wf (fold_left (fun g p => DiGraph.add_node p attrs g) ps g)
    /\ edge_set (fold_left (fun g p => DiGraph.add_node p attrs g) ps g) = edge_set g.
Proof.
  induction ps as [|p ps IH]; intros g Hwf; simpl; [auto|].
  destruct (IH _ (add_node_wf p attrs g Hwf)) as [H1 H2]. split; [exact H1|].
  rewrite H2. apply add_node_set, Hwf.
Qed.

Lemma rebuilt_saved (w w' : World) (pid root : string) (c ctx : ProjectContext.t)
    (k : KG.t) (d0 : DB.t) (rows : list FileRow) :
  file_rows w pid (DB.seq_files d0) (map_to_list (KG.files k)) = Ret rows ->
  entities_keyed k ->
  KG.files k !! "" = None ->
  let k' := rebuilt w' pid root ctx (saved_db w pid c rows k d0) in
  dom (KG.files k') = dom (KG.files k)
  /\ dom (KG.entities k') = dom (KG.entities k)
  /\ edge_set (KG.graph k') = list_to_set (file_edges k).*1
  /\ DiGraph.number_of_edges (KG.graph k') = length (file_edges k).
Proof.
  intros Hrows Hkeyed Hempty k'.
  pose proof (rows_correspondence _ _ _ _ _ Hrows) as Hcorr.
  pose proof (file_rows_spec _ _ _ _ _ Hrows) as (Hpaths & Hids & Hpid).
  set (d := saved_db w pid c rows k d0) in *.
  assert (Hf : filter (fun r => f_project_id r = pid) (DB.files d) = rows).
  { unfold d, saved_db. cbn. apply filter_own_rows, Hpid. }
  assert (Hidmap : forall dd, DB.files dd = DB.files d -> file_id_map pid dd = path_id_map rows).
  { intros dd Hdd. apply file_id_map_rows. rewrite Hdd. exact Hf. }
  assert (Hitems : Forall (fun kv : string * CodeEntity.t =>
             kv.1 = entity_key (CodeEntity.file_path kv.2) (CodeEntity.name kv.2)
             /\ is_Some (KG.files k !! CodeEntity.file_path kv.2))
             (map_to_list (KG.entities k))).
  { apply Forall_forall. intros [key e] Hin. apply elem_of_map_to_list in Hin.
    apply (Hkeyed key e Hin). }
  destruct (entity_rows_keys pid _ _ _ Hcorr Hempty _
              (DB.seq_entities (delete_entities pid
                 (insert_files rows (delete_files pid (replace_project w pid c d0))))) Hitems)
    as [Hekeys Hepid].
  assert (He : exists erows,
             filter (fun r => e_project_id r = pid) (DB.entities d) = erows
             /\ omap (row_key (file_path_map rows)) erows = (map_to_list (KG.entities k)).*1).
  { eexists. split; [reflexivity|].
    unfold d, saved_db. cbn [DB.entities insert_dependencies delete_dependencies
                              DB.set_dependencies insert_entities DB.set_entities].
    rewrite Hidmap by reflexivity.
    unfold delete_entities at 1. cbn [DB.entities DB.set_entities].
    rewrite filter_own_rows by exact Hepid. exact Hekeys. }
  destruct He as (erows & Herows & Hekeys').
  destruct (dependency_rows_pairs pid _ _ _ Hcorr Hempty (DiGraph.edges (KG.graph k))
              (DB.seq_dependencies (delete_dependencies pid
                 (insert_entities pid (KG.entities k)
                    (delete_entities pid
                       (insert_files rows (delete_files pid (replace_project w pid c d0))))))))
    as [Hdpairs Hdpid].
  assert (Hd : exists drows,
             filter (fun r => d_project_id r = pid) (DB.dependencies d) = drows
             /\ omap (row_pair (file_path_map rows)) drows = (file_edges k).*1).
  { eexists. split; [reflexivity|].
    unfold d, saved_db. cbn [DB.dependencies insert_dependencies DB.set_dependencies].
    rewrite Hidmap by reflexivity.
    unfold delete_dependencies at 1. cbn [DB.dependencies DB.set_dependencies].
    rewrite filter_own_rows by exact Hdpid. exact Hdpairs. }
  destruct Hd as (drows & Hdrows & Hdpairs').
  (* the rebuilt files and entities *)
  assert (Hfe : dom (KG.files (_rebuild_files_and_entities pid d
                        (KG.set_context (Some ctx) (KG_init w' root)))) = dom (KG.files k)
                /\ dom (KG.entities (_rebuild_files_and_entities pid d
                        (KG.set_context (Some ctx) (KG_init w' root)))) = dom (KG.entities k)
                /\ KG.graph (_rebuild_files_and_entities pid d
                        (KG.set_context (Some ctx) (KG_init w' root))) = DiGraph.empty).
  { unfold _rebuild_files_and_entities. rewrite Hf, Herows.
    cbn [KG.files KG.entities KG.set_context KG_init].
    destruct (fold_left (rebuild_entity (file_path_map rows)) erows
                (fold_left rebuild_file rows ∅, ∅)) as [fs es] eqn:E.
    pose proof (rebuild_entities_dom (file_path_map rows) erows
                  (fold_left rebuild_file rows ∅, ∅)) as [D1 D2].
    rewrite E in D1, D2. simpl in D1, D2. simpl.
    split; [|split; [|reflexivity]].
    - rewrite D1, rebuild_files_dom, Hpaths, dom_empty_L, union_empty_l_L.
      apply set_eq. intros p. rewrite elem_of_list_to_set, elem_of_dom, list_elem_of_fmap.
      split.
      + intros [[p' fn] [-> H]]. apply elem_of_map_to_list in H. eauto.
      + intros [fn H]. exists (p, fn). split; [reflexivity|]. apply elem_of_map_to_list, H.
    - rewrite D2, Hekeys', dom_empty_L, union_empty_l_L.
      apply set_eq. intros p. rewrite elem_of_list_to_set, elem_of_dom, list_elem_of_fmap.
      split.
      + intros [[p' fn] [-> H]]. apply elem_of_map_to_list in H. eauto.
      + intros [fn H]. exists (p, fn). split; [reflexivity|]. apply elem_of_map_to_list, H. }
  destruct Hfe as (Hfd & Hed & Hg).
  assert (Hes : edge_set (KG.graph k') = list_to_set (file_edges k).*1).
  { unfold k', rebuilt, _rebuild_dependencies. cbn [KG.graph KG.set_graph].
    rewrite Hf, Hdrows, Hg.
    match goal with
    | |- edge_set (fold_left _ _ (fold_left ?f2 ?l2 (fold_left ?f1 ?l1 _))) = _ =>
        destruct (add_nodes_keep (DiGraph.mkNode (Some "file") None) l1 _ empty_graph_wf)
          as [W1 S1];
        destruct (add_nodes_keep (DiGraph.mkNode (Some "entity") None) l2 _ W1) as [W2 S2]
    end.
    destruct (rebuild_edges_set (file_path_map rows) drows _ W2) as [_ S3].
    rewrite S3, S2, S1, empty_edge_set, Hdpairs', union_empty_l_L. reflexivity. }
  split; [exact Hfd|]. split; [exact Hed|]. split; [exact Hes|].
  rewrite number_of_edges_size, Hes, size_list_to_set, length_fmap; [reflexivity|].
  apply (sublist_NoDup _ ((DiGraph.edges (KG.graph k)).*1)); [apply edges_NoDup|].
  apply fmap_sublist, sublist_filter.
Qed.

Lemma find_project_saved (w : World) (pid : string) (c : ProjectContext.t)
    (rows : list FileRow) (k : KG.t) (d0 : DB.t) :
  exists row,
    List.find (fun r => bool_decide (p_id r = pid))
              (DB.projects (saved_db w pid c rows k d0)) = Some row.
Proof.
  destruct (List.find _ _) as [row|] eqn:E; [eauto|]. exfalso.
  cbn in E.
  match type of E with
  | List.find _ (_ ++ [?r]) = None =>
      assert (H : bool_decide (p_id r = pid) = false)
        by (apply (find_none _ _ E r), in_or_app; right; left; reflexivity)
  end.
  cbn in H. rewrite bool_decide_eq_true_2 in H by reflexivity. discriminate H.
Qed.

Lemma load_from_database_found (w' : World) (fx' : Faults) (pid root : string)
    (m : Manager.t) (row : ProjectRow) :
  fx' StepConnect = None -> fx' StepSelect = None -> fx' StepImportProjectMind = None ->
  List.find (fun r => bool_decide (p_id r = pid)) (DB.projects (Manager.db m)) = Some row ->
  exists ctx m',
    _load_from_database w' fx' pid root m
    = (Ret (Some (rebuilt w' pid root ctx (Manager.db m))), m').
Proof.
  intros EC ES EI Hrow.
  unfold _load_from_database, with_connection, try_except, bind, step, get.
  rewrite EC, ES. unfold working. cbn [Manager.set_txn Manager.txn Manager.db default].
  rewrite Hrow. unfold _rebuild_project_context, bind, step, ret. rewrite EI.
  cbn. eexists. eexists. reflexivity.
Qed.

Lemma cache_lookup_saved (w w' : World) (pid : string) (c : ProjectContext.t)
    (rows : list FileRow) (k : KG.t) (m : Manager.t) :
  cache_lookup w' (saved_manager w pid c rows k m) pid
  = if now w' - now w <? Manager.cache_ttl m then Some k else None.
Proof.
  unfold cache_lookup, saved_manager. cbn. rewrite !lookup_insert_eq. reflexivity.
Qed.

Lemma load_snapshot_saved (w w' : World) (pid : string) (c : ProjectContext.t)
    (rows : list FileRow) (k : KG.t) (m : Manager.t) :
  let m1 := saved_manager w pid c rows k m in
  (_is_cache_valid w' k = Ret true ->
   exists m2, load_snapshot w' pid m1 = (Ret (Some k), m2))
  /\ (snapshot_stale w' k -> load_snapshot w' pid m1 = (Ret None, m1)).
Proof.
  intros m1. unfold load_snapshot, bind, get.
  assert (Hs : Manager.snapshots m1 !! pid = Some (Pickled k)).
  { unfold m1, saved_manager. cbn. apply lookup_insert_eq. }
  rewrite Hs. unfold try_except, bind, ret, lift_outcome. split.
  - intros ->. cbn. eexists. reflexivity.
  - intros [->|[e [-> He]]]; cbn; [reflexivity|]. rewrite He. reflexivity.
Qed.

(** The graph of scenario A has one edge (the [contains] edge of [foo]).
    Saved, and loaded again once [a.py] is newer on disk than recorded and
    with the in-process cache bypassed: where a top-level module
    [project_mind] can be imported, it comes back from the relational store
    with no edge at all; under the package as installed the same load returns
    None. *)
Lemma reload_from_rows_loses_contains_edges :
  let saved := save_project scenarioA_world no_faults scenarioA_run.2 fresh_manager in
  saved.1 = Ret true
  /\ DiGraph.number_of_edges (KG.graph scenarioA_run.2) = 1%nat
  /\ (load_project scenarioA_world_touched no_faults "/proj" false saved.2).1
     = Ret (Some (rebuilt scenarioA_world_touched
                    (get_project_id scenarioA_world fresh_manager "/proj") "/proj"
                    (ProjectContext.mk "/proj" "proj" "unknown" "python" "unknown" "unknown"
                       "unknown" "0.0.0" 6000 2 2
                       (complexity_levels (map_to_list (KG.files scenarioA_run.2)).*2))
                    (Manager.db saved.2)))
  /\ DiGraph.number_of_edges
       (KG.graph (rebuilt scenarioA_world_touched
                    (get_project_id scenarioA_world fresh_manager "/proj") "/proj"
                    (ProjectContext.mk "/proj" "proj" "unknown" "python" "unknown" "unknown"
                       "unknown" "0.0.0" 6000 2 2
                       (complexity_levels (map_to_list (KG.files scenarioA_run.2)).*2))
                    (Manager.db saved.2))) = 0%nat
  /\ (load_project scenarioA_world_touched packaged_storage "/proj" false saved.2).1
     = Ret None.
Proof. cbv zeta. conj_compute. Qed.

(** The round trip, store by store.  After a successful [save_project],
    [load_project] on the same project identity returns the saved graph
    itself when it is served by the in-process cache (within the time to
    live) or by the snapshot (no recorded file newer on disk).  When it falls
    through both, the rows hold the file-path set of the saved graph, its
    entity-key set (for a graph whose entities are keyed as the analysis keys
    them) and its edges between two file nodes; they come back only where the
    import inside [_rebuild_project_context] goes through, which it does not
    in the package as installed (see the theorem after this one). *)
Lemma round_trip_by_store (w w' : World) (fx fx' : Faults) (k : KG.t) (m : Manager.t)
    (root : string) (use_cache : bool) :
  let pid := get_project_id w m (KG.project_root k) in
  let saved := save_project w fx k m in
  let loaded := load_project w' fx' root use_cache saved.2 in
  saved.1 = Ret true ->
  get_project_id w' saved.2 root = pid ->
  (use_cache = true -> now w' - now w < Manager.cache_ttl m ->
   loaded.1 = Ret (Some k))
  /\ ((use_cache = false \/ Manager.cache_ttl m <= now w' - now w) ->
      fx' StepSnapshotExists = None ->
      _is_cache_valid w' k = Ret true ->
      loaded.1 = Ret (Some k))
  /\ ((use_cache = false \/ Manager.cache_ttl m <= now w' - now w) ->
      fx' StepSnapshotExists = None ->
      snapshot_stale w' k ->
      fx' StepConnect = None -> fx' StepSelect = None ->
      fx' StepImportProjectMind = None ->
      entities_keyed k -> KG.files k !! "" = None ->
      exists k',
        loaded.1 = Ret (Some k')
        /\ dom (KG.files k') = dom (KG.files k)
        /\ dom (KG.entities k') = dom (KG.entities k)
        /\ (forall u v,
              is_Some (edge_lookup (KG.graph k') u v)
              <-> is_Some (edge_lookup (KG.graph k) u v)
                  /\ is_Some (KG.files k !! u) /\ is_Some (KG.files k !! v))
        /\ DiGraph.number_of_edges (KG.graph k') = length (file_edges k)).
Proof.
  intros pid saved loaded Hsaved Hid.
  pose proof (save_project_outcomes w fx k m saved.1 saved.2) as H.
  cbv zeta in H. fold pid in H. specialize (H (surjective_pairing _)).
  destruct H as [(_ & _ & _ & _ & _ & c & rows & Hc & Hrows & Hm)|[Hf _]].
  2:{ rewrite Hsaved in Hf. destruct Hf as [?|[?|[e [? _]]]]; discriminate. }
  subst loaded. revert Hid. rewrite Hm. intros Hid.
  assert (Hbypass : use_cache = false \/ Manager.cache_ttl m <= now w' - now w ->
            (if use_cache then cache_lookup w' (saved_manager w pid c rows k m) pid else None)
            = None).
  { intros [->|Hle]; [reflexivity|]. destruct use_cache; [|reflexivity].
    rewrite cache_lookup_saved.
    destruct (Z.ltb_spec (now w' - now w) (Manager.cache_ttl m)); [lia|reflexivity]. }
  destruct (load_snapshot_saved w w' pid c rows k m) as [Hvalid Hstale].
  cbv zeta in Hvalid, Hstale.
  split; [|split].
  - intros -> Hlt. unfold load_project, bind, get. rewrite Hid, cache_lookup_saved.
    destruct (Z.ltb_spec (now w' - now w) (Manager.cache_ttl m)); [reflexivity|lia].
  - intros Hb ES Hv. unfold load_project, bind at 1, get. rewrite Hid, (Hbypass Hb).
    unfold bind, step. rewrite ES. destruct (Hvalid Hv) as [m2 ->]. reflexivity.
  - intros Hb ES Hst EC ESel EI Hkeyed Hempty.
    destruct (find_project_saved w pid c rows k (Manager.db m)) as [row Hrow].
    destruct (load_from_database_found w' fx' pid root (saved_manager w pid c rows k m) row
                EC ESel EI Hrow) as (ctx & m2 & Hload).
    exists (rebuilt w' pid root ctx (saved_db w pid c rows k (Manager.db m))).
    destruct (rebuilt_saved w w' pid root c ctx k (Manager.db m) rows Hrows Hkeyed Hempty)
      as (Hfd & Hed & Hes & Hn).
    split.
    { unfold load_project, bind at 1, get. rewrite Hid, (Hbypass Hb).
      unfold bind, step. rewrite ES, (Hstale Hst). rewrite Hload. reflexivity. }
    split; [exact Hfd|]. split; [exact Hed|]. split; [|exact Hn].
    intros u v. rewrite <- !edge_set_elem, Hes, elem_of_list_to_set, list_elem_of_fmap.
    unfold file_edges. split.
    + intros [[[u' v'] d] [[= <- <-] Hin]]. apply list_elem_of_filter in Hin as [[Hu Hv] Hin].
      split; [|split; assumption]. apply edge_set_elem.
      apply edges_elem in Hin. eauto.
    + intros [He [Hu Hv]]. apply edge_set_elem in He as [d He]. apply edges_elem in He.
      exists (u, v, d). split; [reflexivity|]. apply list_elem_of_filter. split; [split|]; assumption.
Qed.

(** Whenever the import inside [_rebuild_project_context] raises,
    [_load_from_database] returns no graph, whatever the rows hold. *)
Lemma load_from_database_import_fails (w : World) (fx : Faults) (pid root : string)
    (m : Manager.t) (e : exn) :
  fx StepImportProjectMind = Some e ->
  (forall k, (_load_from_database w fx pid root m).1 <> Ret (Some k))
  /\ (ordinary_faults fx -> (_load_from_database w fx pid root m).1 = Ret None).
Proof.
  intros Hi. unfold _load_from_database, with_connection, try_except, bind, step, get.
  destruct (fx StepConnect) as [e1|] eqn:E1.
  { split; [destruct (is_Exception e1); discriminate|].
    intros Hord. rewrite (Hord _ _ E1). reflexivity. }
  destruct (fx StepSelect) as [e2|] eqn:E2.
  { split; [destruct (is_Exception e2); discriminate|].
    intros Hord. rewrite (Hord _ _ E2). reflexivity. }
  change (working (Manager.set_txn None m)) with (Manager.db m).
  destruct (List.find _ _) as [row|]; [|split; [discriminate|reflexivity]].
  unfold _rebuild_project_context, bind, step, ret. rewrite Hi.
  split; [destruct (is_Exception e); discriminate|].
  intros Hord. rewrite (Hord _ _ Hi). reflexivity.
Qed.

(** C4 fails on the code.  [_rebuild_project_context] begins with
    [from project_mind import ProjectContext], the import of a top-level
    module, although the class is already imported from the package at the
    head of the file; the package has no top-level module of that name, so
    the import raises and the handler of [_load_from_database] turns it into
    None.  After a save that returned True, with the project row in the
    database, a load that passes the in-process cache and finds the snapshot
    stale returns no graph: the round trip through the relational store does
    not give back the file paths, entity keys or edges of the saved graph, it
    gives back nothing. *)
Theorem C4_database_reload_returns_no_graph (w w' : World) (fx fx' : Faults) (k : KG.t)
    (m : Manager.t) (root : string) (use_cache : bool) (e : exn) :
  let pid := get_project_id w m (KG.project_root k) in
  let saved := save_project w fx k m in
  let loaded := load_project w' fx' root use_cache saved.2 in
  saved.1 = Ret true ->
  get_project_id w' saved.2 root = pid ->
  (use_cache = false \/ Manager.cache_ttl m <= now w' - now w) ->
  fx' StepSnapshotExists = None ->
  snapshot_stale w' k ->
  fx' StepImportProjectMind = Some e ->
  (exists row, row ∈ DB.projects (Manager.db saved.2) /\ p_id row = pid)
  /\ (forall k', loaded.1 <> Ret (Some k'))
  /\ (ordinary_faults fx' -> loaded.1 = Ret None).
Proof.
  intros pid saved loaded Hsaved Hid Hb ES Hst Hi.
  pose proof (save_project_outcomes w fx k m saved.1 saved.2) as H.
  cbv zeta in H. fold pid in H. specialize (H (surjective_pairing _)).
  destruct H as [(_ & _ & _ & _ & _ & c & rows & Hc & Hrows & Hm)|[Hf _]].
  2:{ rewrite Hsaved in Hf. destruct Hf as [?|[?|[e' [? _]]]]; discriminate. }
  subst loaded. revert Hid. rewrite Hm. intros Hid.
  assert (Hbypass : (if use_cache then cache_lookup w' (saved_manager w pid c rows k m) pid
                     else None) = None).
  { destruct Hb as [->|Hle]; [reflexivity|]. destruct use_cache; [|reflexivity].
    rewrite cache_lookup_saved.
    destruct (Z.ltb_spec (now w' - now w) (Manager.cache_ttl m)); [lia|reflexivity]. }
  destruct (load_snapshot_saved w w' pid c rows k m) as [_ Hstale]. cbv zeta in Hstale.
  assert (Hl : load_project w' fx' root use_cache (saved_manager w pid c rows k m)
               = _load_from_database w' fx' pid root (saved_manager w pid c rows k m)).
  { unfold load_project, bind at 1, get. rewrite Hid, Hbypass.
    unfold bind, step. rewrite ES, (Hstale Hst). reflexivity. }
  rewrite Hl. split.
  - destruct (find_project_saved w pid c rows k (Manager.db m)) as [row Hrow].
    apply find_some in Hrow as [Hin Hrow]. apply bool_decide_eq_true in Hrow.
    exists row. split; [apply list_elem_of_In, Hin|exact Hrow].
  - apply (load_from_database_import_fails w' fx' pid root _ e Hi).
Qed.

Lemma packaged_save_succeeds :
  (save_project scenarioA_world packaged_storage scenarioA_run.2 fresh_manager).1 = Ret true.
Proof. vm_compute. reflexivity. Qed.

Lemma packaged_save_identity :
  get_project_id scenarioA_world_touched
    (save_project scenarioA_world packaged_storage scenarioA_run.2 fresh_manager).2 "/proj"
  = get_project_id scenarioA_world fresh_manager (KG.project_root scenarioA_run.2).
Proof. vm_compute. reflexivity. Qed.

Lemma scenarioA_snapshot_stale : snapshot_stale scenarioA_world_touched scenarioA_run.2.
Proof. left. vm_compute. reflexivity. Qed.

Lemma packaged_storage_ordinary : ordinary_faults packaged_storage.
Proof. intros s e. destruct s; try discriminate. intros [= <-]. reflexivity. Qed.

Lemma C4_database_reload_witness :
  (save_project scenarioA_world packaged_storage scenarioA_run.2 fresh_manager).1 = Ret true
  /\ (load_project scenarioA_world_touched packaged_storage "/proj" false
        (save_project scenarioA_world packaged_storage scenarioA_run.2 fresh_manager).2).1
     = Ret None.
Proof.
  split; [exact packaged_save_succeeds|].
  pose proof (C4_database_reload_returns_no_graph scenarioA_world scenarioA_world_touched
                packaged_storage packaged_storage scenarioA_run.2 fresh_manager "/proj" false
                ModuleNotFoundError packaged_save_succeeds packaged_save_identity
                (or_introl eq_refl) eq_refl scenarioA_snapshot_stale eq_refl) as H.
  cbv zeta in H. destruct H as (_ & _ & H). exact (H packaged_storage_ordinary).
Defined.

(** ** The in-process cache and the identity binding *)

Ltac kept := constructor; simpl; first [reflexivity | rewrite dom_insert_L; set_solver].

Lemma manager_kept_trans (m1 m2 m3 : Manager.t) :
  manager_kept m1 m2 -> manager_kept m2 m3 -> manager_kept m1 m3.
Proof. intros [H1 E1 B1] [H2 E2 B2]. constructor; [set_solver|congruence|congruence]. Qed.

Lemma save_project_kept (w : World) (fx : Faults) (k : KG.t) (m : Manager.t) o m' :
  save_project w fx k m = (o, m') -> manager_kept m m'.
Proof.
  intros H. apply save_project_outcomes in H.
  destruct H as [(_ & _ & _ & _ & _ & c & rows & _ & _ & ->)|[_ H]]; [kept|].
  destruct H as [[t ->]|[(_ & _ & t & ->)|(_ & _ & _ & t & ->)]]; kept.
Qed.

Lemma load_from_database_kept (w : World) (fx : Faults) (pid root : string)
    (m : Manager.t) o m' :
  _load_from_database w fx pid root m = (o, m') -> manager_kept m m'.
Proof.
  unfold _load_from_database, with_connection, try_except, bind, step, get.
  destruct (fx StepConnect) as [e|].
  { destruct (is_Exception e); intros [= <- <-]; kept. }
  destruct (fx StepSelect) as [e|].
  { destruct (is_Exception e); intros [= <- <-]; kept. }
  destruct (List.find _ _) as [row|]; [|intros [= <- <-]; kept].
  unfold _rebuild_project_context, bind, step, ret.
  destruct (fx StepImportProjectMind) as [e|].
  { destruct (is_Exception e); intros [= <- <-]; kept. }
  intros [= <- <-]. kept.
Qed.

Lemma load_snapshot_kept (w : World) (pid : string) (m : Manager.t) o m' :
  load_snapshot w pid m = (o, m') -> manager_kept m m'.
Proof.
  unfold load_snapshot, bind, get.
  destruct (Manager.snapshots m !! pid) as [[k|]|];
    unfold try_except, bind, ret, raise, lift_outcome.
  - destruct (_is_cache_valid w k) as [[|]|e|]; try (intros [= <- <-]; kept).
    destruct (is_Exception e); intros [= <- <-]; kept.
  - simpl. intros [= <- <-]. kept.
  - intros [= <- <-]. kept.
Qed.

Lemma load_project_kept (w : World) (fx : Faults) (root : string) (use_cache : bool)
    (m : Manager.t) o m' :
  load_project w fx root use_cache m = (o, m') -> manager_kept m m'.
Proof.
  unfold load_project, bind at 1, get.
  destruct (if use_cache then _ else _); [intros [= <- <-]; kept|].
  unfold bind at 1, step. destruct (fx StepSnapshotExists) as [e|];
    [intros [= <- <-]; kept|].
  unfold bind.
  destruct (load_snapshot w _ m) as [r m1] eqn:E. apply load_snapshot_kept in E.
  destruct r as [[k|]|e|]; try (intros [= <- <-]; exact E).
  intros H. apply load_from_database_kept in H. eapply manager_kept_trans; eauto.
Qed.

(** No sequence of saves and loads ever evicts an entry of the cache. *)
Lemma run_calls_kept (cs : list manager_call) :
  forall m, manager_kept m (run_calls cs m).
Proof.
  unfold run_calls. induction cs as [|c cs IH]; intros m; simpl; [kept|].
  eapply manager_kept_trans; [|apply IH].
  destruct c as [w fx k|w fx root use_cache]; simpl.
  - apply (save_project_kept w fx k m _ _ (surjective_pairing _)).
  - apply (load_project_kept w fx root use_cache m _ _ (surjective_pairing _)).
Qed.

(** C5: the code at a failing input.  A fresh manager is configured for at
    most 5 cached projects; after six projects are saved one after the other
    (every save succeeds) its cache holds six graphs.  Nothing in
    [save_project] or [load_project] reads [max_cache_size] or removes an
    entry: over every sequence of saves and loads, from every manager, the
    keys of the cache only grow. *)
Theorem C5_cache_exceeds_max_cache_size :
  let run := save_each empty_world no_faults (analyzed empty_world <$> six_roots) fresh_manager in
  run.1 = Ret [true; true; true; true; true; true]
  /\ Manager.max_cache_size run.2 = 5
  /\ size (Manager._cache run.2) = 6%nat
  /\ size (Manager._cache_timestamps run.2) = 6%nat
  /\ (forall calls m, manager_kept m (run_calls calls m)).
Proof.
  cbv zeta. do 4 (split; [vm_compute; reflexivity|]).
  intros calls m. apply run_calls_kept.
Qed.

(** The branch layer around a load: when the load returns, the binding it
    found is back; when the load raises an Exception, the lambda stays. *)
Lemma load_branch_project_binding (w : World) (fx : Faults) (root branch : string)
    (m : Manager.t) :
  let patched := Manager.set_get_project_id (BranchLambda root branch) m in
  let inner := load_project w fx root true patched in
  let outer := _load_branch_project w fx root branch m in
  (forall v, inner.1 = Ret v ->
     outer.1 = Ret v /\ Manager.get_project_id outer.2 = Manager.get_project_id m)
  /\ (forall e, inner.1 = Raise e -> is_Exception e = true ->
        outer.1 = Ret None
        /\ Manager.get_project_id outer.2 = BranchLambda root branch).
Proof.
  intros patched inner outer.
  pose proof (load_project_kept w fx root true patched inner.1 inner.2
                (surjective_pairing _)) as [_ _ Hb].
  assert (Hout : outer = match inner with
                         | (Ret v, m1) => (Ret v, Manager.set_get_project_id
                                                     (Manager.get_project_id m) m1)
                         | (Raise e, m1) => if is_Exception e then (Ret None, m1)
                                            else (Raise e, m1)
                         | (Hang, m1) => (Hang, m1)
                         end).
  { unfold outer, _load_branch_project, try_except, bind, get, modify, ret.
    fold patched. fold inner. destruct inner as [[v|e|] m1]; reflexivity. }
  rewrite Hout. destruct inner as [[v|e|] m1]; simpl in *; split;
    try (intros ? [= <-]); try discriminate; auto.
  intros He. rewrite He. simpl. auto.
Qed.

(** ** The scan *)

Lemma scan_loop_bound (w : World) (max_files : Z) (paths : list string) :
  forall c k o k',
    scan_loop w max_files paths c k = (o, k') ->
    (forall n, o = Ret n ->
       c <= n <= Z.max c max_files
       /\ Z.of_nat (size (KG.files k')) <= Z.of_nat (size (KG.files k)) + (n - c))
    /\ (forall p, is_Some (KG.files k' !! p) ->
          is_Some (KG.files k !! p) \/ (In p paths /\ scanned w p = true)).
Proof.
  induction paths as [|p paths IH]; intros c k o k'; cbn [scan_loop].
  - intros [= <- <-]. split; [intros n [= <-]; lia|auto].
  - destruct (Z.geb_spec c max_files) as [Hge|Hlt].
    { intros [= <- <-]. split; [intros n [= <-]; lia|auto]. }
    unfold scanned.
    match goal with
    | |- context [existsb ?f ignore_dirs] => destruct (existsb f ignore_dirs) eqn:Eig
    end.
    { intros H. apply IH in H as [H1 H2]. split; [exact H1|].
      intros q Hq. destruct (H2 q Hq) as [?|[? ?]]; [auto|right; split; [right|]; assumption]. }
    destruct (is_file w p && is_supported (suffix w p)) eqn:Esup.
    2:{ intros H. apply IH in H as [H1 H2]. split; [exact H1|].
        intros q Hq. destruct (H2 q Hq) as [?|[? ?]]; [auto|right; split; [right|]; assumption]. }
    unfold bind at 1, try_except, bind at 1.
    destruct (_analyze_single_file w p k) as [r k1] eqn:E.
    apply analyze_single_file_keyed in E as ((Hf & _) & _ & _).
    assert (Hrest : forall c1 k2,
              KG.files k2 = KG.files k ->
              c1 = c ->
              scan_loop w max_files paths c1 k2 = (o, k') ->
              (forall n, o = Ret n ->
                 c <= n <= Z.max c max_files
                 /\ Z.of_nat (size (KG.files k')) <= Z.of_nat (size (KG.files k)) + (n - c))
              /\ (forall q, is_Some (KG.files k' !! q) ->
                    is_Some (KG.files k !! q)
                    \/ (In q (p :: paths) /\
                        negb (existsb (fun d => in_strings d (parts w q)) ignore_dirs)
                        && (is_file w q && is_supported (suffix w q)) = true))).
    { intros c1 k2 Hk2 -> H. apply IH in H as [H1 H2]. rewrite Hk2 in *. split; [exact H1|].
      intros q Hq. destruct (H2 q Hq) as [?|[? ?]]; [auto|right; split; [right|]; assumption]. }
    destruct r as [[fn|]|e|].
    + unfold bind, modify, ret. intros H. apply IH in H as [H1 H2]. split.
      * intros n Hn. destruct (H1 n Hn) as [Hb Hs]. split; [lia|].
        revert Hs. cbn [KG.files KG.set_files]. rewrite Hf.
        pose proof (map_size_insert p fn (KG.files k)) as Hsz.
        revert Hsz. destruct (KG.files k !! p); intros Hsz; rewrite Hsz; unfold id; lia.
      * intros q Hq. destruct (H2 q Hq) as [Hq'|[? ?]].
        -- revert Hq'. cbn [KG.files KG.set_files]. rewrite Hf.
           destruct (decide (q = p)) as [->|Hne].
           ++ intros _. right. split; [left; reflexivity|]. rewrite Eig. exact Esup.
           ++ rewrite lookup_insert_ne by congruence. auto.
        -- right. split; [right|]; assumption.
    + unfold ret. apply Hrest; [exact Hf|reflexivity].
    + destruct (is_Exception e).
      * unfold ret. apply Hrest; [exact Hf|reflexivity].
      * intros [= <- <-]. rewrite Hf. split; [discriminate|auto].
    + intros [= <- <-]. rewrite Hf. split; [discriminate|auto].
Qed.

Lemma scan_loop_no_budget (w : World) (max_files : Z) (paths : list string) (k : KG.t) :
  max_files <= 0 -> scan_loop w max_files paths 0 k = (Ret 0, k).
Proof.
  intros H. destruct paths as [|p paths]; cbn [scan_loop]; [reflexivity|].
  destruct (Z.geb_spec 0 max_files); [reflexivity|lia].
Qed.

(** X1. The scan stops at [max_files]: the count it returns lies between 0
    and [max_files], the file table grows by at most that count, every path
    it adds to the table is a path below the project root that is a regular
    file with a supported suffix and no ignored directory name among its
    components; with a bound of zero or less nothing is analysed. *)
Theorem scan_respects_max_files (w : World) (max_files : Z) (k : KG.t) :
  let run := _scan_and_analyze_files w max_files k in
  (forall n, run.1 = Ret n ->
     0 <= n <= Z.max 0 max_files
     /\ Z.of_nat (size (KG.files run.2)) <= Z.of_nat (size (KG.files k)) + n)
  /\ (forall p, is_Some (KG.files run.2 !! p) ->
        is_Some (KG.files k !! p)
        \/ (In p (rglob w (KG.project_root k)) /\ scanned w p = true))
  /\ (max_files <= 0 -> run = (Ret 0, k)).
Proof.
  intros run. subst run. unfold _scan_and_analyze_files, bind, get.
  destruct (scan_loop w max_files (rglob w (KG.project_root k)) 0 k) as [o k'] eqn:H.
  pose proof H as H0. apply scan_loop_bound in H as [H1 H2]. cbn [fst snd].
  split; [|split; [exact H2|]].
  - intros n Hn. destruct (H1 n Hn). split; lia.
  - intros Hle. rewrite <- H0. apply scan_loop_no_budget, Hle.
Qed.

(** ** The analysis of one file *)

Lemma entities_grow_refl k : entities_grow k k.
Proof. unfold entities_grow. repeat split; set_solver. Qed.

Lemma add_imports_header (names : list string) :
  forall fn, header (fold_left (fun f a => FileNode.add_import a f) names fn) = header fn.
Proof. induction names as [|a names IH]; intros fn; simpl; [reflexivity|]. rewrite IH. reflexivity. Qed.

Lemma visit_python_node_header (w : World) (nd : ast) acc :
  header (visit_python_node w nd acc).1 = header acc.1
  /\ dom acc.2 ⊆ dom (visit_python_node w nd acc).2.
Proof.
  destruct acc as [fn ents]. unfold visit_python_node.
  destruct (ast_kind_of nd) as [name lineno doc|name lineno doc|names|[m|]|]; simpl;
    try (split; [reflexivity|set_solver]).
  - split; [apply add_imports_header|set_solver].
  - destruct (bool_decide (m = "")); (split; [reflexivity|set_solver]).
Qed.

Lemma walk_python_header (w : World) (nodes : list ast) :
  forall acc,
    header (fold_left (fun acc nd => visit_python_node w nd acc) nodes acc).1 = header acc.1
    /\ dom acc.2 ⊆ dom (fold_left (fun acc nd => visit_python_node w nd acc) nodes acc).2.
Proof.
  induction nodes as [|nd nodes IH]; intros acc; simpl; [split; [reflexivity|set_solver]|].
  destruct (IH (visit_python_node w nd acc)) as [H1 H2].
  destruct (visit_python_node_header w nd acc) as [H3 H4].
  split; [congruence|set_solver].
Qed.

Lemma js_entities_header (w : World) kind content (ms : list ReMatch) :
  forall acc,
    header (fold_left (fun a m => js_entity w kind content m a) ms acc).1 = header acc.1
    /\ dom acc.2 ⊆ dom (fold_left (fun a m => js_entity w kind content m a) ms acc).2.
Proof.
  induction ms as [|m ms IH]; intros [fn ents]; cbn [fold_left];
    [split; [reflexivity|set_solver]|].
  destruct (IH (js_entity w kind content m (fn, ents))) as [H1 H2].
  split; [rewrite H1; reflexivity|].
  etrans; [|exact H2]. unfold js_entity. simpl. set_solver.
Qed.

Lemma js_patterns_header (w : World) kind content (pats : list js_pattern) :
  forall acc,
    header (fold_left (fun acc pat =>
                         fold_left (fun a m => js_entity w kind content m a)
                                   (re_finditer w pat content) acc) pats acc).1 = header acc.1
    /\ dom acc.2 ⊆ dom (fold_left (fun acc pat =>
                         fold_left (fun a m => js_entity w kind content m a)
                                   (re_finditer w pat content) acc) pats acc).2.
Proof.
  induction pats as [|pat pats IH]; intros acc; simpl; [split; [reflexivity|set_solver]|].
  destruct (js_entities_header w kind content (re_finditer w pat content) acc) as [H1 H2].
  destruct (IH (fold_left (fun a m => js_entity w kind content m a)
                          (re_finditer w pat content) acc)) as [H3 H4].
  split; [congruence|set_solver].
Qed.

Lemma js_imports_header (ms : list ReMatch) :
  forall fn, header (fold_left (fun f' m => FileNode.add_import (group1 m) f') ms fn) = header fn.
Proof. induction ms as [|m ms IH]; intros fn; simpl; [reflexivity|]. rewrite IH. reflexivity. Qed.

Lemma js_import_patterns_header (w : World) content (pats : list js_pattern) :
  forall fn,
    header (fold_left (fun f pat =>
                         fold_left (fun f' m => FileNode.add_import (group1 m) f')
                                   (re_finditer w pat content) f) pats fn) = header fn.
Proof.
  induction pats as [|pat pats IH]; intros fn; simpl; [reflexivity|].
  rewrite IH. apply js_imports_header.
Qed.

Lemma analyze_python_file_header (w : World) (fn : FileNode.t) (content : string) (k : KG.t) o k' :
  _analyze_python_file w fn content k = (o, k') ->
  entities_grow k k'
  /\ (forall fn', o = Ret fn' -> header fn' = header fn)
  /\ (forall e, o = Raise e -> ast_parse w content = Raise e /\ e <> SyntaxError)
  /\ (o = Hang -> ast_parse w content = Hang)
  /\ (ast_parse w content = Raise SyntaxError -> o = Ret fn /\ k' = k).
Proof.
  unfold _analyze_python_file, try_except, bind, lift_outcome, get, modify, ret.
  destruct (ast_parse w content) as [tree|e|].
  - pose proof (walk_python_header w (ast_walk tree) (fn, KG.entities k)) as [H1 H2].
    destruct (fold_left _ (ast_walk tree) (fn, KG.entities k)) as [fn1 ents1].
    simpl in H1, H2. intros [= <- <-].
    split; [repeat split; exact H2|]. split; [intros ? [= <-]; exact H1|].
    repeat split; discriminate.
  - destruct (one_of [SyntaxError] e) eqn:Eo; intros [= <- <-];
      (split; [apply entities_grow_refl|]).
    + split; [intros ? [= <-]; reflexivity|]. split; [discriminate|].
      split; [discriminate|]. auto.
    + split; [discriminate|]. split.
      * intros ? [= <-]. split; [reflexivity|]. intros ->. discriminate.
      * split; [discriminate|]. intros [= ->]. discriminate.
  - intros [= <- <-]. split; [apply entities_grow_refl|]. repeat split; discriminate.
Qed.

Lemma analyze_js_file_header (w : World) (fn : FileNode.t) (content : string) (k : KG.t) o k' :
  _analyze_js_file w fn content k = (o, k') ->
  entities_grow k k' /\ exists fn', o = Ret fn' /\ header fn' = header fn.
Proof.
  unfold _analyze_js_file, bind, get, modify, ret.
  destruct (js_patterns_header w "function" content
              [PatFunctionKeyword; PatConstParen; PatColonFunction; PatArrow]
              (fn, KG.entities k)) as [H1 H2].
  destruct (js_entities_header w "class" content (re_finditer w PatClass content)
              (fold_left (fun acc pat =>
                            fold_left (fun a m => js_entity w "function" content m a)
                                      (re_finditer w pat content) acc)
                         [PatFunctionKeyword; PatConstParen; PatColonFunction; PatArrow]
                         (fn, KG.entities k)))
    as [H3 H4].
  pose proof (js_import_patterns_header w content [PatImportFrom; PatImportBare; PatRequire]) as H5.
  cbn [fold_left fst snd] in *.
  intros [= <- <-]. split.
  - repeat split. cbn [KG.entities KG.set_entities]. set_solver.
  - eexists. split; [reflexivity|]. rewrite H5. congruence.
Qed.

Lemma analyze_single_file_node (w : World) (p : string) (k : KG.t) o k' :
  _analyze_single_file w p k = (o, k') ->
  entities_grow k k'
  /\ (forall e, o = Raise e -> is_Exception e = false)
  /\ (forall fn, o = Ret (Some fn) ->
        exists content st language,
          read_text w p = Ret content /\ stat w p = Ret st
          /\ assoc_get (suffix w p) supported_extensions = Some language
          /\ header fn = header (bare_node w p language content st))
  /\ (o = Ret None -> k' = k).
Proof.
  intros H. pose proof H as Hkeyed. apply analyze_single_file_keyed in Hkeyed as (_ & _ & Hun).
  split; [|split; [|split]].
  2:{ revert H. unfold _analyze_single_file, try_except.
      match goal with |- (let (_, _) := ?c k in _) = _ -> _ => destruct (c k) as [r k1] end.
      destruct r as [v|e|]; [intros [= <- <-]; discriminate| |intros [= <- <-]; discriminate].
      destruct (is_Exception e) eqn:Ex; intros [= <- <-]; [discriminate|].
      intros ? [= <-]. exact Ex. }
  3:{ intros ->. apply Hun. discriminate. }
  - revert H. unfold _analyze_single_file, try_except.
    match goal with |- (let (_, _) := ?c k in _) = _ -> _ => destruct (c k) as [r k1] eqn:E end.
    assert (Hg : entities_grow k k1).
    { revert E. unfold bind, lift_outcome, ret, raise.
      destruct (read_text w p) as [content|e|]; [|intros [= <- <-]; apply entities_grow_refl..].
      destruct (stat w p) as [st|e|]; [|intros [= <- <-]; apply entities_grow_refl..].
      destruct (assoc_get (suffix w p) supported_extensions) as [language|];
        [|intros [= <- <-]; apply entities_grow_refl].
      destruct (String.eqb language "python").
      - match goal with |- context [_analyze_python_file w ?f content k] =>
          destruct (_analyze_python_file w f content k) as [r2 k2] eqn:E2 end.
        apply analyze_python_file_header in E2 as (Hg & _).
        destruct r2; intros [= <- <-]; exact Hg.
      - destruct (String.eqb language "javascript" || String.eqb language "typescript").
        + match goal with |- context [_analyze_js_file w ?f content k] =>
            destruct (_analyze_js_file w f content k) as [r2 k2] eqn:E2 end.
          apply analyze_js_file_header in E2 as (Hg & fn' & -> & _).
          intros [= <- <-]; exact Hg.
        + intros [= <- <-]. apply entities_grow_refl. }
    destruct r as [v|e|]; [intros [= <- <-]; exact Hg| |intros [= <- <-]; exact Hg].
    destruct (is_Exception e); intros [= <- <-]; exact Hg.
  - intros fn ->. revert H. unfold _analyze_single_file, try_except.
    match goal with |- (let (_, _) := ?c k in _) = _ -> _ => destruct (c k) as [r k1] eqn:E end.
    assert (Hr : r = Ret (Some fn) -> exists content st language,
          read_text w p = Ret content /\ stat w p = Ret st
          /\ assoc_get (suffix w p) supported_extensions = Some language
          /\ header fn = header (bare_node w p language content st)).
    { revert E. unfold bind, lift_outcome, ret, raise.
      destruct (read_text w p) as [content|e|]; [|intros [= <- <-]; discriminate..].
      destruct (stat w p) as [st|e|]; [|intros [= <- <-]; discriminate..].
      destruct (assoc_get (suffix w p) supported_extensions) as [language|];
        [|intros [= <- <-]; discriminate].
      intros E Hr. exists content, st, language. repeat split. revert E. rewrite Hr.
      fold (bare_node w p language content st).
      destruct (String.eqb language "python").
      - destruct (_analyze_python_file w (bare_node w p language content st) content k)
          as [r2 k2] eqn:E2.
        apply analyze_python_file_header in E2 as (_ & Hh & _).
        destruct r2; intros [= <- <-]. apply Hh. reflexivity.
      - destruct (String.eqb language "javascript" || String.eqb language "typescript").
        + destruct (_analyze_js_file w (bare_node w p language content st) content k)
            as [r2 k2] eqn:E2.
          apply analyze_js_file_header in E2 as (_ & fn' & -> & Hh).
          intros [= <- <-]. exact Hh.
        + intros [= <- <-]. reflexivity. }
    destruct r as [v|e|]; [intros [= -> <-]; apply Hr; reflexivity| |discriminate].
    destruct (is_Exception e); [|discriminate].
    unfold ret. discriminate.
Qed.

(** Lines that hold nothing but white space do not count, whatever the
    white space: of the four lines of the text below, the one with an
    ideographic space and the one with a no-break space are blank to
    [str.strip], and the line count is 2. *)
Lemma wide_blank_lines_are_not_counted :
  len (filter (fun l => strip_nonempty l = true) (split_on newline wide_blank_text)) = 2
  /\ strip (ideographic_space +:+ " main" +:+ no_break_space +:+ String newline "") = "main"
  /\ match (_analyze_single_file wide_blank_world "/proj/u.py"
              (KG_init wide_blank_world "/proj")).1 with
     | Ret (Some fn) => FileNode.line_count fn = 2
     | _ => False
     end.
Proof. split; [vm_compute; reflexivity|]. split; vm_compute; reflexivity. Qed.

(** X2. What [_analyze_single_file] answers reflects the disk: a node it
    returns carries the path, the language of the suffix, the size and
    modification time of [stat], the MD5 of the text read, the count of
    non-blank lines, no export, risk 0 and change frequency 0; it stores no
    file node and removes no entity; no exception of class [Exception]
    leaves it, and an answer of [None] leaves the graph object as it was.
    A Python file that does not parse still gives this node, with no import
    and no entity. *)
Theorem analyze_single_file_reflects_disk (w : World) (file_path : string) (k : KG.t) :
  let run := _analyze_single_file w file_path k in
  entities_grow k run.2
  /\ (forall e, run.1 = Raise e -> is_Exception e = false)
  /\ (forall fn, run.1 = Ret (Some fn) ->
        exists content st language,
          read_text w file_path = Ret content /\ stat w file_path = Ret st
          /\ assoc_get (suffix w file_path) supported_extensions = Some language
          /\ header fn = header (bare_node w file_path language content st))
  /\ (run.1 = Ret None -> run.2 = k)
  /\ (forall content st,
        read_text w file_path = Ret content -> stat w file_path = Ret st ->
        suffix w file_path = ".py" -> ast_parse w content = Raise SyntaxError ->
        run = (Ret (Some (bare_node w file_path "python" content st)), k)).
Proof.
  intros run.
  pose proof (analyze_single_file_node w file_path k run.1 run.2 (surjective_pairing _))
    as (H1 & H2 & H3 & H4).
  split; [exact H1|]. split; [exact H2|]. split; [exact H3|]. split; [exact H4|].
  intros content st Hr Hs Hsfx Hp. subst run.
  unfold _analyze_single_file, try_except, bind at 1, lift_outcome at 1. rewrite Hr.
  unfold bind at 1, lift_outcome at 1. rewrite Hs. rewrite Hsfx.
  change (assoc_get ".py" supported_extensions) with (Some "python").
  unfold bind at 1, ret at 1. change (String.eqb "python" "python") with true. cbv iota.
  fold (bare_node w file_path "python" content st).
  unfold bind at 1.
  destruct (_analyze_python_file w (bare_node w file_path "python" content st) content k)
    as [o k'] eqn:E.
  apply analyze_python_file_header in E as (_ & _ & _ & _ & H).
  destruct (H Hp) as [-> ->]. reflexivity.
Qed.

(** ** The dependency graph builder *)

Lemma graph_grew_refl g : graph_wf g -> graph_grew g g.
Proof. intros H. constructor; [exact H|set_solver..]. Qed.

Lemma graph_grew_trans g1 g2 g3 : graph_grew g1 g2 -> graph_grew g2 g3 -> graph_grew g1 g3.
Proof. intros [? ? ?] [? ? ?]. constructor; [assumption|set_solver..]. Qed.

Lemma touch_node_nodes n g :
  dom (DiGraph.node (DiGraph.touch_node n g)) = {[n]} ∪ dom (DiGraph.node g).
Proof.
  unfold DiGraph.touch_node. destruct (DiGraph.node g !! n) eqn:E; simpl.
  - apply elem_of_dom_2 in E. set_solver.
  - rewrite dom_insert_L. reflexivity.
Qed.

Lemma add_node_nodes n a g :
  dom (DiGraph.node (DiGraph.add_node n a g)) = {[n]} ∪ dom (DiGraph.node g).
Proof.
  unfold DiGraph.add_node. destruct (DiGraph.node g !! n) eqn:E; simpl;
    rewrite dom_insert_L; reflexivity.
Qed.

Lemma add_edge_nodes u v a g :
  dom (DiGraph.node (DiGraph.add_edge u v a g)) = {[u; v]} ∪ dom (DiGraph.node g).
Proof.
  unfold DiGraph.add_edge. simpl. rewrite !touch_node_nodes. set_solver.
Qed.

Lemma add_node_grew n a g : graph_wf g -> graph_grew g (DiGraph.add_node n a g).
Proof.
  intros H. constructor; [apply add_node_wf, H|rewrite add_node_nodes; set_solver|].
  rewrite add_node_set by exact H. set_solver.
Qed.

Lemma add_edge_grew u v a g : graph_wf g -> graph_grew g (DiGraph.add_edge u v a g).
Proof.
  intros H. constructor; [apply add_edge_wf, H|rewrite add_edge_nodes; set_solver|].
  rewrite add_edge_set by exact H. set_solver.
Qed.

Lemma has_node_dom n g : DiGraph.has_node n g = true <-> n ∈ dom (DiGraph.node g).
Proof. unfold DiGraph.has_node. rewrite bool_decide_eq_true, elem_of_dom. reflexivity. Qed.

Lemma successors_elem g u v :
  v ∈ DiGraph.successors u g <-> (u, v) ∈ edge_set g.
Proof.
  rewrite edge_set_elem. unfold DiGraph.successors, edge_lookup.
  rewrite list_elem_of_fmap. split.
  - intros [[v' d] [-> H]]. apply elem_of_map_to_list in H.
    destruct (DiGraph.adj g !! u) as [nbrs|]; simpl in *; [eauto|].
    rewrite lookup_empty in H. discriminate.
  - intros [d H]. destruct (DiGraph.adj g !! u) as [nbrs|] eqn:E; [|discriminate].
    simpl in *. exists (v, d). split; [reflexivity|]. apply elem_of_map_to_list, H.
Qed.

Lemma predecessors_elem g u v :
  u ∈ predecessors v g <-> (u, v) ∈ edge_set g.
Proof.
  rewrite edge_set_elem. unfold predecessors, edge_lookup.
  rewrite list_elem_of_fmap. split.
  - intros [[u' nbrs] [-> H]]. apply elem_of_map_to_list in H.
    apply map_lookup_filter_Some in H as [H1 H2]. simpl in *. rewrite H1. exact H2.
  - intros H. destruct (DiGraph.adj g !! u) as [nbrs|] eqn:E; [|destruct H; discriminate].
    simpl in H. exists (u, nbrs). split; [reflexivity|].
    apply elem_of_map_to_list, map_lookup_filter_Some. split; assumption.
Qed.

Lemma only_built_refl k g : only_built k g g.
Proof. intros u v H. auto. Qed.

Lemma only_built_trans k g1 g2 g3 :
  only_built k g1 g2 -> only_built k g2 g3 -> only_built k g1 g3.
Proof. intros H1 H2 u v H. destruct (H2 u v H) as [H'|H']; [apply H1, H'|auto]. Qed.

Lemma add_import_edge_graph (w : World) (k0 : KG.t) (p i : string) (fn : FileNode.t) s o s' :
  KG.files k0 !! p = Some fn ->
  KG.files s.1 = KG.files k0 ->
  graph_wf (KG.graph s.1) ->
  add_import_edge w p i s = (o, s') ->
  graph_grew (KG.graph s.1) (KG.graph s'.1)
  /\ only_built k0 (KG.graph s.1) (KG.graph s'.1)
  /\ KG.files s'.1 = KG.files k0
  /\ s.2 <= s'.2.
Proof.
  destruct s as [k n]. simpl. intros Hp Hf Hwf. unfold add_import_edge.
  destruct (_resolve_import w i p) as [[t|]|e|];
    try (intros [= <- <-]; simpl;
         split; [apply graph_grew_refl, Hwf|split; [apply only_built_refl|split; [exact Hf|lia]]]).
  destruct (negb (String.eqb t "")) eqn:Et; simpl;
    [|intros [= <- <-]; simpl;
      split; [apply graph_grew_refl, Hwf|split; [apply only_built_refl|split; [exact Hf|lia]]]].
  destruct (bool_decide (is_Some (KG.files k !! t))) eqn:Ein; simpl;
    [|intros [= <- <-]; simpl;
      split; [apply graph_grew_refl, Hwf|split; [apply only_built_refl|split; [exact Hf|lia]]]].
  apply bool_decide_eq_true in Ein. rewrite Hf in Ein.
  intros [= <- <-]. simpl. split; [apply add_edge_grew, Hwf|]. split; [|split; [exact Hf|lia]].
  intros u v. rewrite add_edge_set by exact Hwf. rewrite elem_of_union, elem_of_singleton.
  intros [[= -> ->]|H]; [right|left; exact H]. exists fn. auto.
Qed.

Lemma import_edges_graph (w : World) (k0 : KG.t) (p : string) (fn : FileNode.t)
    (imports : list string) :
  forall s o s',
    KG.files k0 !! p = Some fn ->
    KG.files s.1 = KG.files k0 ->
    graph_wf (KG.graph s.1) ->
    for_each imports (add_import_edge w p) s = (o, s') ->
    graph_grew (KG.graph s.1) (KG.graph s'.1)
    /\ only_built k0 (KG.graph s.1) (KG.graph s'.1)
    /\ KG.files s'.1 = KG.files k0
    /\ s.2 <= s'.2.
Proof.
  induction imports as [|i imports IH]; intros s o s' Hp Hf Hwf; simpl.
  - intros [= <- <-]. split; [apply graph_grew_refl, Hwf|].
    split; [apply only_built_refl|split; [exact Hf|lia]].
  - unfold bind. destruct (add_import_edge w p i s) as [r s1] eqn:E.
    apply (add_import_edge_graph w k0 p i fn) in E as (G1 & B1 & F1 & N1); try assumption.
    destruct r as [[]|e|]; [|intros [= <- <-]; auto..].
    intros H. apply IH in H as (G2 & B2 & F2 & N2); try assumption; [|apply G1].
    split; [eapply graph_grew_trans; eassumption|].
    split; [eapply only_built_trans; eassumption|split; [exact F2|lia]].
Qed.

Lemma entity_nodes_graph (k0 : KG.t) (p : string) (fn : FileNode.t) (ents : list CodeEntity.t) :
  forall g,
    KG.files k0 !! p = Some fn ->
    (forall e, e ∈ ents -> e ∈ FileNode.entities fn) ->
    graph_wf g ->
    let g' := fold_left (fun g e => add_entity_node p e g) ents g in
    graph_grew g g'
    /\ only_built k0 g g'
    /\ (forall e, e ∈ ents -> (p, entity_key p (CodeEntity.name e)) ∈ edge_set g').
Proof.
  induction ents as [|e ents IH]; intros g Hp Hsub Hwf; simpl.
  - split; [apply graph_grew_refl, Hwf|]. split; [apply only_built_refl|].
    intros e He. apply elem_of_nil in He. contradiction.
  - set (g1 := add_entity_node p e g).
    assert (Hwf0 : graph_wf (DiGraph.add_node (entity_key p (CodeEntity.name e))
                     (DiGraph.mkNode (Some "entity") (Some (entity_key p (CodeEntity.name e)))) g))
      by (apply add_node_wf, Hwf).
    assert (G1 : graph_grew g g1).
    { unfold g1, add_entity_node. eapply graph_grew_trans; [apply add_node_grew, Hwf|].
      apply add_edge_grew, Hwf0. }
    assert (E1 : edge_set g1 = {[(p, entity_key p (CodeEntity.name e))]} ∪ edge_set g).
    { unfold g1, add_entity_node. rewrite add_edge_set by exact Hwf0.
      rewrite add_node_set by exact Hwf. reflexivity. }
    destruct (IH g1 Hp) as (G2 & B2 & C2); [|apply G1|].
    { intros e' He'. apply Hsub. right. exact He'. }
    split; [eapply graph_grew_trans; eassumption|]. split.
    + intros u v H. destruct (B2 u v H) as [H'|H']; [|auto].
      rewrite E1 in H'. apply elem_of_union in H' as [H'|H']; [|auto].
      apply elem_of_singleton in H'. injection H' as -> ->. right.
      exists fn. split; [exact Hp|]. right. exists e. split; [|reflexivity].
      apply Hsub. left.
    + intros e' He'. apply elem_of_cons in He' as [->|He']; [|apply C2, He'].
      apply (grew_edges _ _ G2). rewrite E1. set_solver.
Qed.

Lemma build_file_graph (w : World) (k0 : KG.t) (p : string) (fn : FileNode.t) s o s' :
  KG.files k0 !! p = Some fn ->
  KG.files s.1 = KG.files k0 ->
  graph_wf (KG.graph s.1) ->
  build_file w (p, fn) s = (o, s') ->
  graph_grew (KG.graph s.1) (KG.graph s'.1)
  /\ only_built k0 (KG.graph s.1) (KG.graph s'.1)
  /\ KG.files s'.1 = KG.files k0
  /\ s.2 <= s'.2
  /\ (o = Ret tt ->
      p ∈ dom (DiGraph.node (KG.graph s'.1))
      /\ forall e, e ∈ FileNode.entities fn ->
           (p, entity_key p (CodeEntity.name e)) ∈ edge_set (KG.graph s'.1)).
Proof.
  destruct s as [k n]. simpl. intros Hp Hf Hwf.
  unfold build_file, bind at 1, modify at 1. unfold bind at 1.
  set (g0 := DiGraph.add_node p (DiGraph.mkNode (Some "file") (Some p)) (KG.graph k)).
  assert (G0 : graph_grew (KG.graph k) g0) by apply add_node_grew, Hwf.
  assert (N0 : p ∈ dom (DiGraph.node g0)).
  { unfold g0. rewrite add_node_nodes. set_solver. }
  assert (E0 : edge_set g0 = edge_set (KG.graph k)) by apply add_node_set, Hwf.
  destruct (for_each (FileNode.imports fn) (add_import_edge w p) (KG.set_graph g0 k, n))
    as [r s1] eqn:E.
  apply (import_edges_graph w k0 p fn) in E as (G1 & B1 & F1 & N1);
    [|exact Hp|exact Hf|apply G0].
  simpl in G1, B1, N1.
  assert (B01 : only_built k0 (KG.graph k) (KG.graph s1.1)).
  { intros u v H. destruct (B1 u v H) as [H'|H']; [left; rewrite <- E0; exact H'|auto]. }
  destruct r as [[]|e|];
    [|intros [= <- <-]; (split; [eapply graph_grew_trans; eassumption|]);
      (split; [exact B01|]); (split; [exact F1|]); (split; [lia|discriminate])..].
  unfold modify. destruct s1 as [k1 n1]. intros [= <- <-]. simpl in *.
  destruct (entity_nodes_graph k0 p fn (FileNode.entities fn) (KG.graph k1) Hp)
    as (G2 & B2 & C2); [auto|apply G1|].
  cbv zeta in G2, B2, C2.
  split; [eapply graph_grew_trans; [exact G0|eapply graph_grew_trans; eassumption]|].
  split; [eapply only_built_trans; eassumption|]. split; [exact F1|]. split; [lia|].
  intros _. split; [|exact C2].
  apply (grew_nodes _ _ G2), (grew_nodes _ _ G1), N0.
Qed.

Lemma build_files_graph (w : World) (k0 : KG.t) (entries : list (string * FileNode.t)) :
  forall s o s',
    (forall x, x ∈ entries -> KG.files k0 !! x.1 = Some x.2) ->
    KG.files s.1 = KG.files k0 ->
    graph_wf (KG.graph s.1) ->
    for_each entries (build_file w) s = (o, s') ->
    graph_grew (KG.graph s.1) (KG.graph s'.1)
    /\ only_built k0 (KG.graph s.1) (KG.graph s'.1)
    /\ s.2 <= s'.2
    /\ (o = Ret tt ->
        forall x, x ∈ entries ->
          x.1 ∈ dom (DiGraph.node (KG.graph s'.1))
          /\ forall e, e ∈ FileNode.entities x.2 ->
               (x.1, entity_key x.1 (CodeEntity.name e)) ∈ edge_set (KG.graph s'.1)).
Proof.
  induction entries as [|[p fn] entries IH]; intros s o s' Hin Hf Hwf; cbn [for_each].
  - intros [= <- <-]. split; [apply graph_grew_refl, Hwf|].
    split; [apply only_built_refl|]. split; [lia|].
    intros _ x Hx. apply elem_of_nil in Hx. contradiction.
  - unfold bind. destruct (build_file w (p, fn) s) as [r s1] eqn:E.
    apply (build_file_graph w k0 p fn) in E as (G1 & B1 & F1 & N1 & C1);
      [|apply (Hin (p, fn)); left|exact Hf|exact Hwf].
    destruct r as [[]|e|];
      [|intros [= <- <-]; (split; [exact G1|]); (split; [exact B1|]);
        (split; [exact N1|discriminate])..].
    intros H. apply IH in H as (G2 & B2 & N2 & C2);
      [|intros x Hx; apply Hin; right; exact Hx|exact F1|apply G1].
    split; [eapply graph_grew_trans; eassumption|].
    split; [eapply only_built_trans; eassumption|]. split; [lia|].
    intros Ho x Hx. apply elem_of_cons in Hx as [->|Hx]; [|apply (C2 Ho), Hx].
    destruct (C1 eq_refl) as [Hn He]. simpl. split.
    + apply (grew_nodes _ _ G2), Hn.
    + intros e He'. apply (grew_edges _ _ G2), He, He'.
Qed.

Lemma build_dependency_graph_grows (w : World) (k : KG.t) o k' :
  graph_wf (KG.graph k) ->
  _build_dependency_graph w k = (o, k') ->
  graph_grew (KG.graph k) (KG.graph k')
  /\ only_built k (KG.graph k) (KG.graph k')
  /\ (forall n, o = Ret n ->
        0 <= n
        /\ forall p fn, KG.files k !! p = Some fn ->
             p ∈ dom (DiGraph.node (KG.graph k'))
             /\ forall e, e ∈ FileNode.entities fn ->
                  (p, entity_key p (CodeEntity.name e)) ∈ edge_set (KG.graph k')).
Proof.
  intros Hwf. unfold _build_dependency_graph.
  destruct (for_each _ (build_file w) (k, 0)) as [r [k1 n]] eqn:E.
  apply (build_files_graph w k) in E as (G & B & N & C);
    [|intros [p fn] Hx; apply elem_of_map_to_list, Hx|reflexivity|exact Hwf].
  simpl in *.
  destruct r as [[]|e|]; intros [= <- <-]; (split; [exact G|]); (split; [exact B|]);
    try discriminate.
  intros n' [= <-]. split; [exact N|]. intros p fn Hp.
  apply (C eq_refl (p, fn)). apply elem_of_map_to_list, Hp.
Qed.

Lemma no_elements_nil {A} (l : list A) : (forall x, x ∉ l) -> l = [].
Proof. destruct l as [|x l]; [reflexivity|]. intros H. exfalso. apply (H x). left. Qed.

(** X3. The dependency graph builder only adds: on a graph object with a
    well-formed graph it keeps every node and every edge, and an edge it
    adds leaves a file of the table and ends in a file of the table or in an
    entity of the file it leaves.  When it returns, its count is not
    negative, every file of the table is a node, and every entity of a file
    is reached from it by an edge. *)
Theorem build_dependency_graph_only_adds (w : World) (k : KG.t) :
  graph_wf (KG.graph k) ->
  let run := _build_dependency_graph w k in
  graph_grew (KG.graph k) (KG.graph run.2)
  /\ only_built k (KG.graph k) (KG.graph run.2)
  /\ (forall n, run.1 = Ret n ->
        0 <= n
        /\ forall p fn, KG.files k !! p = Some fn ->
             p ∈ dom (DiGraph.node (KG.graph run.2))
             /\ forall e, e ∈ FileNode.entities fn ->
                  (p, entity_key p (CodeEntity.name e)) ∈ edge_set (KG.graph run.2)).
Proof.
  intros Hwf run.
  exact (build_dependency_graph_grows w k run.1 run.2 Hwf (surjective_pairing _)).
Qed.

Lemma build_dependency_graph_only_adds_witness :
  let k := (_scan_and_analyze_files scenarioA_world 1000 (KG_init scenarioA_world "/proj")).2 in
  graph_grew (KG.graph k) (KG.graph (_build_dependency_graph scenarioA_world k).2).
Proof.
  intros k.
  destruct (build_dependency_graph_only_adds scenarioA_world k) as [H _];
    [exact empty_graph_wf|exact H].
Defined.

(** X4. The dependencies of a file in a graph built from an empty one: the
    list [get_file_dependencies] gives for a file of the table holds the key
    of each of its own entities, and nothing but files of the table and keys
    of its own entities; for a path that is no file of the table the list
    is empty. *)
Theorem file_dependencies_of_built_graph (w : World) (k : KG.t) (n : Z) :
  KG.graph k = DiGraph.empty ->
  let run := _build_dependency_graph w k in
  run.1 = Ret n ->
  (forall p fn, KG.files k !! p = Some fn ->
     (forall e, e ∈ FileNode.entities fn ->
        entity_key p (CodeEntity.name e) ∈ get_file_dependencies run.2 p)
     /\ (forall v, v ∈ get_file_dependencies run.2 p ->
           is_Some (KG.files k !! v)
           \/ exists e, e ∈ FileNode.entities fn /\ v = entity_key p (CodeEntity.name e)))
  /\ (forall q, KG.files k !! q = None -> get_file_dependencies run.2 q = []).
Proof.
  intros Hg run Hn.
  assert (Hwf : graph_wf (KG.graph k)) by (rewrite Hg; exact empty_graph_wf).
  pose proof (build_dependency_graph_grows w k run.1 run.2 Hwf (surjective_pairing _))
    as (G & B & C).
  destruct (C n Hn) as [_ Hfiles].
  assert (Hold : edge_set (KG.graph k) = ∅) by (rewrite Hg; apply empty_edge_set).
  assert (Hedge : forall u v, (u, v) ∈ edge_set (KG.graph run.2) -> built_edge k u v).
  { intros u v H. destruct (B u v H) as [H'|H']; [|exact H'].
    rewrite Hold in H'. set_solver. }
  split.
  - intros p fn Hp. destruct (Hfiles p fn Hp) as [Hnode Hents].
    apply has_node_dom in Hnode. unfold get_file_dependencies. rewrite Hnode. split.
    + intros e He. apply successors_elem, Hents, He.
    + intros v Hv. apply successors_elem, Hedge in Hv. destruct Hv as (fn' & Hp' & Hv).
      rewrite Hp in Hp'. injection Hp' as <-. exact Hv.
  - intros q Hq. unfold get_file_dependencies.
    destruct (DiGraph.has_node q (KG.graph run.2)); [|reflexivity].
    apply no_elements_nil. intros v Hv. apply successors_elem, Hedge in Hv.
    destruct Hv as (fn' & Hp' & _). congruence.
Qed.

Lemma file_dependencies_of_built_graph_witness :
  let k := (_scan_and_analyze_files scenarioA_world 1000 (KG_init scenarioA_world "/proj")).2 in
  get_file_dependencies (_build_dependency_graph scenarioA_world k).2 "/proj/a.py:f" = [].
Proof.
  intros k.
  destruct (file_dependencies_of_built_graph scenarioA_world k 0) as [_ H];
    [reflexivity|vm_compute; reflexivity|].
  apply H. vm_compute. reflexivity.
Defined.

(** ** The context statistics *)

Lemma bucket_of_cases (r : float) :
  bucket_of r = "low" \/ bucket_of r = "medium" \/ bucket_of r = "high" \/ bucket_of r = "extreme".
Proof.
  unfold bucket_of. destruct (PrimFloat.ltb r 0.3); [auto|].
  destruct (PrimFloat.ltb r 0.6); [auto|]. destruct (PrimFloat.ltb r 0.8); auto.
Qed.

Lemma complexity_levels_fold (fs : list FileNode.t) :
  forall d l m h e,
    distribution d l m h e -> 0 <= l -> 0 <= m -> 0 <= h -> 0 <= e ->
    exists l' m' h' e',
      distribution
        (fold_left (fun d f => let b := bucket_of (FileNode.risk_score f) in
                               <[b := default 0 (d !! b) + 1]> d) fs d) l' m' h' e'
      /\ 0 <= l' /\ 0 <= m' /\ 0 <= h' /\ 0 <= e'
      /\ l' + m' + h' + e' = l + m + h + e + len fs.
Proof.
  induction fs as [|f fs IH]; intros d l m h e Hd Hl Hm Hh He; cbn [fold_left].
  - exists l, m, h, e. unfold len. simpl. split; [exact Hd|]. lia.
  - destruct Hd as [Hdom E1 E2 E3 E4]. cbv zeta.
    assert (Hlen : len (f :: fs) = len fs + 1) by (unfold len; simpl length; lia).
    destruct (bucket_of_cases (FileNode.risk_score f)) as [ -> | [ -> | [ -> | -> ]]].
    + rewrite E1. simpl default.
      destruct (IH (<["low" := l + 1]> d) (l + 1) m h e) as (l' & m' & h' & e' & H & ? & ? & ? & ? & ?);
        try lia.
      { constructor; rewrite ?dom_insert_L, ?lookup_insert_eq, ?lookup_insert_ne by done;
          try assumption; try reflexivity. rewrite Hdom. set_solver. }
      exists l', m', h', e'. split; [exact H|]. lia.
    + rewrite E2. simpl default.
      destruct (IH (<["medium" := m + 1]> d) l (m + 1) h e) as (l' & m' & h' & e' & H & ? & ? & ? & ? & ?);
        try lia.
      { constructor; rewrite ?dom_insert_L, ?lookup_insert_eq, ?lookup_insert_ne by done;
          try assumption; try reflexivity. rewrite Hdom. set_solver. }
      exists l', m', h', e'. split; [exact H|]. lia.
    + rewrite E3. simpl default.
      destruct (IH (<["high" := h + 1]> d) l m (h + 1) e) as (l' & m' & h' & e' & H & ? & ? & ? & ? & ?);
        try lia.
      { constructor; rewrite ?dom_insert_L, ?lookup_insert_eq, ?lookup_insert_ne by done;
          try assumption; try reflexivity. rewrite Hdom. set_solver. }
      exists l', m', h', e'. split; [exact H|]. lia.
    + rewrite E4. simpl default.
      destruct (IH (<["extreme" := e + 1]> d) l m h (e + 1)) as (l' & m' & h' & e' & H & ? & ? & ? & ? & ?);
        try lia.
      { constructor; rewrite ?dom_insert_L, ?lookup_insert_eq, ?lookup_insert_ne by done;
          try assumption; try reflexivity. rewrite Hdom. set_solver. }
      exists l', m', h', e'. split; [exact H|]. lia.
Qed.

Lemma complexity_levels_total (fs : list FileNode.t) :
  exists l m h e,
    distribution (complexity_levels fs) l m h e
    /\ 0 <= l /\ 0 <= m /\ 0 <= h /\ 0 <= e
    /\ l + m + h + e = len fs.
Proof.
  unfold complexity_levels.
  destruct (complexity_levels_fold fs
              (<["extreme" := 0]> (<["high" := 0]> (<["medium" := 0]> (<["low" := 0]> ∅))))
              0 0 0 0) as (l & m & h & e & H & ? & ? & ? & ? & ?); try lia.
  { constructor; rewrite ?dom_insert_L, ?lookup_insert_eq, ?lookup_insert_ne by done;
      try reflexivity; try (rewrite dom_empty_L; set_solver). }
  exists l, m, h, e. split; [exact H|]. lia.
Qed.

(** X10. The statistics of the context add up: [_update_context_statistics]
    does nothing without a context and never touches files, entities or the
    graph; with a context it sets the file count to the size of the file
    table and the line count to the sum of the files' line counts, and the
    complexity distribution has exactly the four keys low, medium, high and
    extreme, with counts that are not negative and sum to the file count.
    Version and analysis time are kept. *)
Theorem context_statistics_add_up (k : KG.t) :
  let k' := _update_context_statistics k in
  (KG.context k = None -> k' = k)
  /\ KG.files k' = KG.files k /\ KG.entities k' = KG.entities k /\ KG.graph k' = KG.graph k
  /\ (forall c, KG.context k = Some c ->
        exists c' low medium high extreme,
          KG.context k' = Some c'
          /\ ProjectContext.total_files c' = Z.of_nat (size (KG.files k))
          /\ ProjectContext.total_lines c'
             = fold_left Z.add (FileNode.line_count <$> (map_to_list (KG.files k)).*2) 0
          /\ distribution (ProjectContext.complexity_distribution c') low medium high extreme
          /\ 0 <= low /\ 0 <= medium /\ 0 <= high /\ 0 <= extreme
          /\ low + medium + high + extreme = ProjectContext.total_files c'
          /\ ProjectContext.version c' = ProjectContext.version c
          /\ ProjectContext.last_analysis c' = ProjectContext.last_analysis c).
Proof.
  intros k'. subst k'. unfold _update_context_statistics.
  destruct (KG.context k) as [c0|] eqn:Ec.
  - split; [discriminate|]. repeat (split; [reflexivity|]).
    intros c [= <-].
    destruct (complexity_levels_total (map_to_list (KG.files k)).*2)
      as (l & m & h & e & H & ? & ? & ? & ? & Hsum).
    assert (Hlen : len (map_to_list (KG.files k)).*2 = Z.of_nat (size (KG.files k))).
    { unfold len. rewrite length_fmap, length_map_to_list. reflexivity. }
    eexists _, l, m, h, e. split; [reflexivity|].
    cbn [ProjectContext.total_files ProjectContext.total_lines
         ProjectContext.complexity_distribution ProjectContext.version
         ProjectContext.last_analysis ProjectContext.set_statistics].
    split; [exact Hlen|]. split; [reflexivity|]. split; [exact H|].
    repeat split; try assumption; try reflexivity; lia.
  - split; [reflexivity|]. repeat (split; [reflexivity|]). discriminate.
Qed.

(** ** Validity of a stored graph and loading *)

Lemma cache_valid_loop_spec (w : World) (items : list (string * FileNode.t)) :
  (forall x, x ∈ items -> disk_answers w x.1) ->
  exists b, cache_valid_loop w items = Ret b
            /\ (b = true <-> forall x, x ∈ items -> not_newer w x.1 x.2).
Proof.
  induction items as [|[p fn] items IH]; intros Hd; cbn [cache_valid_loop].
  - exists true. split; [reflexivity|]. split; [|reflexivity].
    intros _ x Hx. apply elem_of_nil in Hx. contradiction.
  - destruct (Hd (p, fn)) as [b [Eb Hst]]; [left|]. simpl in Eb, Hst. rewrite Eb.
    destruct IH as [b' [Eb' Hb']]; [intros x Hx; apply Hd; right; exact Hx|].
    destruct b.
    + destruct (Hst eq_refl) as [st Est]. rewrite Est.
      destruct (Z.gtb_spec (st_mtime st) (FileNode.last_modified fn)) as [Hgt|Hle].
      * exists false. split; [reflexivity|]. split; [discriminate|].
        intros H. specialize (H (p, fn) ltac:(left) st Eb Est). simpl in H. lia.
      * exists b'. split; [exact Eb'|]. rewrite Hb'. split.
        -- intros H x Hx. apply elem_of_cons in Hx as [->|Hx]; [|apply H, Hx].
           intros st' _ Est'. simpl in *. congruence.
        -- intros H x Hx. apply H. right. exact Hx.
    + exists b'. split; [exact Eb'|]. rewrite Hb'. split.
      * intros H x Hx. apply elem_of_cons in Hx as [->|Hx]; [|apply H, Hx].
        intros st' Heb. simpl in *. congruence.
      * intros H x Hx. apply H. right. exact Hx.
Qed.

(** X5. What makes a cached graph valid: when [exists()] and [stat()] answer
    for every recorded path, [_is_cache_valid] returns, and it returns True
    exactly when no recorded file that still exists has a modification time
    later than the recorded one.  A recorded file that is gone does not make
    the graph invalid. *)
Theorem is_cache_valid_spec (w : World) (k : KG.t) :
  (forall p fn, KG.files k !! p = Some fn -> disk_answers w p) ->
  exists b, _is_cache_valid w k = Ret b
            /\ (b = true <-> forall p fn, KG.files k !! p = Some fn -> not_newer w p fn).
Proof.
  intros Hd. unfold _is_cache_valid.
  destruct (cache_valid_loop_spec w (map_to_list (KG.files k))) as [b [Eb Hb]].
  { intros [p fn] Hx. apply elem_of_map_to_list in Hx. apply (Hd p fn Hx). }
  exists b. split; [exact Eb|]. rewrite Hb. split.
  - intros H p fn Hp. apply (H (p, fn)), elem_of_map_to_list, Hp.
  - intros H [p fn] Hx. apply H, elem_of_map_to_list, Hx.
Qed.

Lemma is_cache_valid_witness :
  exists b, _is_cache_valid scenarioA_world_touched scenarioA_run.2 = Ret b
            /\ (b = true <-> forall p fn, KG.files scenarioA_run.2 !! p = Some fn ->
                                          not_newer scenarioA_world_touched p fn).
Proof.
  apply is_cache_valid_spec. intros p fn Hp.
  assert (Hdom : dom (KG.files scenarioA_run.2) = {["/proj/a.py"; "/proj/b.py"]})
    by (vm_compute; reflexivity).
  apply elem_of_dom_2 in Hp. rewrite Hdom in Hp.
  apply elem_of_union in Hp as [Hp|Hp]; apply elem_of_singleton in Hp; subst p;
    (eexists; split; [vm_compute; reflexivity|]; intros _; eexists; vm_compute; reflexivity).
Defined.

(** X6. Loading a project nothing is stored for: with no cache entry, no
    snapshot file and no project row under the identity, [load_project]
    returns [None] and leaves the manager as it was, whatever exception of
    class [Exception] the database steps raise. *)
Theorem load_project_unknown (w : World) (fx : Faults) (root : string) (use_cache : bool)
    (m : Manager.t) :
  let pid := get_project_id w m root in
  Manager.txn m = None ->
  Manager._cache m !! pid = None ->
  Manager.snapshots m !! pid = None ->
  (forall r, r ∈ DB.projects (Manager.db m) -> p_id r <> pid) ->
  fx StepSnapshotExists = None ->
  ordinary_faults fx ->
  load_project w fx root use_cache m = (Ret None, m).
Proof.
  intros pid Ht Hc Hs Hr Ex Hfx. unfold load_project, bind at 1, get. fold pid.
  assert (Hcl : (if use_cache then cache_lookup w m pid else None) = None).
  { destruct use_cache; [|reflexivity]. unfold cache_lookup. rewrite Hc. reflexivity. }
  rewrite Hcl. unfold bind at 1, step at 1. rewrite Ex.
  unfold bind at 1, load_snapshot, bind at 1, get. rewrite Hs. unfold ret at 1.
  unfold _load_from_database, try_except, with_connection, bind at 1, step at 1.
  destruct (fx StepConnect) as [e|] eqn:Econ.
  { rewrite (Hfx _ _ Econ). reflexivity. }
  assert (Hm : Manager.set_txn None m = m) by (destruct m; simpl in *; subst; reflexivity).
  rewrite Hm. unfold bind at 1, step at 1.
  destruct (fx StepSelect) as [e|] eqn:Esel.
  { unfold rollback. rewrite Hm, (Hfx _ _ Esel). reflexivity. }
  unfold bind at 1, get. unfold working. rewrite Ht.
  change (default (Manager.db m) None) with (Manager.db m).
  assert (Hfind : List.find (fun r => bool_decide (p_id r = pid)) (DB.projects (Manager.db m)) = None).
  { revert Hr. generalize (DB.projects (Manager.db m)). intros l.
    induction l as [|r l IH]; intros Hr; simpl; [reflexivity|].
    rewrite bool_decide_eq_false_2 by (apply Hr; left).
    apply IH. intros r' Hr'. apply Hr. right. exact Hr'. }
  rewrite Hfind. unfold ret, commit, working. rewrite Ht.
  change (default (Manager.db m) None) with (Manager.db m).
  f_equal. destruct m; simpl in *. subst. reflexivity.
Qed.

Lemma load_project_unknown_witness :
  load_project scenarioA_world no_faults "/proj" true fresh_manager = (Ret None, fresh_manager).
Proof.
  apply load_project_unknown; try reflexivity.
  - intros r Hr. vm_compute in Hr. apply elem_of_nil in Hr. contradiction.
  - intros s e. discriminate.
Defined.

(** ** The projects table *)

Lemma find_project_absent (pid : string) (rows : list ProjectRow) :
  (forall r, r ∈ rows -> p_id r <> pid) ->
  List.find (fun r => bool_decide (p_id r = pid)) rows = None.
Proof.
  induction rows as [|r l IH]; intros Hr; simpl; [reflexivity|].
  rewrite bool_decide_eq_false_2 by (apply Hr; left).
  apply IH. intros r' Hr'. apply Hr. right. exact Hr'.
Qed.

Lemma no_txn_set (m : Manager.t) : Manager.txn m = None -> Manager.set_txn None m = m.
Proof. destruct m; simpl; intros ->; reflexivity. Qed.

Lemma load_from_database_absent (w : World) (fx : Faults) (pid root : string) (m : Manager.t) :
  Manager.txn m = None ->
  (forall r, r ∈ DB.projects (Manager.db m) -> p_id r <> pid) ->
  ordinary_faults fx ->
  _load_from_database w fx pid root m = (Ret None, m).
Proof.
  intros Ht Hr Hfx.
  unfold _load_from_database, try_except, with_connection, bind at 1, step at 1.
  destruct (fx StepConnect) as [e|] eqn:Econ.
  { rewrite (Hfx _ _ Econ). reflexivity. }
  rewrite (no_txn_set m Ht). unfold bind at 1, step at 1.
  destruct (fx StepSelect) as [e|] eqn:Esel.
  { unfold rollback. rewrite (no_txn_set m Ht), (Hfx _ _ Esel). reflexivity. }
  unfold bind at 1, get. unfold working. rewrite Ht.
  change (default (Manager.db m) None) with (Manager.db m).
  rewrite (find_project_absent pid _ Hr). unfold ret, commit, working. rewrite Ht.
  change (default (Manager.db m) None) with (Manager.db m).
  f_equal. destruct m; simpl in *. subst. reflexivity.
Qed.

Lemma saved_db_projects (w : World) (pid : string) (c : ProjectContext.t)
    (rows : list FileRow) (k : KG.t) (d : DB.t) :
  DB.projects (saved_db w pid c rows k d) = DB.projects (replace_project w pid c d).
Proof. reflexivity. Qed.

Lemma replace_project_rows (w : World) (pid : string) (c : ProjectContext.t) (d : DB.t)
    (r : ProjectRow) :
  r ∈ DB.projects (replace_project w pid c d) ->
  (p_id r = pid /\ p_project_root r = ProjectContext.project_root c)
  \/ (r ∈ DB.projects d /\ p_id r <> pid
      /\ p_project_root r <> ProjectContext.project_root c).
Proof.
  unfold replace_project. cbn [DB.projects DB.set_projects].
  rewrite elem_of_app, list_elem_of_filter, list_elem_of_singleton.
  intros [[[H1 H2] H3]| ->]; [right; auto|left; split; reflexivity].
Qed.

(** X7. One project row per project root: after a save that returned True
    the projects table has a row with the identity saved under, and no other
    row with that identity or with the project root of the saved context;
    rows with another identity were there before.  So a project that was
    stored under another identity with the same root has lost its row, and a
    later read of it from the database finds nothing. *)
Theorem save_keeps_one_row_per_root (w : World) (fx : Faults) (k : KG.t) (m : Manager.t) :
  let pid := get_project_id w m (KG.project_root k) in
  let run := save_project w fx k m in
  run.1 = Ret true ->
  exists c,
    KG.context k = Some c
    /\ (exists r, r ∈ DB.projects (Manager.db run.2) /\ p_id r = pid)
    /\ (forall r, r ∈ DB.projects (Manager.db run.2) ->
          p_id r = pid \/ p_project_root r = ProjectContext.project_root c ->
          p_id r = pid /\ p_project_root r = ProjectContext.project_root c)
    /\ (forall r, r ∈ DB.projects (Manager.db run.2) -> p_id r <> pid ->
          r ∈ DB.projects (Manager.db m))
    /\ (forall (w' : World) (fx' : Faults) (other root' : string),
          other <> pid ->
          (forall r, r ∈ DB.projects (Manager.db m) -> p_id r = other ->
                     p_project_root r = ProjectContext.project_root c) ->
          ordinary_faults fx' ->
          (_load_from_database w' fx' other root' run.2).1 = Ret None).
Proof.
  intros pid run Hrun.
  pose proof (save_project_outcomes w fx k m run.1 run.2) as H.
  cbv zeta in H. fold pid in H. specialize (H (surjective_pairing _)).
  destruct H as [(_ & _ & _ & _ & _ & c & rows & Hc & Hrows & Hm)|[Hf _]].
  2:{ rewrite Hrun in Hf. destruct Hf as [?|[?|[e [? _]]]]; discriminate. }
  exists c. split; [exact Hc|]. rewrite Hm.
  cbn [saved_manager Manager.db Manager.set_cache Manager.set_snapshots Manager.set_txn
       Manager.set_db].
  rewrite saved_db_projects.
  split; [|split; [|split]].
  - destruct (find_project_saved w pid c rows k (Manager.db m)) as [row Hrow].
    rewrite saved_db_projects in Hrow. apply find_some in Hrow as [Hin Hid].
    exists row. split; [apply list_elem_of_In, Hin|]. apply bool_decide_eq_true in Hid. exact Hid.
  - intros r Hr Hor. apply replace_project_rows in Hr as [Hr|(_ & H1 & H2)]; [exact Hr|].
    destruct Hor; contradiction.
  - intros r Hr Hne. apply replace_project_rows in Hr as [[Hr _]|(Hr & _)]; [contradiction|exact Hr].
  - intros w' fx' other root' Hother Hsame Hfx.
    rewrite load_from_database_absent; [reflexivity|reflexivity| |exact Hfx].
    cbn [saved_manager Manager.db Manager.set_cache Manager.set_snapshots Manager.set_txn
         Manager.set_db].
    rewrite saved_db_projects. intros r Hr Hid.
    apply replace_project_rows in Hr as [[Hr _]|(Hr & _ & Hroot)]; [congruence|].
    apply Hroot, Hsame; assumption.
Qed.

Lemma save_keeps_one_row_per_root_witness :
  let run := save_project scenarioA_world no_faults scenarioA_run.2 fresh_manager in
  exists r, r ∈ DB.projects (Manager.db run.2)
            /\ p_id r = get_project_id scenarioA_world fresh_manager
                          (KG.project_root scenarioA_run.2).
Proof.
  intros run.
  destruct (save_keeps_one_row_per_root scenarioA_world no_faults scenarioA_run.2 fresh_manager)
    as (c & _ & H & _); [vm_compute; reflexivity|exact H].
Defined.

(** ** The git calls of the updater *)

Lemma get_git_file_info_cases {S : Type} (git : Git) (file_path : string) (s : S) :
  match git (git_file_log file_path) with
  | ToolAbsent => _get_git_file_info git file_path s = (Ret None, s)
  | NeverExits => _get_git_file_info git file_path s = (Hang, s)
  | Exits rc out secs =>
      if negb (rc =? 0) then _get_git_file_info git file_path s = (Ret None, s)
      else if bool_decide (strip out = "") then _get_git_file_info git file_path s = (Ret None, s)
      else match split_on pipe (strip out) with
           | [h; ts; a] =>
               match py_int ts with
               | Ret t => _get_git_file_info git file_path s = (Ret (Some (h, t, a)), s)
               | _ => _get_git_file_info git file_path s = (Ret None, s)
               end
           | _ => _get_git_file_info git file_path s = (Ret None, s)
           end
  end.
Proof.
  unfold _get_git_file_info, try_except, bind, lift_outcome, subprocess_run, git_file_log.
  destruct (git _) as [|rc out secs|]; [reflexivity| |reflexivity].
  simpl andb. destruct (negb (rc =? 0)); [reflexivity|].
  cbn [stdout]. destruct (bool_decide (strip out = "")); [reflexivity|].
  destruct (split_on pipe (strip out)) as [|h [|ts [|a [|x l]]]]; try reflexivity.
  unfold py_int.
  match goal with |- context [match ?r with Some z => Ret z | None => Raise ValueError end] =>
    destruct r end; reflexivity.
Qed.

(** X8. The per-file log on an unexpected answer: when the git log command
    exits with status 0 but its line does not split at the bar into exactly
    three fields (no commit for the path, or an author name with a bar in
    it), [_get_git_file_info] gives the empty answer and raises nothing.
    The fields of an answer that is not empty are those of the line, the
    second read as an integer. *)
Theorem get_git_file_info_malformed {S : Type} (git : Git) (file_path : string) (s : S) :
  let run := _get_git_file_info git file_path s in
  (forall out secs,
     git (git_file_log file_path) = Exits 0 out secs ->
     length (split_on pipe (strip out)) <> 3%nat ->
     run = (Ret None, s))
  /\ (forall h t a,
        run.1 = Ret (Some (h, t, a)) ->
        exists out secs ts,
          git (git_file_log file_path) = Exits 0 out secs
          /\ split_on pipe (strip out) = [h; ts; a]
          /\ py_int ts = Ret t).
Proof.
  intros run. subst run.
  pose proof (get_git_file_info_cases git file_path s) as H.
  destruct (git (git_file_log file_path)) as [|rc out secs|] eqn:Eg.
  - split; [discriminate|]. rewrite H. discriminate.
  - split.
    + intros out' secs' [= -> -> ->] Hlen. simpl in H.
      destruct (bool_decide (strip out' = "")); [exact H|].
      destruct (split_on pipe (strip out')) as [|h [|ts [|a [|x l]]]]; try exact H.
      contradiction Hlen. reflexivity.
    + intros h t a. destruct (negb (rc =? 0)) eqn:Erc; [rewrite H; discriminate|].
      destruct (bool_decide (strip out = "")); [rewrite H; discriminate|].
      destruct (split_on pipe (strip out)) as [|h' [|ts [|a' [|x l]]]] eqn:Esp;
        try (rewrite H; discriminate).
      destruct (py_int ts) as [t'|e|] eqn:Et; rewrite H; try discriminate.
      intros [= -> -> ->]. exists out, secs, ts.
      apply negb_false_iff, Z.eqb_eq in Erc. subst rc.
      split; [reflexivity|]. split; [exact Esp|exact Et].
  - split; [discriminate|]. rewrite H. discriminate.
Qed.

Lemma get_git_file_info_malformed_witness :
  _get_git_file_info (fun _ => Exits 0 "0123abc|1700000000|Ada|Lovelace" 0) "/proj/a.py" tt
  = (Ret None, tt).
Proof.
  destruct (get_git_file_info_malformed (fun _ => Exits 0 "0123abc|1700000000|Ada|Lovelace" 0)
              "/proj/a.py" tt) as [H _].
  apply (H _ _ eq_refl). vm_compute. discriminate.
Defined.

(** X9. The content-change summary: [_analyze_content_changes] changes no
    state.  For equal hashes it reports no change and asks git nothing.
    For different hashes it reports a change whose risk level is the level
    of the changed-lines count it reports (high above 100, medium above 20,
    low otherwise); it raises only [FileNotFoundError], and exactly when the
    git executable is absent; it never returns exactly when git never
    exits. *)
Theorem analyze_content_changes_outcomes {S : Type} (git : Git) (file_path old_h new_h : string)
    (s : S) :
  let run := _analyze_content_changes git file_path old_h new_h s in
  run.2 = s
  /\ (old_h = new_h -> run.1 = Ret (mkSummary false 0 None))
  /\ (old_h <> new_h ->
      (git (git_numstat file_path) = ToolAbsent <-> run.1 = Raise FileNotFoundError)
      /\ (git (git_numstat file_path) = NeverExits <-> run.1 = Hang)
      /\ (forall e, run.1 = Raise e -> e = FileNotFoundError)
      /\ (forall sm, run.1 = Ret sm ->
            content_changed sm = true
            /\ risk_level sm = Some (level_of_lines (lines_changed sm)))).
Proof.
  intros run. subst run.
  unfold _analyze_content_changes, git_numstat.
  destruct (bool_decide (old_h = new_h)) eqn:Eh.
  { apply bool_decide_eq_true in Eh. split; [reflexivity|]. split; [reflexivity|]. contradiction. }
  apply bool_decide_eq_false in Eh.
  unfold try_except, bind, lift_outcome, subprocess_run.
  destruct (git _) as [|rc out secs|]; simpl andb; cbn [stdout].
  - split; [reflexivity|]. split; [contradiction|]. intros _. cbn.
    split; [split; reflexivity|]. split; [split; discriminate|].
    split; [intros e [= <-]; reflexivity|discriminate].
  - assert (Hgoal : forall r : outcome ChangeSummary * S,
              r.2 = s ->
              (forall e, r.1 <> Raise e) -> r.1 <> Hang ->
              (forall sm, r.1 = Ret sm ->
                 content_changed sm = true
                 /\ risk_level sm = Some (level_of_lines (lines_changed sm))) ->
              r.2 = s
              /\ (old_h = new_h -> r.1 = Ret (mkSummary false 0 None))
              /\ (old_h <> new_h ->
                  (Exits rc out secs = ToolAbsent <-> r.1 = Raise FileNotFoundError)
                  /\ (Exits rc out secs = NeverExits <-> r.1 = Hang)
                  /\ (forall e, r.1 = Raise e -> e = FileNotFoundError)
                  /\ (forall sm, r.1 = Ret sm ->
                        content_changed sm = true
                        /\ risk_level sm = Some (level_of_lines (lines_changed sm))))).
    { intros r H1 H2 H3 H4. split; [exact H1|]. split; [contradiction|]. intros _.
      split; [split; [discriminate|intros H; destruct (H2 _ H)]|].
      split; [split; [discriminate|contradiction]|].
      split; [intros e H; destruct (H2 _ H)|exact H4]. }
    destruct (bool_decide (strip out = "")).
    { apply Hgoal; cbn; try discriminate; try reflexivity.
      intros sm [= <-]. split; reflexivity. }
    destruct (split_on tab (strip out)) as [|a [|d l]].
    { apply Hgoal; cbn; try discriminate; try reflexivity.
      intros sm [= <-]. split; reflexivity. }
    { apply Hgoal; cbn; try discriminate; try reflexivity.
      intros sm [= <-]. split; reflexivity. }
    destruct (numstat_field a) as [added|e|] eqn:Ea.
    + destruct (numstat_field d) as [deleted|e|] eqn:Ed.
      * apply Hgoal; cbn; try discriminate; try reflexivity.
        intros sm [= <-]. split; reflexivity.
      * assert (e = ValueError) as ->.
        { revert Ed. unfold numstat_field, py_int.
          destruct (bool_decide (d = "-")); [discriminate|].
          match goal with |- context [match ?r with Some z => Ret z | None => Raise ValueError end] =>
            destruct r end; congruence. }
        apply Hgoal; cbn; try discriminate; try reflexivity.
        intros sm [= <-]. split; reflexivity.
      * exfalso. revert Ed. unfold numstat_field, py_int.
        destruct (bool_decide (d = "-")); [discriminate|].
        match goal with |- context [match ?r with Some z => Ret z | None => Raise ValueError end] =>
          destruct r end; discriminate.
    + assert (e = ValueError) as ->.
      { revert Ea. unfold numstat_field, py_int.
        destruct (bool_decide (a = "-")); [discriminate|].
        match goal with |- context [match ?r with Some z => Ret z | None => Raise ValueError end] =>
          destruct r end; congruence. }
      apply Hgoal; cbn; try discriminate; try reflexivity.
      intros sm [= <-]. split; reflexivity.
    + exfalso. revert Ea. unfold numstat_field, py_int.
      destruct (bool_decide (a = "-")); [discriminate|].
      match goal with |- context [match ?r with Some z => Ret z | None => Raise ValueError end] =>
        destruct r end; discriminate.
  - split; [reflexivity|]. split; [contradiction|]. intros _. cbn.
    split; [split; discriminate|]. split; [split; reflexivity|].
    split; discriminate.
Qed.

(** ** The branch manager *)

Lemma get_commit_info_cases {S : Type} (w : World) (git : Git) (s : S) :
  let run := _get_commit_info w git s in
  let sentinel := (Ret ("unknown", now w, "unknown"), s) in
  match git git_head_hash with
  | ToolAbsent => run = sentinel
  | NeverExits => run = (Hang, s)
  | Exits rc1 out1 _ =>
      if negb (rc1 =? 0) then run = sentinel
      else
        match git git_head_info with
        | ToolAbsent => run = sentinel
        | NeverExits => run = (Hang, s)
        | Exits rc2 out2 _ =>
            if negb (rc2 =? 0) then run = sentinel
            else
              match split_on pipe (strip out2) with
              | [ts; a] =>
                  match py_int ts with
                  | Ret t => run = (Ret (strip out1, t, a), s)
                  | _ => run = (Raise ValueError, s)
                  end
              | _ => run = (Raise ValueError, s)
              end
        end
  end.
Proof.
  unfold _get_commit_info, try_except, bind, lift_outcome, subprocess_run,
    git_head_hash, git_head_info.
  destruct (git ["git"; "rev-parse"; "HEAD"]) as [|rc1 out1 secs1|]; [reflexivity| |reflexivity].
  simpl andb. destruct (negb (rc1 =? 0)); [reflexivity|].
  destruct (git ["git"; "log"; "-1"; "--format=%ct|%an"]) as [|rc2 out2 secs2|];
    [reflexivity| |reflexivity].
  simpl andb. destruct (negb (rc2 =? 0)); [reflexivity|]. cbn [stdout].
  destruct (split_on pipe (strip out2)) as [|ts [|a [|x l]]]; try reflexivity.
  unfold py_int.
  match goal with |- context [match ?r with Some z => Ret z | None => Raise ValueError end] =>
    destruct r end; reflexivity.
Qed.

Lemma get_commit_info_state {S : Type} (w : World) (git : Git) (s : S) :
  (_get_commit_info w git s).2 = s.
Proof.
  pose proof (get_commit_info_cases w git s) as H. cbv zeta in H.
  destruct (git git_head_hash) as [|rc1 out1 secs1|]; try (rewrite H; reflexivity).
  destruct (negb (rc1 =? 0)); try (rewrite H; reflexivity).
  destruct (git git_head_info) as [|rc2 out2 secs2|]; try (rewrite H; reflexivity).
  destruct (negb (rc2 =? 0)); try (rewrite H; reflexivity).
  destruct (split_on pipe (strip out2)) as [|ts [|a [|x l]]]; try (rewrite H; reflexivity).
  destruct (py_int ts); rewrite H; reflexivity.
Qed.

Lemma get_commit_info_any_state {S T : Type} (w : World) (git : Git) (s : S) (t : T) :
  (_get_commit_info w git s).1 = (_get_commit_info w git t).1.
Proof.
  pose proof (get_commit_info_cases w git s) as H. cbv zeta in H.
  pose proof (get_commit_info_cases w git t) as H'. cbv zeta in H'.
  destruct (git git_head_hash) as [|rc1 out1 secs1|]; try (rewrite H, H'; reflexivity).
  destruct (negb (rc1 =? 0)); try (rewrite H, H'; reflexivity).
  destruct (git git_head_info) as [|rc2 out2 secs2|]; try (rewrite H, H'; reflexivity).
  destruct (negb (rc2 =? 0)); try (rewrite H, H'; reflexivity).
  destruct (split_on pipe (strip out2)) as [|ts [|a [|x l]]]; try (rewrite H, H'; reflexivity).
  destruct (py_int ts); rewrite H, H'; reflexivity.
Qed.

Lemma update_branch_context_run (w : World) (git : Git) (branch_name : option string)
    (s : BranchMind.t) :
  let b := default (BranchMind.current_branch s) branch_name in
  match (_get_commit_info w git s).1 with
  | Ret (h, t, a) =>
      let c := BranchContext.mk b h t a (_get_branch_type b)
                 (parent_of_type (_get_branch_type b)) "active" in
      update_branch_context w git branch_name s
      = (Ret c, BranchMind.set_branch_contexts (<[b := c]> (BranchMind.branch_contexts s)) s)
  | Raise e => update_branch_context w git branch_name s = (Raise e, s)
  | Hang => update_branch_context w git branch_name s = (Hang, s)
  end.
Proof.
  intros b. pose proof (get_commit_info_state w git s) as Hs.
  destruct (_get_commit_info w git s) as [[[[h t] a]|e|] s1] eqn:E; simpl in Hs; subst s1;
    cbn [fst]; unfold update_branch_context, bind, get; rewrite E; reflexivity.
Qed.

(** X11. What a branch context records: the context [update_branch_context]
    returns is stored under the branch name it was asked for, with the type
    derived from that name, the parent develop for a feature branch, main
    for a hotfix branch and none otherwise, and status active.  Commit hash,
    time and author are those of HEAD whatever branch was named: asked for
    another name in the same state the call records the same three.  A call
    that does not return leaves the branch manager as it was, and no name
    means the current branch. *)
Theorem update_branch_context_records_head (w : World) (git : Git) (s : BranchMind.t)
    (b1 b2 : string) :
  let run1 := update_branch_context w git (Some b1) s in
  let run2 := update_branch_context w git (Some b2) s in
  (forall c1, run1.1 = Ret c1 ->
     BranchContext.branch_name c1 = b1
     /\ BranchContext.branch_type c1 = _get_branch_type b1
     /\ BranchContext.parent_branch c1 = parent_of_type (_get_branch_type b1)
     /\ BranchContext.merge_status c1 = "active"
     /\ run1.2 = BranchMind.set_branch_contexts (<[b1 := c1]> (BranchMind.branch_contexts s)) s
     /\ exists c2,
          run2.1 = Ret c2
          /\ BranchContext.commit_hash c2 = BranchContext.commit_hash c1
          /\ BranchContext.last_commit_time c2 = BranchContext.last_commit_time c1
          /\ BranchContext.author c2 = BranchContext.author c1)
  /\ ((forall c1, run1.1 <> Ret c1) -> run1.2 = s /\ run2 = run1)
  /\ update_branch_context w git None s
     = update_branch_context w git (Some (BranchMind.current_branch s)) s.
Proof.
  intros run1 run2. subst run1 run2.
  pose proof (update_branch_context_run w git (Some b1) s) as H1.
  pose proof (update_branch_context_run w git (Some b2) s) as H2.
  cbv zeta in H1, H2. simpl default in H1, H2.
  destruct (_get_commit_info w git s).1 as [[[h t] a]|e|]; rewrite H1, H2.
  - split; [|split; [|reflexivity]].
    + intros c1 [= <-]. repeat (split; [reflexivity|]). eexists. split; [reflexivity|].
      repeat split.
    + intros Hn. exfalso. eapply Hn. reflexivity.
  - split; [discriminate|]. split; [|reflexivity]. intros _. split; reflexivity.
  - split; [discriminate|]. split; [|reflexivity]. intros _. split; reflexivity.
Qed.

Lemma save_branch_project_true (w : World) (fx : Faults) (root branch : string) (k : KG.t)
    (bc : BranchContext.t) (m m' : Manager.t) :
  _save_branch_project w fx root branch k bc m = (Ret true, m') ->
  exists c rows,
    KG.context k = Some c
    /\ fx StepWriteBranchContexts = None
    /\ m' = branch_saved_manager w root branch c rows k bc m.
Proof.
  unfold _save_branch_project, try_except, bind at 1, get. unfold bind at 1, modify at 1.
  unfold bind at 1.
  set (m0 := Manager.set_get_project_id (BranchLambda root branch) m).
  destruct (save_project w fx k m0) as [o m1] eqn:Es.
  pose proof (save_project_outcomes w fx k m0 o m1) as H. cbv zeta in H.
  specialize (H Es).
  change (get_project_id w m0 (KG.project_root k)) with (branch_project_id w root branch) in H.
  destruct H as [(-> & _ & _ & _ & _ & c & rows & Hc & Hrows & ->)|[Hf _]].
  - unfold bind at 1, _save_branch_context, bind at 1, get. unfold bind at 1, step.
    destruct (fx StepWriteBranchContexts) as [e|] eqn:Ew.
    { destruct (is_Exception e); discriminate. }
    unfold bind, modify, ret. intros [= <-]. exists c, rows. auto.
  - destruct Hf as [->|[->|[e [-> He]]]]; [| |rewrite He]; unfold bind, ret, modify; discriminate.
Qed.

Lemma branch_saved_cache (w w' : World) (root branch : string) (c : ProjectContext.t)
    (rows : list FileRow) (k : KG.t) (bc : BranchContext.t) (m : Manager.t) (b : IdBinding) :
  cache_lookup w'
    (Manager.set_get_project_id b (branch_saved_manager w root branch c rows k bc m))
    (branch_project_id w root branch)
  = if now w' - now w <? Manager.cache_ttl m then Some k else None.
Proof.
  unfold cache_lookup, branch_saved_manager. simpl. rewrite !lookup_insert_eq. reflexivity.
Qed.

Lemma load_branch_project_cached (w w' : World) (fx : Faults) (root branch : string) (k : KG.t)
    (m : Manager.t) :
  branch_project_id w' root branch = branch_project_id w root branch ->
  cache_lookup w' (Manager.set_get_project_id (BranchLambda root branch) m)
               (branch_project_id w root branch) = Some k ->
  _load_branch_project w' fx root branch m
  = (Ret (Some k), Manager.set_get_project_id (Manager.get_project_id m)
                     (Manager.set_get_project_id (BranchLambda root branch) m)).
Proof.
  intros Hid Hc. unfold _load_branch_project, try_except, bind at 1, get.
  unfold bind at 1, modify at 1. unfold bind at 1, load_project, bind at 1, get.
  change (get_project_id w' (Manager.set_get_project_id (BranchLambda root branch) m) root)
    with (branch_project_id w' root branch).
  rewrite Hid, Hc. reflexivity.
Qed.

Lemma stored_if_up_to_date_cases (w : World) (fx : Faults) (root b pid : string)
    (bc : BranchContext.t) (s : BranchMind.t) o s' :
  stored_if_up_to_date w fx root b pid bc s = (o, s') ->
  (exists m', s' = BranchMind.set_memory_manager m' s)
  /\ (forall answer, o = Ret (Some answer) -> exists la, answer = UpToDate b pid la).
Proof.
  unfold stored_if_up_to_date, bind, lift_memory.
  destruct (_load_branch_project w fx root b (BranchMind.memory_manager s)) as [r m'].
  destruct r as [[k|]|e|]; try (intros [= <- <-]; split; [eauto|discriminate]).
  destruct (_is_project_up_to_date k bc); [|intros [= <- <-]; split; [eauto|discriminate]].
  destruct (KG.context k) as [c|]; intros [= <- <-]; (split; [eauto|]); [|discriminate].
  intros answer [= <-]. eauto.
Qed.

Lemma with_branch_version_context (v : string) (k : KG.t) (c : ProjectContext.t) :
  KG.context (with_branch_version v k) = Some c -> ProjectContext.version c = v.
Proof.
  unfold with_branch_version. destruct (KG.context k) as [c0|] eqn:E; simpl.
  - intros [= <-]. reflexivity.
  - rewrite E. discriminate.
Qed.

(** X12. A branch that was analysed is up to date: after
    [analyze_branch_project] answered with status analyzed, a later call for
    the same branch without [force_update], made within the cache lifetime
    while HEAD still shows a commit with the same first eight characters,
    answers with status up_to_date under the same project identity, without
    analysing again. *)
Theorem analyzed_branch_is_up_to_date (w w' : World) (git git' : Git) (fx fx' : Faults)
    (b : string) (force_update : bool) (s s1 : BranchMind.t) b' pid nf ne t h ty h' t' a' :
  analyze_branch_project w git fx (Some b) force_update s
  = (Ret (Analyzed b' pid nf ne t h ty), s1) ->
  branch_project_id w' (BranchMind.project_root s) b
  = branch_project_id w (BranchMind.project_root s) b ->
  now w' - now w < Manager.cache_ttl (BranchMind.memory_manager s1) ->
  (_get_commit_info w' git' s1).1 = Ret (h', t', a') ->
  str_upto 8 h' = str_upto 8 h ->
  b' = b /\ pid = branch_project_id w (BranchMind.project_root s) b
  /\ exists la,
       (analyze_branch_project w' git' fx' (Some b) false s1).1 = Ret (UpToDate b pid la).
Proof.
  intros Hrun Hid Httl Hci' Hh.
  revert Hrun. unfold analyze_branch_project at 1, bind at 1, get. simpl default.
  unfold bind at 1.
  pose proof (update_branch_context_run w git (Some b) s) as Hu. cbv zeta in Hu.
  simpl default in Hu.
  destruct (_get_commit_info w git s).1 as [[[hh tt0] aa]|e|] eqn:Eci; rewrite Hu;
    [|discriminate..].
  set (bc := BranchContext.mk b hh tt0 aa (_get_branch_type b)
               (parent_of_type (_get_branch_type b)) "active").
  set (s0 := BranchMind.set_branch_contexts (<[b := bc]> (BranchMind.branch_contexts s)) s).
  unfold bind at 1.
  match goal with |- (let (_, _) := ?c in _) = _ -> _ =>
    destruct c as [early s_a] eqn:Ee end.
  assert (Hearly : BranchMind.project_root s_a = BranchMind.project_root s
                   /\ forall answer, early = Ret (Some answer) ->
                        exists la, answer = UpToDate b
                                              (branch_project_id w (BranchMind.project_root s) b) la).
  { destruct force_update.
    - revert Ee. unfold ret. intros [= <- <-]. split; [reflexivity|discriminate].
    - apply stored_if_up_to_date_cases in Ee as [[m' ->] Ha]. split; [reflexivity|exact Ha]. }
  destruct Hearly as [Hroot Hans]. clear Ee.
  destruct early as [[answer|]|e|]; [|clear Hans|discriminate..].
  { destruct (Hans answer eq_refl) as [la ->]. discriminate. }
  destruct (analyze_project w 1000 (KG_init w (BranchMind.project_root s))) as [[ctx|e|] kg];
    [|discriminate..].
  set (kgv := with_branch_version (branch_version b (BranchContext.commit_hash bc)) kg).
  unfold bind at 1, lift_memory.
  destruct (_save_branch_project w fx (BranchMind.project_root s) b kgv bc
              (BranchMind.memory_manager s_a)) as [o m2] eqn:Es.
  destruct o as [[|]|e|]; try discriminate.
  apply save_branch_project_true in Es as (c & rows & Hc & _ & ->).
  unfold ret. intros [= <- <- _ _ _ Hhh _ <-].
  split; [reflexivity|]. split; [reflexivity|].
  (* the second call *)
  unfold analyze_branch_project, bind at 1, get. simpl default.
  cbn [BranchMind.project_root BranchMind.set_memory_manager BranchMind.current_branch].
  rewrite Hroot. unfold bind at 1.
  match goal with |- context [update_branch_context w' git' (Some b) ?x] => set (s1 := x) in * end.
  pose proof (update_branch_context_run w' git' (Some b) s1) as Hu1. cbv zeta in Hu1.
  simpl default in Hu1. rewrite Hci' in Hu1. rewrite Hu1.
  unfold bind at 1, stored_if_up_to_date, bind at 1, lift_memory.
  cbn [BranchMind.project_root BranchMind.set_memory_manager BranchMind.memory_manager
       BranchMind.set_branch_contexts s1].
  rewrite Hid.
  rewrite (load_branch_project_cached w w' fx' (BranchMind.project_root s) b kgv).
  2:{ exact Hid. }
  2:{ rewrite branch_saved_cache.
      destruct (Z.ltb_spec (now w' - now w) (Manager.cache_ttl (BranchMind.memory_manager s_a)));
        [reflexivity|]. exfalso. revert Httl. simpl. lia. }
  unfold _is_project_up_to_date. rewrite Hc.
  rewrite (with_branch_version_context _ kg c Hc).
  cbn [BranchContext.branch_name BranchContext.commit_hash]. unfold branch_version.
  rewrite Hh, <- Hhh. cbn [BranchContext.commit_hash bc]. rewrite String.eqb_refl.
  eexists. reflexivity.
Qed.

Lemma analyzed_branch_is_up_to_date_witness :
  let s := BranchMind.mk "/proj" fresh_manager "main" ∅ in
  let s1 := (analyze_branch_project scenarioA_world git_absent no_faults (Some "main") false s).2 in
  exists la,
    (analyze_branch_project scenarioA_world_touched git_absent no_faults (Some "main") false s1).1
    = Ret (UpToDate "main" "md5:/proj#main" la).
Proof.
  intros s s1.
  assert (H1 : (analyze_branch_project scenarioA_world git_absent no_faults (Some "main") false s).1
               = Ret (Analyzed "main" "md5:/proj#main" 2 1 2000 "unknown" "main"))
    by (vm_compute; reflexivity).
  assert (E : analyze_branch_project scenarioA_world git_absent no_faults (Some "main") false s
              = (Ret (Analyzed "main" "md5:/proj#main" 2 1 2000 "unknown" "main"), s1)).
  { subst s1.
    destruct (analyze_branch_project scenarioA_world git_absent no_faults (Some "main") false s)
      as [o s'].
    cbn [fst snd] in *. rewrite H1. reflexivity. }
  destruct (analyzed_branch_is_up_to_date scenarioA_world scenarioA_world_touched
              git_absent git_absent no_faults no_faults "main" false s s1
              "main" "md5:/proj#main" 2 1 2000 "unknown" "main" "unknown" 6000 "unknown" E)
    as (_ & _ & H).
  - vm_compute. reflexivity.
  - vm_compute. reflexivity.
  - vm_compute. reflexivity.
  - reflexivity.
  - exact H.
Defined.

(** X13. A commit line with an unexpected number of fields: when both git
    commands exit with status 0 but the line of [git log -1 --format=%ct|%an]
    does not split at the bar into exactly two fields (an author name with a
    bar in it, or no output), the commit-info query raises [ValueError],
    which is not among the exceptions it catches; so do
    [update_branch_context] and [analyze_branch_project], and the branch
    manager is left as it was. *)
Theorem malformed_commit_info_raises (w : World) (git : Git) (out1 out2 : string)
    (secs1 secs2 : Z) :
  git git_head_hash = Exits 0 out1 secs1 ->
  git git_head_info = Exits 0 out2 secs2 ->
  length (split_on pipe (strip out2)) <> 2%nat ->
  (forall (S : Type) (s : S), _get_commit_info w git s = (Raise ValueError, s))
  /\ (forall b s, update_branch_context w git b s = (Raise ValueError, s))
  /\ (forall fx b force_update s,
        analyze_branch_project w git fx b force_update s = (Raise ValueError, s)).
Proof.
  intros H1 H2 Hlen.
  assert (Hci : forall (S : Type) (s : S), _get_commit_info w git s = (Raise ValueError, s)).
  { intros S s. pose proof (get_commit_info_cases w git s) as H. cbv zeta in H.
    rewrite H1, H2 in H. simpl in H.
    destruct (split_on pipe (strip out2)) as [|ts [|a [|x l]]]; try exact H.
    contradiction Hlen. reflexivity. }
  assert (Hub : forall b s, update_branch_context w git b s = (Raise ValueError, s)).
  { intros b s. pose proof (update_branch_context_run w git b s) as H. cbv zeta in H.
    rewrite Hci in H. exact H. }
  split; [exact Hci|]. split; [exact Hub|].
  intros fx b force_update s. unfold analyze_branch_project, bind at 1, get.
  unfold bind at 1. rewrite Hub. reflexivity.
Qed.

Lemma malformed_commit_info_witness :
  update_branch_context scenarioA_world git_author_with_pipe (Some "main")
    (BranchMind.mk "/proj" fresh_manager "main" ∅)
  = (Raise ValueError, BranchMind.mk "/proj" fresh_manager "main" ∅).
Proof.
  destruct (malformed_commit_info_raises scenarioA_world git_author_with_pipe
              "0123456789abcdef" "1700000000|Ada|Lovelace" 0 0) as (_ & H & _).
  - reflexivity.
  - reflexivity.
  - vm_compute. discriminate.
  - apply H.
Defined.

Lemma size_difference_intersection (X Y : gset string) :
  size X = (size (X ∖ Y) + size (X ∩ Y))%nat.
Proof.
  assert (Hd : (X ∖ Y) ## (X ∩ Y)) by set_solver.
  rewrite <- (size_union _ _ Hd). f_equal.
  apply set_eq. intros x. destruct (decide (x ∈ Y)); set_solver.
Qed.

Lemma size_difference_intersection' (X Y : gset string) :
  size X = (size (X ∖ Y) + size (Y ∩ X))%nat.
Proof.
  rewrite (size_difference_intersection X Y). f_equal. f_equal.
  apply set_eq. intros x. set_solver.
Qed.

Lemma compare_graphs_accounted (k1 k2 : KG.t) : accounted (compare_graphs k1 k2).
Proof.
  unfold compare_graphs. constructor; cbn.
  - rewrite (size_difference_intersection' (dom (KG.files k2)) (dom (KG.files k1))). lia.
  - rewrite (size_difference_intersection (dom (KG.files k1)) (dom (KG.files k2))). lia.
  - set_solver.
  - rewrite (size_difference_intersection' (dom (KG.entities k2)) (dom (KG.entities k1))).
    rewrite (size_difference_intersection (dom (KG.entities k1)) (dom (KG.entities k2))). lia.
  - set_solver.
Qed.

Lemma load_branch_project_raises (w : World) (fx : Faults) (root b : string) (m : Manager.t)
    e m' :
  _load_branch_project w fx root b m = (Raise e, m') -> is_Exception e = false.
Proof.
  unfold _load_branch_project, try_except.
  match goal with |- (let (_, _) := ?c m in _) = _ -> _ => destruct (c m) as [r m1] end.
  destruct r as [v|e0|]; try discriminate.
  destruct (is_Exception e0) eqn:Ex; [discriminate|]. intros [= <- _]. exact Ex.
Qed.

Lemma compare_branches_run (w : World) (fx : Faults) (b1 b2 : string)
    (s : BranchMind.t) :
  let run := compare_branches w fx b1 b2 s in
  (forall e, run.1 = Raise e -> is_Exception e = false)
  /\ BranchMind.project_root run.2 = BranchMind.project_root s
  /\ BranchMind.current_branch run.2 = BranchMind.current_branch s
  /\ BranchMind.branch_contexts run.2 = BranchMind.branch_contexts s
  /\ (forall c, run.1 = Ret (Some c) ->
        accounted c
        /\ exists k1 k2,
             c = compare_graphs k1 k2
             /\ modified c = Z.of_nat (size (dom (KG.files k1) ∩ dom (KG.files k2)))).
Proof.
  intros run. subst run.
  assert (Hshape : compare_branches w fx b1 b2 s =
            match _load_branch_project w fx (BranchMind.project_root s) b1
                    (BranchMind.memory_manager s) with
            | (Ret g1, m1) =>
                match _load_branch_project w fx (BranchMind.project_root s) b2 m1 with
                | (Ret g2, m2) =>
                    (Ret match g1, g2 with
                         | Some k1, Some k2 => Some (compare_graphs k1 k2)
                         | _, _ => None
                         end, BranchMind.set_memory_manager m2 s)
                | (Raise e, m2) => (Raise e, BranchMind.set_memory_manager m2 s)
                | (Hang, m2) => (Hang, BranchMind.set_memory_manager m2 s)
                end
            | (Raise e, m1) => (Raise e, BranchMind.set_memory_manager m1 s)
            | (Hang, m1) => (Hang, BranchMind.set_memory_manager m1 s)
            end).
  { unfold compare_branches, bind, get, lift_memory, ret.
    destruct (_load_branch_project w fx (BranchMind.project_root s) b1
                (BranchMind.memory_manager s)) as [[g1|e|] m1]; try reflexivity.
    cbn [BranchMind.memory_manager BranchMind.set_memory_manager].
    destruct (_load_branch_project w fx (BranchMind.project_root s) b2 m1) as [[g2|e|] m2];
      try reflexivity.
    destruct g1, g2; reflexivity. }
  rewrite Hshape. clear Hshape.
  destruct (_load_branch_project w fx (BranchMind.project_root s) b1
              (BranchMind.memory_manager s)) as [[g1|e|] m1] eqn:E1.
  - destruct (_load_branch_project w fx (BranchMind.project_root s) b2 m1)
      as [[g2|e|] m2] eqn:E2.
    + split; [discriminate|]. repeat (split; [reflexivity|]).
      intros c. destruct g1 as [k1|], g2 as [k2|]; try discriminate.
      intros [= <-]. split; [apply compare_graphs_accounted|]. exists k1, k2. split; reflexivity.
    + split; [intros ? [= <-]; apply (load_branch_project_raises _ _ _ _ _ _ _ E2)|].
      repeat (split; [reflexivity|]). discriminate.
    + split; [discriminate|]. repeat (split; [reflexivity|]). discriminate.
  - split; [intros ? [= <-]; apply (load_branch_project_raises _ _ _ _ _ _ _ E1)|].
    repeat (split; [reflexivity|]). discriminate.
  - split; [discriminate|]. repeat (split; [reflexivity|]). discriminate.
Qed.

(** X14. The comparison of two branches.  [compare_branches] lets no
    exception of class [Exception] out and changes nothing of the branch
    manager but its memory manager.  In an answer with status success the
    added and the removed files are disjoint, the count called modified is
    the number of paths the two graphs share, whether their content differs
    or not, and the totals are the sum of that count and the added or
    removed files; entities are counted the same way.  A graph compared
    with itself has no added and no removed file, and all its files count
    as modified. *)
Theorem compare_branches_accounting (w : World) (fx : Faults) (b1 b2 : string)
    (s : BranchMind.t) :
  let run := compare_branches w fx b1 b2 s in
  (forall e, run.1 = Raise e -> is_Exception e = false)
  /\ BranchMind.project_root run.2 = BranchMind.project_root s
  /\ BranchMind.current_branch run.2 = BranchMind.current_branch s
  /\ BranchMind.branch_contexts run.2 = BranchMind.branch_contexts s
  /\ (forall c, run.1 = Ret (Some c) ->
        accounted c
        /\ exists k1 k2,
             c = compare_graphs k1 k2
             /\ modified c = Z.of_nat (size (dom (KG.files k1) ∩ dom (KG.files k2))))
  /\ (forall k,
        added_files (compare_graphs k k) = ∅
        /\ removed_files (compare_graphs k k) = ∅
        /\ modified (compare_graphs k k) = Z.of_nat (size (KG.files k))).
Proof.
  intros run. destruct (compare_branches_run w fx b1 b2 s) as (H1 & H2 & H3 & H4 & H5).
  split; [exact H1|]. split; [exact H2|]. split; [exact H3|]. split; [exact H4|].
  split; [exact H5|]. intros k. unfold compare_graphs.
  cbn [added_files removed_files modified]. split; [set_solver|]. split; [set_solver|].
  replace (dom (KG.files k) ∩ dom (KG.files k)) with (dom (KG.files k)) by set_solver.
  rewrite size_dom. reflexivity.
Qed.

Lemma analyze_branch_project_frame (w : World) (git : Git) (fx : Faults) (b : option string)
    (force_update : bool) (s : BranchMind.t) o s' :
  analyze_branch_project w git fx b force_update s = (o, s') ->
  BranchMind.current_branch s' = BranchMind.current_branch s
  /\ BranchMind.project_root s' = BranchMind.project_root s.
Proof.
  unfold analyze_branch_project, bind at 1, get. unfold bind at 1.
  set (bn := default (BranchMind.current_branch s) b).
  pose proof (update_branch_context_run w git (Some bn) s) as Hu. cbv zeta in Hu.
  simpl default in Hu.
  destruct (_get_commit_info w git s).1 as [[[hh tt0] aa]|e|]; rewrite Hu;
    [|intros [= <- <-]; split; reflexivity..].
  unfold bind at 1.
  match goal with |- (let (_, _) := ?c in _) = _ -> _ =>
    destruct c as [early s_a] eqn:Ee end.
  assert (Hearly : BranchMind.current_branch s_a = BranchMind.current_branch s
                   /\ BranchMind.project_root s_a = BranchMind.project_root s).
  { destruct force_update.
    - revert Ee. unfold ret. intros [= <- <-]. split; reflexivity.
    - apply stored_if_up_to_date_cases in Ee as [[m' ->] _]. split; reflexivity. }
  clear Ee. destruct Hearly as [H1 H2].
  destruct early as [[answer|]|e|]; try (intros [= <- <-]; split; assumption).
  destruct (analyze_project w 1000 (KG_init w (BranchMind.project_root s))) as [[ctx|e|] kg];
    try (intros [= <- <-]; split; assumption).
  unfold bind, lift_memory.
  match goal with |- context [_save_branch_project ?x1 ?x2 ?x3 ?x4 ?x5 ?x6 ?x7] =>
    destruct (_save_branch_project x1 x2 x3 x4 x5 x6 x7) as [[[|]|e|] m2] end;
    intros [= <- <-]; split; assumption.
Qed.

Lemma switch_to_branch_cases (w : World) (git git' : Git) (fx : Faults) (target : string)
    (s : BranchMind.t) :
  switch_to_branch_analysis w git git' fx target s =
  match git ["git"; "show-ref"; "refs/heads/" +:+ target] with
  | ToolAbsent => (Raise FileNotFoundError, s)
  | NeverExits => (Hang, s)
  | Exits rc _ _ =>
      if negb (rc =? 0) then (Ret (BranchMissing target), s)
      else
        match git ["git"; "checkout"; target] with
        | ToolAbsent => (Raise FileNotFoundError, s)
        | NeverExits => (Hang, s)
        | Exits rc2 _ _ =>
            if negb (rc2 =? 0) then (Ret (CheckoutFailed target), s)
            else
              match analyze_branch_project w git' fx (Some target) true
                      (BranchMind.set_current_branch target s) with
              | (Raise e, s') =>
                  if one_of [CalledProcessError] e then (Ret (CheckoutFailed target), s')
                  else (Raise e, s')
              | r => r
              end
        end
  end.
Proof.
  unfold switch_to_branch_analysis, try_except, bind, lift_outcome, subprocess_run, modify, ret.
  destruct (git ["git"; "show-ref"; "refs/heads/" +:+ target]) as [|rc out secs|];
    [reflexivity| |reflexivity].
  simpl andb. cbn [returncode]. destruct (negb (rc =? 0)); [reflexivity|].
  destruct (git ["git"; "checkout"; target]) as [|rc2 out2 secs2|]; [reflexivity| |reflexivity].
  simpl andb. destruct (negb (rc2 =? 0)); [reflexivity|].
  destruct (analyze_branch_project w git' fx (Some target) true
              (BranchMind.set_current_branch target s)) as [[r|e|] s2]; reflexivity.
Qed.

(** X21. Switching to a branch.  Without git the call raises
    [FileNotFoundError]; a [show-ref] that exits with a non-zero status
    gives the answer that the branch does not exist, and nothing is checked
    out; a checkout that exits with a non-zero status gives the switch-failed
    answer; in all these cases the branch manager is left as it was.  After
    a checkout that succeeded the current branch is the target, and the
    answer is that of a forced analysis of the target branch.  The project
    root never changes. *)
Theorem switch_to_branch_outcomes (w : World) (git git' : Git) (fx : Faults)
    (target : string) (s : BranchMind.t) :
  let run := switch_to_branch_analysis w git git' fx target s in
  let show_ref := git ["git"; "show-ref"; "refs/heads/" +:+ target] in
  let checkout := git ["git"; "checkout"; target] in
  BranchMind.project_root run.2 = BranchMind.project_root s
  /\ (show_ref = ToolAbsent -> run = (Raise FileNotFoundError, s))
  /\ (forall rc out secs, show_ref = Exits rc out secs -> rc <> 0 ->
        run = (Ret (BranchMissing target), s))
  /\ (forall out secs, show_ref = Exits 0 out secs ->
        (checkout = ToolAbsent -> run = (Raise FileNotFoundError, s))
        /\ (forall rc out2 secs2, checkout = Exits rc out2 secs2 -> rc <> 0 ->
              run = (Ret (CheckoutFailed target), s))
        /\ (forall out2 secs2, checkout = Exits 0 out2 secs2 ->
              BranchMind.current_branch run.2 = target
              /\ forall answer,
                   (analyze_branch_project w git' fx (Some target) true
                      (BranchMind.set_current_branch target s)).1 = Ret answer ->
                   run.1 = Ret answer)).
Proof.
  intros run show_ref checkout. subst run show_ref checkout.
  rewrite switch_to_branch_cases.
  destruct (git ["git"; "show-ref"; "refs/heads/" +:+ target]) as [|rc out secs|].
  - split; [reflexivity|]. split; [reflexivity|]. split; discriminate.
  - destruct (Z.eqb_spec rc 0) as [->|Hrc]; cbn [negb].
    + destruct (git ["git"; "checkout"; target]) as [|rc2 out2 secs2|].
      * split; [reflexivity|]. split; [discriminate|]. split; [intros ? ? ? [= <- _ _] Hn; contradiction|].
        intros _ _ _. split; [reflexivity|]. split; discriminate.
      * destruct (Z.eqb_spec rc2 0) as [->|Hrc2]; cbn [negb].
        -- destruct (analyze_branch_project w git' fx (Some target) true
                       (BranchMind.set_current_branch target s)) as [r s2] eqn:Ea.
           apply analyze_branch_project_frame in Ea as [Hcb Hroot].
           assert (Hrest : forall (run : outcome BranchResult * BranchMind.t),
                     run.2 = s2 -> (forall answer, r = Ret answer -> run.1 = Ret answer) ->
                     BranchMind.project_root run.2 = BranchMind.project_root s
                     /\ (Exits 0 out secs = ToolAbsent -> run = (Raise FileNotFoundError, s))
                     /\ (forall rc out0 secs0, Exits 0 out secs = Exits rc out0 secs0 -> rc <> 0 ->
                           run = (Ret (BranchMissing target), s))
                     /\ (forall out0 secs0, Exits 0 out secs = Exits 0 out0 secs0 ->
                           (Exits 0 out2 secs2 = ToolAbsent -> run = (Raise FileNotFoundError, s))
                           /\ (forall rc out3 secs3, Exits 0 out2 secs2 = Exits rc out3 secs3 ->
                                 rc <> 0 -> run = (Ret (CheckoutFailed target), s))
                           /\ (forall out3 secs3, Exits 0 out2 secs2 = Exits 0 out3 secs3 ->
                                 BranchMind.current_branch run.2 = target
                                 /\ forall answer, (r, s2).1 = Ret answer -> run.1 = Ret answer))).
           { intros run Hs Hr. rewrite Hs. split; [exact Hroot|]. split; [discriminate|].
             split; [intros ? ? ? [= <- _ _] Hn; contradiction|].
             intros _ _ _. split; [discriminate|].
             split; [intros ? ? ? [= <- _ _] Hn; contradiction|].
             intros _ _ _. split; [exact Hcb|]. exact Hr. }
           destruct r as [answer|e|].
           ++ apply Hrest; [reflexivity|auto].
           ++ destruct (one_of [CalledProcessError] e); apply Hrest;
                try reflexivity; discriminate.
           ++ apply Hrest; [reflexivity|discriminate].
        -- split; [reflexivity|]. split; [discriminate|].
           split; [intros ? ? ? [= <- _ _] Hn; contradiction|].
           intros _ _ _. split; [discriminate|]. split; [reflexivity|].
           intros ? ? [= -> _ _]. contradiction.
      * split; [reflexivity|]. split; [discriminate|].
        split; [intros ? ? ? [= <- _ _] Hn; contradiction|].
        intros _ _ _. split; [discriminate|]. split; discriminate.
    + split; [reflexivity|]. split; [discriminate|]. split; [reflexivity|].
      intros ? ? [= -> _ _]. contradiction.
  - split; [reflexivity|]. split; [discriminate|]. split; discriminate.
Qed.

(** ** The incremental analysis *)

Lemma fresh_node_weaken w root f l p fn :
  fresh_node w root l p fn -> fresh_node w root (f :: l) p fn.
Proof.
  intros (H1 & H2 & H3 & H4 & g & Hg & H5). repeat split; try assumption.
  exists g. split; [right; exact Hg|exact H5].
Qed.

Lemma analyze_changed_loop_adds (w : World) (changed_files : list string) :
  forall c k o k',
    analyze_changed_loop w changed_files c k = (o, k') ->
    KG.project_root k' = KG.project_root k
    /\ KG.graph k' = KG.graph k
    /\ KG.context k' = KG.context k
    /\ dom (KG.entities k) ⊆ dom (KG.entities k')
    /\ dom (KG.files k) ⊆ dom (KG.files k')
    /\ (forall p fn, KG.files k' !! p = Some fn ->
          KG.files k !! p = Some fn
          \/ fresh_node w (KG.project_root k) changed_files p fn)
    /\ (forall n, o = Ret n -> c <= n <= c + len changed_files).
Proof.
  induction changed_files as [|f rest IH]; intros c k o k'; cbn [analyze_changed_loop].
  - intros [= <- <-]. do 3 (split; [reflexivity|]). do 2 (split; [set_solver|]).
    split; [auto|]. intros n [= <-]. unfold len. simpl. lia.
  - assert (Hlen : len (f :: rest) = len rest + 1) by (unfold len; simpl length; lia).
    unfold bind at 1, get. unfold bind at 1, lift_outcome.
    set (full := joinpath w (KG.project_root k) f).
    assert (Hskip : forall c1 k1 o1 k1',
              (KG.project_root k1 = KG.project_root k /\ KG.graph k1 = KG.graph k
               /\ KG.context k1 = KG.context k
               /\ dom (KG.entities k) ⊆ dom (KG.entities k1)) ->
              c <= c1 <= c + 1 ->
              (forall p fn, KG.files k1 !! p = Some fn ->
                 KG.files k !! p = Some fn
                 \/ fresh_node w (KG.project_root k) (f :: rest) p fn) ->
              dom (KG.files k) ⊆ dom (KG.files k1) ->
              analyze_changed_loop w rest c1 k1 = (o1, k1') ->
              KG.project_root k1' = KG.project_root k
              /\ KG.graph k1' = KG.graph k
              /\ KG.context k1' = KG.context k
              /\ dom (KG.entities k) ⊆ dom (KG.entities k1')
              /\ dom (KG.files k) ⊆ dom (KG.files k1')
              /\ (forall p fn, KG.files k1' !! p = Some fn ->
                    KG.files k !! p = Some fn
                    \/ fresh_node w (KG.project_root k) (f :: rest) p fn)
              /\ (forall n, o1 = Ret n -> c <= n <= c + len (f :: rest))).
    { intros c1 k1 o1 k1' (G1 & G2 & G4 & G5) Hc Hfiles Hdom H.
      apply IH in H as (R1 & R2 & R3 & R4 & R5 & R6 & R7).
      split; [congruence|]. split; [congruence|]. split; [congruence|].
      split; [set_solver|]. split; [set_solver|]. split.
      - intros p fn Hp. destruct (R6 p fn Hp) as [Hp'|Hp'].
        + apply Hfiles, Hp'.
        + right. rewrite G1 in Hp'. apply fresh_node_weaken, Hp'.
      - intros n Hn. specialize (R7 n Hn). lia. }
    destruct (path_exists w full) as [on_disk|e|] eqn:Eex;
      [|intros [= <- <-]; do 3 (split; [reflexivity|]); do 2 (split; [set_solver|]);
        (split; [auto|discriminate])..].
    destruct (on_disk && is_file w full) eqn:Eboth.
    2:{ apply Hskip; [repeat split; set_solver|lia|auto|set_solver]. }
    apply andb_true_iff in Eboth as [-> Efile].
    unfold bind at 1.
    destruct (_analyze_single_file w full k) as [r k1] eqn:Ea.
    apply analyze_single_file_node in Ea as (Hg & _ & Hnode & _).
    destruct r as [[fn|]|e|];
      [| |intros [= <- <-]; destruct Hg as (G1 & G2 & G3 & G4 & G5);
          do 3 (split; [assumption|]); (split; [assumption|]);
          (split; [rewrite G3; set_solver|]);
          (split; [intros p fn; rewrite G3; auto|discriminate])..].
    + destruct (Hnode fn eq_refl) as (content & st & language & _ & _ & _ & Hh).
      injection Hh as Hpath _ _ _ _ _ _ Hrisk _.
      unfold bind at 1, modify at 1. apply Hskip.
      * destruct Hg as (G1 & G2 & G3 & G4 & G5). repeat split; assumption.
      * lia.
      * intros p fn0. cbn [KG.files KG.set_files]. destruct Hg as (G1 & G2 & G3 & G4 & G5).
        rewrite G3, Hpath. destruct (decide (p = full)) as [->|Hne].
        -- rewrite lookup_insert_eq. intros [= <-]. right.
           split; [exact Hpath|]. split; [exact Hrisk|]. split; [exact Eex|].
           split; [exact Efile|]. exists f. split; [left|reflexivity].
        -- rewrite lookup_insert_ne by congruence. auto.
      * cbn [KG.files KG.set_files]. destruct Hg as (G1 & G2 & G3 & G4 & G5).
        rewrite G3, dom_insert_L. set_solver.
    + apply Hskip; [destruct Hg as (G1 & G2 & G3 & G4 & G5); repeat split; assumption|lia| |].
      * destruct Hg as (G1 & G2 & G3 & G4 & G5). intros p fn. rewrite G3. auto.
      * destruct Hg as (G1 & G2 & G3 & G4 & G5). rewrite G3. set_solver.
Qed.

Lemma graph_only_refl k : graph_only k k.
Proof. destruct k; reflexivity. Qed.

Lemma graph_only_trans k1 k2 k3 : graph_only k1 k2 -> graph_only k2 k3 -> graph_only k1 k3.
Proof. unfold graph_only. intros H1 H2. rewrite H2, H1. destruct k1; reflexivity. Qed.

Lemma graph_only_set g k : graph_only k (KG.set_graph g k).
Proof. destruct k; reflexivity. Qed.

Lemma add_import_edge_graph_only (w : World) (p i : string) s o s' :
  add_import_edge w p i s = (o, s') -> graph_only s.1 s'.1.
Proof.
  destruct s as [k n]. unfold add_import_edge.
  destruct (_resolve_import w i p) as [[t|]|e|];
    try (intros [= <- <-]; apply graph_only_refl).
  destruct (negb _ && _); intros [= <- <-]; [apply graph_only_set|apply graph_only_refl].
Qed.

Lemma import_edges_graph_only (w : World) (p : string) (imports : list string) :
  forall s o s', for_each imports (add_import_edge w p) s = (o, s') -> graph_only s.1 s'.1.
Proof.
  induction imports as [|i imports IH]; intros s o s'; cbn [for_each].
  - intros [= <- <-]. apply graph_only_refl.
  - unfold bind. destruct (add_import_edge w p i s) as [r s1] eqn:E.
    apply add_import_edge_graph_only in E.
    destruct r as [[]|e|]; [|intros [= <- <-]; exact E..].
    intros H. apply IH in H. eapply graph_only_trans; eassumption.
Qed.

Lemma build_file_graph_only (w : World) (entry : string * FileNode.t) s o s' :
  build_file w entry s = (o, s') -> graph_only s.1 s'.1.
Proof.
  destruct entry as [p fn]. destruct s as [k n]. unfold build_file, bind at 1, modify at 1.
  unfold bind at 1.
  match goal with |- (let (_, _) := for_each _ _ ?s0 in _) = _ -> _ =>
    destruct (for_each (FileNode.imports fn) (add_import_edge w p) s0) as [r s1] eqn:E
  end.
  apply import_edges_graph_only in E. cbn [fst] in E.
  assert (E' : graph_only k s1.1).
  { eapply graph_only_trans; [apply graph_only_set|exact E]. }
  destruct r as [[]|e|]; [|intros [= <- <-]; exact E'..].
  unfold modify. destruct s1 as [k1 n1]. intros [= <- <-]. cbn [fst] in *.
  eapply graph_only_trans; [exact E'|apply graph_only_set].
Qed.

Lemma build_files_graph_only (w : World) (entries : list (string * FileNode.t)) :
  forall s o s', for_each entries (build_file w) s = (o, s') -> graph_only s.1 s'.1.
Proof.
  induction entries as [|x entries IH]; intros s o s'; cbn [for_each].
  - intros [= <- <-]. apply graph_only_refl.
  - unfold bind. destruct (build_file w x s) as [r s1] eqn:E.
    apply build_file_graph_only in E.
    destruct r as [[]|e|]; [|intros [= <- <-]; exact E..].
    intros H. apply IH in H. eapply graph_only_trans; eassumption.
Qed.

Lemma build_dependency_graph_only (w : World) (k : KG.t) o k' :
  _build_dependency_graph w k = (o, k') -> graph_only k k'.
Proof.
  unfold _build_dependency_graph.
  destruct (for_each _ (build_file w) (k, 0)) as [r [k1 n]] eqn:E.
  apply build_files_graph_only in E. cbn [fst] in E.
  destruct r; intros [= <- <-]; exact E.
Qed.

Lemma only_added_same (w : World) (changed_files : list string) (k k' : KG.t) :
  graph_wf (KG.graph k) ->
  KG.project_root k' = KG.project_root k -> KG.graph k' = KG.graph k ->
  KG.files k' = KG.files k -> KG.entities k' = KG.entities k ->
  only_added w changed_files k k'.
Proof.
  intros Hwf H1 H2 H3 H4. constructor; rewrite ?H1, ?H2, ?H3, ?H4.
  - reflexivity.
  - set_solver.
  - set_solver.
  - apply graph_grew_refl, Hwf.
  - auto.
Qed.

Lemma analyze_changed_files_run (w : World) (changed_files : list string) (k : KG.t) o k' :
  graph_wf (KG.graph k) ->
  analyze_changed_files w changed_files k = (o, k') ->
  only_added w changed_files k k'
  /\ (forall c, o = Ret c ->
        exists c', c = Some c' /\ KG.context k' = Some c'
                   /\ ProjectContext.total_files c' = Z.of_nat (size (KG.files k'))).
Proof.
  intros Hwf. unfold analyze_changed_files, bind at 1, get. unfold bind at 1.
  set (first := match KG.context k with
                | Some _ => ret tt
                | None => let* context := lift_outcome (detect_context w (KG.project_root k)) in
                          modify (KG.set_context (Some context))
                end).
  destruct (first k) as [r0 k0] eqn:E0.
  assert (H0 : KG.project_root k0 = KG.project_root k /\ KG.graph k0 = KG.graph k
               /\ KG.files k0 = KG.files k /\ KG.entities k0 = KG.entities k
               /\ (r0 = Ret tt -> is_Some (KG.context k0))).
  { revert E0. unfold first. destruct (KG.context k) as [c|] eqn:Ec.
    - unfold ret. intros [= <- <-]. rewrite Ec. repeat split; eauto.
    - unfold bind, lift_outcome, modify.
      destruct (detect_context w (KG.project_root k)) as [c|e|]; intros [= <- <-];
        repeat split; try discriminate. simpl. eauto. }
  destruct H0 as (R0 & G0 & F0 & N0 & C0). clear E0.
  destruct r0 as [[]|e|];
    [|intros [= <- <-]; split; [apply only_added_same; assumption|discriminate]..].
  specialize (C0 eq_refl). unfold bind at 1.
  destruct (analyze_changed_loop w changed_files 0 k0) as [r1 k1] eqn:E1.
  apply analyze_changed_loop_adds in E1 as (R1 & G1 & C1 & N1 & D1 & F1 & _).
  rewrite R0 in R1, F1. rewrite G0 in G1. rewrite F0 in D1, F1. rewrite N0 in N1.
  destruct r1 as [n|e|];
    [|intros [= <- <-];
      split; [constructor; rewrite ?G1; try assumption; apply graph_grew_refl, Hwf
             |discriminate]..].
  unfold bind at 1.
  destruct (_build_dependency_graph w k1) as [r2 k2] eqn:E2.
  pose proof (build_dependency_graph_only w k1 r2 k2 E2) as Hgo.
  apply build_dependency_graph_grows in E2 as (G2 & _); [|rewrite G1; exact Hwf].
  rewrite G1 in G2.
  assert (Hk2 : KG.project_root k2 = KG.project_root k /\ KG.files k2 = KG.files k1
                /\ KG.entities k2 = KG.entities k1 /\ KG.context k2 = KG.context k0).
  { rewrite Hgo. cbn. auto. }
  destruct Hk2 as (R2 & F2 & N2 & C2).
  assert (Hadded : forall k3, KG.project_root k3 = KG.project_root k2 ->
                     KG.files k3 = KG.files k2 -> KG.entities k3 = KG.entities k2 ->
                     KG.graph k3 = KG.graph k2 ->
                     only_added w changed_files k k3).
  { intros k3 H1 H2 H3 H4. constructor; rewrite ?H1, ?H2, ?H3, ?H4, ?F2, ?N2; assumption. }
  destruct r2 as [n2|e|];
    [|intros [= <- <-]; split; [apply Hadded; reflexivity|discriminate]..].
  unfold bind, modify, get, ret. intros [= <- <-].
  destruct C0 as [c0 Hc0]. rewrite <- C2 in Hc0.
  split.
  - apply Hadded; unfold _update_context_statistics; rewrite Hc0; reflexivity.
  - intros c [= <-]. unfold _update_context_statistics. rewrite Hc0.
    eexists. split; [reflexivity|]. split; [reflexivity|]. cbn.
    unfold len. rewrite length_fmap, length_map_to_list. reflexivity.
Qed.

(** X16. The incremental analysis only adds: [analyze_changed_files] keeps
    the project root, every file, every entity key and every node and edge
    of the graph; a file node of the table afterwards is the one that was
    there, or the node of a listed path that exists below the project root
    as a regular file, and such a node has risk score 0, since no risk
    scoring runs here.  When it returns, it returns the context of the graph
    object, whose file count is the size of the file table. *)
Theorem analyze_changed_files_only_adds (w : World) (changed_files : list string) (k : KG.t) :
  graph_wf (KG.graph k) ->
  let run := analyze_changed_files w changed_files k in
  only_added w changed_files k run.2
  /\ (forall c, run.1 = Ret c ->
        exists c', c = Some c' /\ KG.context run.2 = Some c'
                   /\ ProjectContext.total_files c' = Z.of_nat (size (KG.files run.2))).
Proof.
  intros Hwf run. apply (analyze_changed_files_run w changed_files k run.1 run.2 Hwf).
  apply surjective_pairing.
Qed.

Lemma analyze_changed_files_only_adds_witness :
  let k := KG_init scenarioA_world "/proj" in
  only_added scenarioA_world ["a.py"] k (analyze_changed_files scenarioA_world ["a.py"] k).2.
Proof.
  intros k.
  destruct (analyze_changed_files_only_adds scenarioA_world ["a.py"] k empty_graph_wf)
    as [H _].
  exact H.
Defined.

(** ** The incremental update *)

Lemma incremental_loop_unchanged (w : World) (items : list (string * FileNode.t)) :
  forall b k,
    cache_valid_loop w items = Ret true ->
    incremental_loop w items b k = (Ret b, k).
Proof.
  induction items as [|[p fn] items IH]; intros b k; cbn [cache_valid_loop incremental_loop].
  - reflexivity.
  - unfold bind at 1, lift_outcome at 1.
    destruct (path_exists w p) as [[|]|e|]; try discriminate.
    + unfold bind at 1, lift_outcome at 1.
      destruct (stat w p) as [st|e|]; try discriminate.
      destruct (st_mtime st >? FileNode.last_modified fn); [discriminate|]. apply IH.
    + apply IH.
Qed.

Lemma incremental_loop_detects (w : World) (items : list (string * FileNode.t)) :
  forall b k o k',
    incremental_loop w items b k = (o, k') ->
    o = Ret true -> b = true \/ cache_valid_loop w items = Ret false.
Proof.
  induction items as [|[p fn] items IH]; intros b k o k';
    cbn [cache_valid_loop incremental_loop].
  - intros [= <- <-] [= ->]. auto.
  - unfold bind at 1, lift_outcome at 1.
    destruct (path_exists w p) as [[|]|e|]; try (intros [= <- <-]; discriminate).
    + unfold bind at 1, lift_outcome at 1.
      destruct (stat w p) as [st|e|]; try (intros [= <- <-]; discriminate).
      destruct (st_mtime st >? FileNode.last_modified fn); [auto|]. apply IH.
    + apply IH.
Qed.

(** X15. The incremental update of a project without changes on disk: when
    the stored graph loads and none of its recorded files is newer on disk,
    [update_project_incremental] returns True and writes nothing; the
    manager is left as the load left it.  Whenever the update leaves the
    manager in another state, some recorded file was newer on disk. *)
Theorem update_project_incremental_unchanged (w : World) (fx : Faults) (root : string)
    (m m1 : Manager.t) (k : KG.t) :
  load_project w fx root true m = (Ret (Some k), m1) ->
  (_is_cache_valid w k = Ret true ->
   update_project_incremental w fx root m = (Ret true, m1))
  /\ (forall o m2, update_project_incremental w fx root m = (o, m2) ->
        m2 <> m1 -> _is_cache_valid w k = Ret false).
Proof.
  intros Hload. unfold update_project_incremental, bind. rewrite Hload. split.
  - intros Hv. unfold _is_cache_valid in Hv.
    rewrite (incremental_loop_unchanged w _ false k Hv). reflexivity.
  - intros o m2.
    destruct (incremental_loop w (map_to_list (KG.files k)) false k) as [r k1] eqn:E.
    destruct r as [[|]|e|]; try (unfold ret, raise, lift_outcome; intros [= <- <-] Hn;
                                 contradiction).
    intros _ _. destruct (incremental_loop_detects w _ _ _ _ _ E eq_refl) as [H|H];
      [discriminate|exact H].
Qed.

Lemma update_project_incremental_unchanged_witness :
  let m := (save_project scenarioA_world no_faults scenarioA_run.2 fresh_manager).2 in
  update_project_incremental scenarioA_world no_faults "/proj" m = (Ret true, m).
Proof.
  intros m.
  assert (H1 : (load_project scenarioA_world no_faults "/proj" true m).1
               = Ret (Some scenarioA_run.2)) by (vm_compute; reflexivity).
  assert (H2 : (load_project scenarioA_world no_faults "/proj" true m).2 = m)
    by (vm_compute; reflexivity).
  assert (E : load_project scenarioA_world no_faults "/proj" true m
              = (Ret (Some scenarioA_run.2), m)).
  { destruct (load_project scenarioA_world no_faults "/proj" true m) as [o m'].
    cbn [fst snd] in *. rewrite H1, H2. reflexivity. }
  destruct (update_project_incremental_unchanged scenarioA_world no_faults "/proj" m m
              scenarioA_run.2 E) as [H _].
  apply H. vm_compute. reflexivity.
Defined.

(** ** The watcher filter *)

Lemma in_strings_In (x : string) (l : list string) : in_strings x l = true <-> In x l.
Proof.
  unfold in_strings. rewrite existsb_exists. split.
  - intros [y [Hy He]]. apply String.eqb_eq in He. subst. exact Hy.
  - intros H. exists x. split; [exact H|apply String.eqb_refl].
Qed.

Lemma assoc_get_In {V} (k : string) (l : list (string * V)) v :
  assoc_get k l = Some v -> In k l.*1.
Proof.
  induction l as [|[k' v'] l IH]; simpl; [discriminate|].
  destruct (String.eqb_spec k k') as [->|Hne]; [auto|]. intros H. right. apply IH, H.
Qed.

Lemma supported_extensions_monitored :
  forallb (fun e => in_strings (lower e) code_extensions) supported_extensions.*1 = true.
Proof. vm_compute. reflexivity. Qed.

Lemma dir_pattern (w : World) (file_path d : string) :
  startswith "*" d = false -> in_strings d (parts w file_path) = false ->
  pattern_matches w file_path d = false.
Proof. unfold pattern_matches. intros -> ->. reflexivity. Qed.

(** X17. What the watcher reports and what the builder analyses.  A path
    that an ignore pattern matches is not monitored.  A file the scan takes
    up is monitored unless one of its components is [.DS_Store], [.next] or
    [.nuxt] or its name ends in [.log], [.tmp], [.temp] or [.cache]: the
    other patterns name directories the scan ignores as well, and every
    suffix the builder supports is a monitored one.  A file whose suffix
    the builder does not support gives no node and leaves the graph object
    as it was, monitored or not. *)
Theorem should_monitor_file_covers_builder (w : World) (file_path : string) :
  (forall pattern, In pattern ignore_patterns -> pattern_matches w file_path pattern = true ->
     _should_monitor_file w file_path = false)
  /\ (scanned w file_path = true ->
      _should_monitor_file w file_path
      = negb (existsb (pattern_matches w file_path)
                      [".DS_Store"; ".next"; ".nuxt"; "*.log"; "*.tmp"; "*.temp"; "*.cache"]))
  /\ (is_supported (suffix w file_path) = false ->
      forall k, (_analyze_single_file w file_path k).2 = k
                /\ forall fn, (_analyze_single_file w file_path k).1 <> Ret (Some fn)).
Proof.
  split; [|split].
  - intros pattern Hin Hm. unfold _should_monitor_file.
    assert (H : existsb (pattern_matches w file_path) ignore_patterns = true).
    { apply existsb_exists. eauto. }
    rewrite H. reflexivity.
  - unfold scanned. intros Hs. apply andb_true_iff in Hs as [Hig Hs].
    apply andb_true_iff in Hs as [_ Hs]. apply negb_true_iff in Hig.
    unfold ignore_dirs in Hig. cbn [existsb] in Hig.
    repeat (apply orb_false_iff in Hig as [? Hig]).
    unfold _should_monitor_file, ignore_patterns. cbn [existsb].
    rewrite (dir_pattern w file_path ".git"), (dir_pattern w file_path "__pycache__"),
      (dir_pattern w file_path "node_modules"), (dir_pattern w file_path "dist"),
      (dir_pattern w file_path "build"), (dir_pattern w file_path ".vscode")
      by (first [reflexivity | assumption]).
    cbn [orb].
    unfold is_supported in Hs. apply bool_decide_eq_true in Hs as [lang Hs].
    apply assoc_get_In in Hs. pose proof supported_extensions_monitored as Hmon.
    rewrite forallb_forall in Hmon. rewrite (Hmon _ Hs).
    destruct (pattern_matches w file_path ".DS_Store"), (pattern_matches w file_path ".next"),
      (pattern_matches w file_path ".nuxt"), (pattern_matches w file_path "*.log"),
      (pattern_matches w file_path "*.tmp"), (pattern_matches w file_path "*.temp"),
      (pattern_matches w file_path "*.cache"); reflexivity.
  - intros Hs k.
    pose proof (analyze_single_file_node w file_path k _ _ (surjective_pairing _))
      as (_ & _ & Hnode & _).
    pose proof (analyze_single_file_keyed w file_path k _ _ (surjective_pairing _))
      as (_ & _ & Hun).
    assert (Hnone : forall fn, (_analyze_single_file w file_path k).1 <> Ret (Some fn)).
    { intros fn Hfn. destruct (Hnode fn Hfn) as (content & st & language & _ & _ & Hl & _).
      unfold is_supported in Hs. apply bool_decide_eq_false in Hs. apply Hs.
      rewrite Hl. eauto. }
    split; [apply Hun, Hnone|exact Hnone].
Qed.

(** ** The impact prediction *)

Lemma scan_loop_graph (w : World) (max_files : Z) (paths : list string) :
  forall c k o k', scan_loop w max_files paths c k = (o, k') -> KG.graph k' = KG.graph k.
Proof.
  induction paths as [|p paths IH]; intros c k o k'; cbn [scan_loop].
  - intros [= <- <-]. reflexivity.
  - destruct (c >=? max_files); [intros [= <- <-]; reflexivity|].
    match goal with
    | |- context [existsb ?f ignore_dirs] => destruct (existsb f ignore_dirs)
    end; [apply IH|].
    destruct (is_file w p && is_supported (suffix w p)); [|apply IH].
    unfold bind at 1, try_except, bind at 1.
    destruct (_analyze_single_file w p k) as [r k1] eqn:E.
    apply analyze_single_file_node in E as ((_ & Hg & _) & _).
    destruct r as [[fn|]|e|].
    + unfold bind, modify, ret. intros H. apply IH in H. rewrite H. exact Hg.
    + unfold ret. intros H. apply IH in H. congruence.
    + destruct (is_Exception e).
      * unfold ret. intros H. apply IH in H. congruence.
      * intros [= <- <-]. exact Hg.
    + intros [= <- <-]. exact Hg.
Qed.

Lemma analyze_project_edges (w : World) (max_files : Z) (project_root : string) o k' :
  analyze_project w max_files (KG_init w project_root) = (o, k') -> edges_leave_files k'.
Proof.
  assert (Hempty : forall k, KG.graph k = DiGraph.empty -> edges_leave_files k).
  { intros k Hk. split; rewrite Hk; [apply empty_graph_wf|].
    intros u v H. rewrite empty_edge_set in H. set_solver. }
  unfold analyze_project, bind at 1, get. unfold bind at 1, lift_outcome.
  destruct (detect_context w _) as [c|e|]; [|intros [= <- <-]; apply Hempty; reflexivity..].
  unfold bind at 1, modify at 1. unfold bind at 1.
  destruct (_scan_and_analyze_files w max_files _) as [r1 k1] eqn:E1.
  assert (G1 : KG.graph k1 = DiGraph.empty).
  { revert E1. unfold _scan_and_analyze_files, bind, get. intros H.
    apply scan_loop_graph in H. exact H. }
  destruct r1 as [n1|e|]; [|intros [= <- <-]; apply Hempty; exact G1..].
  unfold bind at 1.
  destruct (_build_dependency_graph w k1) as [r2 k2] eqn:E2.
  pose proof (build_dependency_graph_frame w k1 r2 k2 E2) as [F2 _].
  apply build_dependency_graph_grows in E2 as (G2 & B2 & _);
    [|rewrite G1; apply empty_graph_wf].
  assert (H2 : edges_leave_files k2).
  { split; [apply G2|]. intros u v H. destruct (B2 u v H) as [H'|(fn & Hfn & _)].
    - rewrite G1, empty_edge_set in H'. set_solver.
    - rewrite F2, Hfn. eauto. }
  destruct r2 as [n2|e|]; [|intros [= <- <-]; exact H2..].
  unfold bind, get, modify, ret. intros [= <- <-].
  destruct H2 as [Hwf H2]. split.
  - unfold _update_context_statistics, _calculate_risk_scores.
    destruct (KG.context _); exact Hwf.
  - intros u v. unfold _update_context_statistics, _calculate_risk_scores.
    assert (Hf : forall u, is_Some (KG.files k2 !! u) ->
                 is_Some (((fun f => FileNode.set_risk_score (file_risk_score f) f)
                             <$> KG.files k2) !! u)).
    { intros u0 [fn Hfn]. rewrite lookup_fmap, Hfn. simpl. eauto. }
    destruct (KG.context _); cbn; intros H; apply Hf, (H2 u v), H.
Qed.

Lemma get_file_dependents_elem (k : KG.t) (u v : string) :
  graph_wf (KG.graph k) ->
  u ∈ get_file_dependents k v
  <-> (u, v) ∈ edge_set (KG.graph k) /\ DiGraph.has_node v (KG.graph k) = true.
Proof.
  intros Hwf. unfold get_file_dependents.
  destruct (DiGraph.has_node v (KG.graph k)) eqn:E.
  - rewrite predecessors_elem. tauto.
  - split; [intros H; apply elem_of_nil in H; contradiction|intros [_ ?]; discriminate].
Qed.

Lemma predecessors_NoDup (n : string) (g : DiGraph.t) : NoDup (predecessors n g).
Proof. unfold predecessors. apply NoDup_fst_map_to_list. Qed.

Lemma get_file_dependents_NoDup (k : KG.t) (v : string) : NoDup (get_file_dependents k v).
Proof.
  unfold get_file_dependents. destruct (DiGraph.has_node _ _);
    [apply predecessors_NoDup|constructor].
Qed.

Lemma union_fold_elem (f : string -> list string) (l : list string) :
  forall (acc : gset string) x,
    x ∈ fold_left (fun acc dep => acc ∪ list_to_set (f dep)) l acc
    <-> x ∈ acc \/ exists dep, dep ∈ l /\ x ∈ f dep.
Proof.
  induction l as [|d l IH]; intros acc x; cbn [fold_left].
  - split; [auto|]. intros [H|[dep [H _]]]; [exact H|]. apply elem_of_nil in H. contradiction.
  - rewrite IH, elem_of_union, elem_of_list_to_set. split.
    + intros [[H|H]|[dep [H1 H2]]]; [auto| |].
      * right. exists d. split; [left|exact H].
      * right. exists dep. split; [right; exact H1|exact H2].
    + intros [H|[dep [H1 H2]]]; [auto|].
      apply elem_of_cons in H1 as [->|H1]; [auto|]. right. eauto.
Qed.

Lemma NoDup_length_size (l : list string) (X : gset string) :
  NoDup l -> (forall x, x ∈ l -> x ∈ X) -> (length l <= size X)%nat.
Proof.
  intros Hnd Hsub. rewrite <- (size_list_to_set (C := gset string) l Hnd).
  apply subseteq_size. intros x Hx. apply elem_of_list_to_set in Hx. auto.
Qed.

(** X22. The impact prediction on an analysed project.  For a path that is
    no node of the graph the answer is the error; otherwise the direct
    impact lists, without repeats, the nodes with an edge to the path, the
    indirect impact the nodes with an edge to one of those, and all of them
    are files of the table.  The total is the sum of the two counts (a file
    in both is counted twice) and is at most twice the number of files; the
    risk level is the level of the total (extreme above 20, high above 10,
    medium above 5, low otherwise), and the recommendations are those of
    that level, never none. *)
Theorem predict_change_impact_lists_files (w : World) (max_files : Z) (project_root : string)
    (file_path : string) :
  let k := (analyze_project w max_files (KG_init w project_root)).2 in
  (predict_change_impact k file_path = None
   <-> DiGraph.node (KG.graph k) !! file_path = None)
  /\ forall impact, predict_change_impact k file_path = Some impact ->
       target_file impact = file_path
       /\ NoDup (direct_impact impact)
       /\ (forall d, d ∈ direct_impact impact <-> (d, file_path) ∈ edge_set (KG.graph k))
       /\ (forall d, d ∈ indirect_impact impact
                     <-> exists m, (m, file_path) ∈ edge_set (KG.graph k)
                                   /\ (d, m) ∈ edge_set (KG.graph k))
       /\ (forall d, d ∈ direct_impact impact \/ d ∈ indirect_impact impact ->
                     is_Some (KG.files k !! d))
       /\ total_impact_files impact
          = len (direct_impact impact) + Z.of_nat (size (indirect_impact impact))
       /\ total_impact_files impact <= 2 * Z.of_nat (size (KG.files k))
       /\ impact_risk_level impact = level_of_impact (total_impact_files impact)
       /\ recommendations impact
          = _get_change_recommendations (impact_risk_level impact) (total_impact_files impact)
       /\ recommendations impact <> [].
Proof.
  intros k.
  pose proof (analyze_project_edges w max_files project_root _ _ (surjective_pairing _))
    as [Hwf Hfiles]. fold k in Hwf, Hfiles.
  unfold predict_change_impact.
  destruct (DiGraph.has_node file_path (KG.graph k)) eqn:En; cbn [negb].
  - assert (Hn : file_path ∈ dom (DiGraph.node (KG.graph k))) by (apply has_node_dom, En).
    split.
    { split; [discriminate|]. intros H. apply not_elem_of_dom in H. contradiction. }
    intros impact [= <-]. cbn.
    assert (Hdirect : forall d, d ∈ get_file_dependents k file_path
                                <-> (d, file_path) ∈ edge_set (KG.graph k)).
    { intros d. rewrite get_file_dependents_elem by exact Hwf. rewrite En. tauto. }
    assert (Hindirect : forall d,
              d ∈ fold_left (fun acc dep => acc ∪ list_to_set (get_file_dependents k dep))
                    (get_file_dependents k file_path) (∅ : gset string)
              <-> exists m, (m, file_path) ∈ edge_set (KG.graph k)
                            /\ (d, m) ∈ edge_set (KG.graph k)).
    { intros d. rewrite union_fold_elem. split.
      - intros [H|[m [H1 H2]]]; [set_solver|]. exists m. split; [apply Hdirect, H1|].
        apply get_file_dependents_elem in H2 as [H2 _]; [exact H2|exact Hwf].
      - intros [m [H1 H2]]. right. exists m. split; [apply Hdirect, H1|].
        apply get_file_dependents_elem; [exact Hwf|]. split; [exact H2|].
        apply has_node_dom. apply edge_set_elem in H1 as [d' H1].
        unfold edge_lookup in H1. destruct (DiGraph.adj (KG.graph k) !! m) eqn:Em;
          [|discriminate].
        apply elem_of_dom. destruct (DiGraph.node (KG.graph k) !! m) eqn:Enode; [eauto|].
        rewrite (Hwf _ Enode) in Em. discriminate. }
    split; [reflexivity|]. split; [apply get_file_dependents_NoDup|].
    split; [exact Hdirect|]. split; [exact Hindirect|].
    assert (Hin : forall d, d ∈ get_file_dependents k file_path
                   \/ d ∈ fold_left (fun acc dep => acc ∪ list_to_set (get_file_dependents k dep))
                          (get_file_dependents k file_path) (∅ : gset string) ->
                   is_Some (KG.files k !! d)).
    { intros d [H|H].
      - apply Hdirect in H. apply (Hfiles _ _ H).
      - apply Hindirect in H as [m [_ H]]. apply (Hfiles _ _ H). }
    split; [exact Hin|]. split; [reflexivity|]. split.
    { assert (H1 : (length (get_file_dependents k file_path) <= size (dom (KG.files k)))%nat).
      { apply NoDup_length_size; [apply get_file_dependents_NoDup|].
        intros x Hx. apply elem_of_dom, Hin. auto. }
      assert (H2 : (size (fold_left (fun acc dep => acc ∪ list_to_set (get_file_dependents k dep))
                          (get_file_dependents k file_path) (∅ : gset string))
                    <= size (dom (KG.files k)))%nat).
      { apply subseteq_size. intros x Hx. apply elem_of_dom, Hin. auto. }
      rewrite size_dom in H1, H2. unfold len. lia. }
    split; [reflexivity|]. split; [reflexivity|].
    unfold _get_change_recommendations.
    repeat match goal with |- context [if ?b then _ else _] => destruct b end; discriminate.
  - split; [|discriminate]. split; [intros _|reflexivity].
    apply not_elem_of_dom. intros H. apply has_node_dom in H. congruence.
Qed.

(** ** Import resolution *)

Lemma try_extensions_spec (w : World) (path : string) (exts : list string) :
  (forall t, try_extensions w path exts = Ret (Some t) ->
     path_exists w t = Ret true
     /\ exists pre ext post,
          exts = pre ++ ext :: post
          /\ with_suffix w path ext = Ret t
          /\ forall e, e ∈ pre -> no_file_with w path e)
  /\ (try_extensions w path exts = Ret None -> forall e, e ∈ exts -> no_file_with w path e).
Proof.
  induction exts as [|ext exts [IH1 IH2]]; cbn [try_extensions].
  - split; [discriminate|]. intros _ e He. apply elem_of_nil in He. contradiction.
  - destruct (with_suffix w path ext) as [c|e|] eqn:Ew; [|split; discriminate..].
    destruct (path_exists w c) as [[|]|e|] eqn:Ee; [| |split; discriminate..].
    + split; [|discriminate]. intros t [= <-]. split; [exact Ee|].
      exists [], ext, exts. split; [reflexivity|]. split; [exact Ew|].
      intros e He. apply elem_of_nil in He. contradiction.
    + assert (Hno : no_file_with w path ext) by (exists c; auto).
      split.
      * intros t Ht. destruct (IH1 t Ht) as (Hex & pre & ext' & post & -> & Hw & Hpre).
        split; [exact Hex|]. exists (ext :: pre), ext', post. split; [reflexivity|].
        split; [exact Hw|]. intros e He. apply elem_of_cons in He as [->|He]; auto.
      * intros Hn e He. apply elem_of_cons in He as [->|He]; auto.
Qed.

(** X23. What a relative import resolves to: a name that does not start
    with a dot resolves to nothing, so no import of a package or of an
    absolute module gives an edge.  A name that does is looked up beside the
    importing file, and the answer is the path with the first supported
    suffix, in the order of the table, for which a file exists; it is
    nothing when none exists.  The names [./name] and [.name] resolve
    alike. *)
Theorem resolve_import_first_existing (w : World) (import_name from_file : string) :
  let result := _resolve_import w import_name from_file in
  let path := import_path w import_name from_file in
  (startswith "." import_name = false -> result = Ret None)
  /\ (forall target, result = Ret (Some target) ->
        startswith "." import_name = true
        /\ path_exists w target = Ret true
        /\ exists pre ext post,
             supported_extensions.*1 = pre ++ ext :: post
             /\ with_suffix w path ext = Ret target
             /\ forall e, e ∈ pre -> no_file_with w path e)
  /\ (startswith "." import_name = true -> result = Ret None ->
      forall e, e ∈ supported_extensions.*1 -> no_file_with w path e)
  /\ (forall name,
        startswith "/" name = false -> startswith "./" name = false ->
        _resolve_import w ("./" +:+ name) from_file = _resolve_import w ("." +:+ name) from_file).
Proof.
  intros result path. subst result path. unfold _resolve_import, import_path.
  split; [intros ->; reflexivity|].
  split; [|split].
  - intros target. destruct (startswith "." import_name); [|discriminate].
    intros H. split; [reflexivity|]. apply try_extensions_spec in H. exact H.
  - intros -> H. apply try_extensions_spec. exact H.
  - intros name H1 H2.
    assert (E1 : startswith "." ("./" +:+ name) = true) by reflexivity.
    assert (E2 : startswith "./" ("./" +:+ name) = true).
    { unfold startswith. simpl. destruct name; reflexivity. }
    assert (E3 : startswith "." ("." +:+ name) = true).
    { unfold startswith. simpl. destruct name; reflexivity. }
    assert (E4 : startswith "./" ("." +:+ name) = false).
    { revert H1. unfold startswith. simpl. auto. }
    assert (E5 : startswith "../" ("." +:+ name) = false).
    { revert H2. unfold startswith. simpl. auto. }
    rewrite E1, E2, E3, E4, E5. reflexivity.
Qed.

(** ** Branch saves and observer fallback *)

(** X18. A branch save that returned True: the shared manager has its own
    identity method back; the graph is cached and pickled under the branch
    identity and under no other; [branch_contexts.json] holds the branch
    context under the project root and the branch name, and what it held
    for other roots and branches is kept. *)
Theorem save_branch_project_stores_under_branch (w : World) (fx : Faults)
    (root branch : string) (k : KG.t) (bc : BranchContext.t) (m : Manager.t) :
  let run := _save_branch_project w fx root branch k bc m in
  let pid := branch_project_id w root branch in
  run.1 = Ret true ->
  Manager.get_project_id run.2 = Manager.get_project_id m
  /\ Manager._cache run.2 !! pid = Some k
  /\ Manager.snapshots run.2 !! pid = Some (Pickled k)
  /\ (forall other, other <> pid ->
        Manager._cache run.2 !! other = Manager._cache m !! other
        /\ Manager.snapshots run.2 !! other = Manager.snapshots m !! other)
  /\ exists contexts,
       Manager.branch_contexts run.2 = Some contexts
       /\ stored_branch_context contexts root branch = Some bc
       /\ forall r b, (r, b) <> (root, branch) ->
            stored_branch_context contexts r b
            = stored_branch_context (default ∅ (Manager.branch_contexts m)) r b.
Proof.
  intros run pid Hrun.
  destruct (save_branch_project_true w fx root branch k bc m run.2) as (c & rows & _ & _ & Hm).
  { rewrite <- Hrun. apply surjective_pairing. }
  rewrite Hm. unfold branch_saved_manager, saved_manager. fold pid.
  cbn [Manager.get_project_id Manager._cache Manager.snapshots Manager.branch_contexts
       Manager.set_get_project_id Manager.set_branch_contexts Manager.set_cache
       Manager.set_snapshots Manager.set_txn Manager.set_db].
  split; [reflexivity|]. split; [apply lookup_insert_eq|]. split; [apply lookup_insert_eq|].
  split.
  { intros other Hne. rewrite !lookup_insert_ne by congruence. split; reflexivity. }
  eexists. split; [reflexivity|]. unfold stored_branch_context. split.
  - rewrite lookup_insert_eq. simpl. apply lookup_insert_eq.
  - intros r b Hne. destruct (decide (r = root)) as [->|Hr].
    + rewrite lookup_insert_eq. simpl. rewrite lookup_insert_ne by congruence.
      destruct (default ∅ (Manager.branch_contexts m) !! root) as [per|]; simpl;
        [reflexivity|apply lookup_empty].
    + rewrite lookup_insert_ne by congruence. reflexivity.
Qed.

Lemma save_branch_project_stores_under_branch_witness :
  let run := _save_branch_project scenarioA_world no_faults "/proj" "feature/x"
               scenarioA_run.2 feature_x_context fresh_manager in
  Manager.get_project_id run.2 = Manager.get_project_id fresh_manager.
Proof.
  intros run.
  destruct (save_branch_project_stores_under_branch scenarioA_world no_faults "/proj"
              "feature/x" scenarioA_run.2 feature_x_context fresh_manager) as [H _];
    [vm_compute; reflexivity|exact H].
Defined.

Lemma try_candidate_starts (wd : Watchdog) (c : ObserverClass) (u : Updater.t) :
  can_start wd c = true ->
  try_candidate wd c u
  = (Ret (inl (Some c)),
     Updater.set_observer_class (Some c) (Updater.set_running (Updater.running u ++ [c]) u)).
Proof.
  unfold can_start, try_candidate, bind, wd_step, ret, modify.
  destruct (wd_construct wd c); [discriminate|].
  destruct (wd_schedule wd c); [discriminate|].
  destruct (wd_start wd c); [discriminate|]. reflexivity.
Qed.

Lemma try_candidate_skips (wd : Watchdog) (c : ObserverClass) (u : Updater.t) :
  ordinary_watchdog wd ->
  can_start wd c = false ->
  exists e, try_candidate wd c u = (Ret (inr e), u).
Proof.
  intros Hord. unfold can_start, try_candidate, bind, wd_step, ret, raise, modify.
  destruct (wd_construct wd c) as [e|] eqn:E1.
  { intros _. rewrite (Hord c e) by auto. eauto. }
  destruct (wd_schedule wd c) as [e|] eqn:E2.
  { intros _. rewrite (Hord c e) by auto.
    destruct (wd_stop wd c) as [e'|] eqn:E4; [rewrite (Hord c e') by auto|]; eauto. }
  destruct (wd_start wd c) as [e|] eqn:E3; [|discriminate].
  intros _. rewrite (Hord c e) by auto.
  destruct (wd_stop wd c) as [e'|] eqn:E4; [rewrite (Hord c e') by auto|]; eauto.
Qed.

Lemma start_candidates_first (wd : Watchdog) (pre : list ObserverClass) :
  forall c post last u,
    ordinary_watchdog wd ->
    (forall x, x ∈ pre -> can_start wd x = false) ->
    can_start wd c = true ->
    exists last',
      start_candidates wd (pre ++ c :: post) last u
      = (Ret (Some c, last'),
         Updater.set_observer_class (Some c)
           (Updater.set_running (Updater.running u ++ [c]) u)).
Proof.
  induction pre as [|x pre IH]; intros c post last u Hord Hpre Hc; cbn [app start_candidates].
  - unfold bind. rewrite (try_candidate_starts wd c u Hc). unfold ret. eauto.
  - destruct (try_candidate_skips wd x u Hord) as [e He]; [apply Hpre; left|].
    unfold bind. rewrite He. apply IH; [exact Hord| |exact Hc].
    intros y Hy. apply Hpre. right. exact Hy.
Qed.

(** X19. The observer that gets started is the first candidate that can
    start: from idle, [start_monitoring] passes over the candidates whose
    constructor, [schedule] or [start] raises, starts the first one that
    raises nowhere, holds it as [observer] and [_observer_class], sets the
    flag, and leaves exactly that one watcher running beside those that ran
    before.  With [WATCHDOG_FORCE_POLLING] unset or empty the native
    observer is the first candidate and the polling one the second. *)
Theorem start_monitoring_first_startable (wd : Watchdog) (u : Updater.t)
    (pre post : list ObserverClass) (c : ObserverClass) :
  Updater.monitoring u = false ->
  ordinary_watchdog wd ->
  _candidate_observers wd = pre ++ c :: post ->
  (forall x, x ∈ pre -> can_start wd x = false) ->
  can_start wd c = true ->
  start_monitoring wd u
  = (Ret tt, Updater.mk (Updater.project_root u) (Updater.memory_manager u) (Some c) true
                        (Some c) (Updater.running u ++ [c]))
  /\ (WATCHDOG_FORCE_POLLING wd = "" -> _candidate_observers wd = [Observer; PollingObserver]).
Proof.
  intros Hm Hord Hcand Hpre Hc. split.
  - unfold start_monitoring, bind at 1, get. rewrite Hm, Hcand. unfold bind at 1.
    destruct (start_candidates_first wd pre c post None u Hord Hpre Hc) as [last' ->].
    reflexivity.
  - intros Hflag. unfold _candidate_observers, _should_force_polling. rewrite Hflag.
    reflexivity.
Qed.

Lemma start_monitoring_first_startable_witness :
  start_monitoring inotify_exhausted idle_updater
  = (Ret tt, Updater.mk (Updater.project_root idle_updater)
                        (Updater.memory_manager idle_updater) (Some PollingObserver) true
                        (Some PollingObserver) [PollingObserver]).
Proof.
  destruct (start_monitoring_first_startable inotify_exhausted idle_updater
              [Observer] [] PollingObserver) as [H _]; [reflexivity| |reflexivity| |reflexivity|exact H].
  - intros c e [H|[H|[H|H]]]; destruct c; try discriminate; injection H as <-; reflexivity.
  - intros x Hx. apply list_elem_of_singleton in Hx. subst x. reflexivity.
Defined.
